(** * Layout extraction of [services/document_processor.py]

    A shallow embedding of the two entry points
    [process_pdf_to_layout_json] and [process_image_to_layout_json],
    of the OCR helper [_ocr_page] and of the lazily built engine
    singletons, together with the properties of the emitted layout.

    Conventions of the embedding:
    - a Python [str] is the list of its code points ([pystr]);
    - a finite Python [float] is the rational it denotes ([Q]), and
      [int(x)] is truncation toward zero ([py_int]);
    - module globals ([_paddle_ocr], [_easy_ocr]) live in an explicit
      [State] threaded through a state-and-exception monad [M];
    - everything the module imports (PyMuPDF, PaddleOCR, EasyOCR, OpenCV,
      NumPy, pathlib) is a field of the record [World];
    - the callers of the module, [process_folder] of [cli.py] and the
      two handlers of [main.py], run in a [Process] that adds the files,
      the identifiers drawn and the output streams; what they use of
      the operating system is a field of the record [Host]. *)

From Stdlib Require Import List ZArith QArith Lia Bool Arith.
From Stdlib Require Import Ascii String DecimalString DecimalNat.
From Stdlib Require Import Permutation Sorted.
Import ListNotations.
Close Scope Q_scope.

Set Implicit Arguments.

(* ================================================================= *)
(** ** Python strings *)

Module PyStr.

Definition pystr := list N.

(** A literal of the source, as code points. *)
Definition lit (s : string) : pystr := map N_of_ascii (list_ascii_of_string s).

(** [Py_UNICODE_ISSPACE]: the characters [str.strip()] removes and
    [str.isspace()] accepts. *)
Definition isspace (c : N) : bool :=
  ((9 <=? c) && (c <=? 13) || (28 <=? c) && (c <=? 31) || (c =? 32)
   || (c =? 133) || (c =? 160) || (c =? 5760)
   || (8192 <=? c) && (c <=? 8202) || (c =? 8232) || (c =? 8233)
   || (c =? 8239) || (c =? 8287) || (c =? 12288))%N.

(** [Py_UNICODE_ISLINEBREAK]: the boundaries of [str.splitlines()]. *)
Definition islinebreak (c : N) : bool :=
  ((10 <=? c) && (c <=? 13) || (28 <=? c) && (c <=? 30)
   || (c =? 133) || (c =? 8232) || (c =? 8233))%N.

Definition CR : N := 13.
Definition LF : N := 10.

(** [s.splitlines()]: [line] is the current line, reversed.  A carriage
    return followed by a line feed is one boundary, and no empty last
    line is produced after a final boundary. *)
Fixpoint splitlines_from (line : pystr) (s : pystr) : list pystr :=
  match s with
  | [] => match line with [] => [] | _ :: _ => [rev line] end
  | c :: rest =>
      if islinebreak c then
        rev line ::
          match rest with
          | c' :: rest' =>
              if ((c =? CR) && (c' =? LF))%N then splitlines_from [] rest'
              else splitlines_from [] rest
          | [] => splitlines_from [] rest
          end
      else splitlines_from (c :: line) rest
  end.

Definition splitlines (s : pystr) : list pystr := splitlines_from [] s.

Fixpoint lstrip (s : pystr) : pystr :=
  match s with
  | c :: rest => if isspace c then lstrip rest else s
  | [] => []
  end.

Definition rstrip (s : pystr) : pystr := rev (lstrip (rev s)).

(** [s.strip()] *)
Definition strip (s : pystr) : pystr := rstrip (lstrip s).

(** [sep.join(parts)] *)
Fixpoint join (sep : pystr) (parts : list pystr) : pystr :=
  match parts with
  | [] => []
  | [p] => p
  | p :: more => p ++ sep ++ join sep more
  end.

(** Truth value of a string: non-empty. *)
Definition truthy (s : pystr) : bool :=
  match s with [] => false | _ :: _ => true end.

(** Empty or made of white space only. *)
Definition blank (s : pystr) : bool := forallb isspace s.

(** [str(n)] for a natural number: its decimal digits. *)
Definition of_nat (n : nat) : pystr := lit (NilEmpty.string_of_uint (Nat.to_uint n)).

End PyStr.
Import PyStr.

(* ================================================================= *)
(** ** Numbers *)

Module PyNum.

(** [int(x)] on a finite float: truncation toward zero. *)
Definition py_int (x : Q) : Z := Z.quot (Qnum x) (Zpos (Qden x)).

(** [a < b] on floats *)
Definition Qlt_bool (a b : Q) : bool := negb (Qle_bool b a).

(** [min(xs)]: the first smallest item; [ValueError] on an empty
    argument is [None]. *)
Definition py_min (xs : list Q) : option Q :=
  match xs with
  | [] => None
  | x :: rest => Some (fold_left (fun m y => if Qlt_bool y m then y else m) rest x)
  end.

(** [max(xs)]: the first largest item. *)
Definition py_max (xs : list Q) : option Q :=
  match xs with
  | [] => None
  | x :: rest => Some (fold_left (fun m y => if Qlt_bool m y then y else m) rest x)
  end.

End PyNum.
Import PyNum.

(* ================================================================= *)
(** ** Results, exceptions and the layout records *)

Inductive Exn :=
| RuntimeError            (* PyMuPDF missing *)
| ValueError              (* unreadable image, [min()] of an empty sequence,
                             [reshape] of a buffer of the wrong size *)
| LibraryError (code : nat). (* anything raised inside an imported library *)

Inductive Result (A : Type) :=
| Ok (a : A)
| Raise (e : Exn).
Arguments Ok {A} a.
Arguments Raise {A} e.

(** [bbox]: the list [[x0, y0, x1, y1]] of the source. *)
Record BBox := mkBBox { bx0 : Z; by0 : Z; bx1 : Z; by1 : Z }.

Record Block := mkBlock {
  id : pystr;
  role : pystr;
  bbox : BBox;
  text : pystr;
  confidence : Q
}.

Record Page := mkPage {
  page : nat;
  width : Z;
  height : Z;
  blocks : list Block
}.

(** The dict that the entry points hand to [json.dumps]. *)
Record Document := mkDocument {
  document_id : pystr;
  filename : pystr;
  num_pages : nat;
  pages : list Page
}.

(* ================================================================= *)
(** ** The imported libraries *)

(** A NumPy image: its shape (rows, columns, channels) and its bytes. *)
Record Image := mkImage {
  img_rows : Z;
  img_cols : Z;
  img_channels : Z;
  img_data : list Z
}.

(** [page.get_pixmap(dpi=300)] *)
Record Pixmap := mkPixmap {
  pix_samples : list Z;
  pix_height : Z;
  pix_width : Z;
  pix_n : Z
}.

(** An item of [page.get_text("blocks")], a tuple
    [(x0, y0, x1, y1, text, block_no, block_type)].  [Short] is a tuple
    of fewer than five items, which the extraction loop skips.  The
    text of a fragment is a [str], so the conversion [str(text)] of the
    source is the identity. *)
Inductive RawBlock :=
| Short
| Fragment (x0 y0 x1 y1 : Q) (raw_text : pystr).

Record PdfPage := mkPdfPage {
  rect_width : Q;
  rect_height : Q;
  get_text_blocks : list RawBlock;
  get_pixmap : Result Pixmap
}.

(** One detection of an engine: PaddleOCR reports
    [(bbox_points, (text, conf))], EasyOCR [(bbox, text, conf)]. *)
Record Detection := mkDetection {
  det_points : list (Q * Q);
  det_text : pystr;
  det_conf : Q
}.

(** [paddle.ocr(img, cls=True)]: one entry per image, [None] for an
    image without text. *)
Definition PaddleEngine := Image -> Result (list (option (list Detection))).

(** [easy.readtext(img)] *)
Definition EasyEngine := Image -> Result (list Detection).

Inductive ColorCode := COLOR_RGBA2RGB | COLOR_GRAY2RGB.

Record World := mkWorld {
  PYMUPDF_AVAILABLE : bool;
  PADDLE_AVAILABLE : bool;
  EASYOCR_AVAILABLE : bool;
  (** [fitz.open(path)] with the loading of the pages: the document as
      the list of the pages that [pdf_doc[page_num]], [page.rect] and
      [page.get_text("blocks")] give.  A document that opens and whose
      pages cannot be loaded is not described. *)
  fitz_open : pystr -> Result (list PdfPage);
  (** [PaddleOCR(use_angle_cls=True, lang=..., show_log=False)] *)
  PaddleOCR : pystr -> Result PaddleEngine;
  (** [easyocr.Reader(langs, gpu=True)] *)
  easyocr_Reader : list pystr -> Result EasyEngine;
  cv2_imread : pystr -> option Image;
  cv2_cvtColor : Image -> ColorCode -> Result Image;
  (** [Path(p).stem] and [Path(p).name] *)
  path_stem : pystr -> pystr;
  path_name : pystr -> pystr
}.

(* ================================================================= *)
(** ** Module state and the monad of the module's functions *)

(** Calls into the OCR machinery, in the order they happen. *)
Inductive Call :=
| GetPixmap
| PaddleInit (lang : pystr)
| PaddleRun
| EasyInit (lang : pystr)
| EasyRun.

Record State := mkState {
  _paddle_ocr : option PaddleEngine;
  _easy_ocr : option EasyEngine;
  calls : list Call
}.

Definition M (A : Type) : Type := State -> Result A * State.

Definition ret {A} (a : A) : M A := fun s => (Ok a, s).

Definition bind {A B} (m : M A) (k : A -> M B) : M B :=
  fun s => match m s with
           | (Ok a, s') => k a s'
           | (Raise e, s') => (Raise e, s')
           end.

Definition raise {A} (e : Exn) : M A := fun s => (Raise e, s).

(** A value an imported library computed, or the exception it raised. *)
Definition lift {A} (r : Result A) : M A := fun s => (r, s).

(** The same, recorded in [calls]. *)
Definition call {A} (c : Call) (r : Result A) : M A :=
  fun s => (r, mkState (_paddle_ocr s) (_easy_ocr s) (calls s ++ [c])).

(** [try: m  except Exception: return a] *)
Definition try_except {A} (m : M A) (a : A) : M A :=
  fun s => match m s with
           | (Ok x, s') => (Ok x, s')
           | (Raise _, s') => (Ok a, s')
           end.

Declare Scope py_scope.
Delimit Scope py_scope with py.
Notation "x <- m ;; k" := (bind m (fun x => k))
  (at level 61, m at next level, right associativity) : py_scope.
Open Scope py_scope.

(* ================================================================= *)
(** ** Blocks *)

(** [[ln.strip() for ln in text_str.splitlines() if ln.strip()]] *)
Definition clean_lines (text_str : pystr) : list pystr :=
  map strip (filter (fun ln => truthy (strip ln)) (splitlines text_str)).

Definition NL : pystr := [LF].

(** The body of the loop over [raw_blocks], at index [i]. *)
Definition native_block (i : nat) (blk : RawBlock) : option Block :=
  match blk with
  | Short => None
  | Fragment x0 y0 x1 y1 text_str =>
      match clean_lines text_str with
      | [] => None
      | ln :: lns =>
          Some {| id := lit "b" ++ of_nat (i + 1);
                  role := lit "text";
                  bbox := mkBBox (py_int x0) (py_int y0) (py_int x1) (py_int y1);
                  text := join NL (ln :: lns);
                  confidence := 1%Q |}
      end
  end.

(** [for i, blk in enumerate(raw_blocks): ...], started at index [i]. *)
Fixpoint native_blocks (i : nat) (raw_blocks : list RawBlock) : list Block :=
  match raw_blocks with
  | [] => []
  | blk :: rest =>
      match native_block i blk with
      | Some b => b :: native_blocks (S i) rest
      | None => native_blocks (S i) rest
      end
  end.

(** [int(min(xs)), int(min(ys)), int(max(xs)), int(max(ys))] *)
Definition points_bbox (pts : list (Q * Q)) : Result BBox :=
  let xs := map fst pts in
  let ys := map snd pts in
  match py_min xs, py_min ys, py_max xs, py_max ys with
  | Some x0, Some y0, Some x1, Some y1 =>
      Ok (mkBBox (py_int x0) (py_int y0) (py_int x1) (py_int y1))
  | _, _, _, _ => Raise ValueError
  end.

(** The body of the loop over an engine's detections, at index [i]. *)
Definition detection_block (i : nat) (d : Detection) : Result Block :=
  match points_bbox (det_points d) with
  | Ok bb => Ok {| id := lit "ocr" ++ of_nat (i + 1);
                   role := lit "text";
                   bbox := bb;
                   text := det_text d;
                   confidence := det_conf d |}
  | Raise e => Raise e
  end.

(** [for i, line in enumerate(detections): blocks.append(...)] *)
Fixpoint detection_blocks (i : nat) (ds : list Detection) : Result (list Block) :=
  match ds with
  | [] => Ok []
  | d :: rest =>
      match detection_block i d with
      | Ok b =>
          match detection_blocks (S i) rest with
          | Ok bs => Ok (b :: bs)
          | Raise e => Raise e
          end
      | Raise e => Raise e
      end
  end.

(* ================================================================= *)
(** ** Reading order *)

(** The sort key [(b["bbox"][1], b["bbox"][0])] and the order of
    Python tuples on it. *)
Definition sort_key (b : Block) : Z * Z := (by0 (bbox b), bx0 (bbox b)).

Definition key_leb (k1 k2 : Z * Z) : bool :=
  (fst k1 <? fst k2)%Z || ((fst k1 =? fst k2)%Z && (snd k1 <=? snd k2)%Z).

Definition key_eqb (k1 k2 : Z * Z) : bool :=
  (fst k1 =? fst k2)%Z && (snd k1 =? snd k2)%Z.

(** [list.sort(key=...)] is a stable sort; the result of a stable sort
    is determined by the keys, so it is given here by insertion from
    the right, which puts a block in front of the later ones of equal
    key. *)
Fixpoint insert_block (b : Block) (l : list Block) : list Block :=
  match l with
  | [] => [b]
  | c :: rest =>
      if key_leb (sort_key b) (sort_key c) then b :: c :: rest
      else c :: insert_block b rest
  end.

Fixpoint sort_blocks (l : list Block) : list Block :=
  match l with
  | [] => []
  | b :: rest => insert_block b (sort_blocks rest)
  end.

(* ================================================================= *)
(** ** The functions of the module *)

Section Processor.

Variable W : World.

(** [document_id or Path(path).stem] *)
Definition doc_id_of (document_id : option pystr) (path : pystr) : pystr :=
  match document_id with
  | Some (c :: rest) => c :: rest
  | Some [] => path_stem W path
  | None => path_stem W path
  end.

Definition set_paddle (e : PaddleEngine) : M unit :=
  fun s => (Ok tt, mkState (Some e) (_easy_ocr s) (calls s)).

Definition set_easy (e : EasyEngine) : M unit :=
  fun s => (Ok tt, mkState (_paddle_ocr s) (Some e) (calls s)).

Definition _get_paddle_ocr : M (option PaddleEngine) :=
  fun s =>
    match _paddle_ocr s with
    | None =>
        if PADDLE_AVAILABLE W then
          (e <- call (PaddleInit (lit "en")) (PaddleOCR W (lit "en")) ;;
           _ <- set_paddle e ;;
           ret (Some e)) s
        else (Ok None, s)
    | Some e => (Ok (Some e), s)
    end.

Definition _get_easy_ocr (lang : pystr) : M (option EasyEngine) :=
  fun s =>
    match _easy_ocr s with
    | None =>
        if EASYOCR_AVAILABLE W then
          (e <- call (EasyInit lang) (easyocr_Reader W [lang]) ;;
           _ <- set_easy e ;;
           ret (Some e)) s
        else (Ok None, s)
    | Some e => (Ok (Some e), s)
    end.

(** [np.frombuffer(pix.samples, dtype=np.uint8).reshape(pix.height,
    pix.width, pix.n)] *)
Definition pixmap_array (pix : Pixmap) : Result Image :=
  if (Z.of_nat (List.length (pix_samples pix)) =? pix_height pix * pix_width pix * pix_n pix)%Z
     && (0 <=? pix_height pix)%Z && (0 <=? pix_width pix)%Z && (0 <=? pix_n pix)%Z
  then Ok (mkImage (pix_height pix) (pix_width pix) (pix_n pix) (pix_samples pix))
  else Raise ValueError.

(** Rendering of a page and the conversion to three channels. *)
Definition render_page (pg : PdfPage) : M Image :=
  pix <- call GetPixmap (get_pixmap pg) ;;
  img <- lift (pixmap_array pix) ;;
  if (pix_n pix =? 4)%Z then lift (cv2_cvtColor W img COLOR_RGBA2RGB)
  else if (pix_n pix =? 1)%Z then lift (cv2_cvtColor W img COLOR_GRAY2RGB)
  else ret img.

(** The PaddleOCR part of [_ocr_page]: [Some blocks] is the early
    [return blocks], [None] falls through to EasyOCR. *)
Definition ocr_page_paddle (img : Image) : M (option (list Block)) :=
  if PADDLE_AVAILABLE W then
    paddle <- _get_paddle_ocr ;;
    match paddle with
    | Some engine =>
        result <- call PaddleRun (engine img) ;;
        match result with
        | Some (d :: ds) :: _ =>
            blocks <- lift (detection_blocks 0 (d :: ds)) ;;
            ret (Some blocks)
        | _ => ret None
        end
    | None => ret None
    end
  else ret None.

(** The EasyOCR part of [_ocr_page]. *)
Definition ocr_page_easy (img : Image) (lang : pystr) : M (list Block) :=
  if EASYOCR_AVAILABLE W then
    easy <- _get_easy_ocr lang ;;
    match easy with
    | Some reader =>
        result <- call EasyRun (reader img) ;;
        lift (detection_blocks 0 result)
    | None => ret []
    end
  else ret [].

Definition _ocr_page (pg : PdfPage) (lang : pystr) : M (list Block) :=
  try_except
    (img <- render_page pg ;;
     found <- ocr_page_paddle img ;;
     match found with
     | Some blocks => ret blocks
     | None => ocr_page_easy img lang
     end)
    [].

(** The block list of one PDF page before it is sorted: lines 92 to
    116 of the source. *)
Definition pdf_page_extract (enable_ocr : bool) (ocr_lang : pystr)
    (pg : PdfPage) : M (list Block) :=
  let blocks := native_blocks 0 (get_text_blocks pg) in
  if enable_ocr && (List.length blocks =? 0)%nat then
    ocr_blocks <- _ocr_page pg ocr_lang ;;
    match ocr_blocks with
    | _ :: _ => ret ocr_blocks
    | [] => ret blocks
    end
  else ret blocks.

(** The body of the loop over the pages, for the index [page_num]. *)
Definition pdf_page (enable_ocr : bool) (ocr_lang : pystr)
    (page_num : nat) (pg : PdfPage) : M Page :=
  blocks <- pdf_page_extract enable_ocr ocr_lang pg ;;
  ret {| page := page_num + 1;
         width := py_int (rect_width pg);
         height := py_int (rect_height pg);
         blocks := sort_blocks blocks |}.

(** [for page_num in range(len(pdf_doc)): ...], started at [page_num]. *)
Fixpoint pdf_pages (enable_ocr : bool) (ocr_lang : pystr)
    (page_num : nat) (pdf_doc : list PdfPage) : M (list Page) :=
  match pdf_doc with
  | [] => ret []
  | pg :: rest =>
      p <- pdf_page enable_ocr ocr_lang page_num pg ;;
      ps <- pdf_pages enable_ocr ocr_lang (S page_num) rest ;;
      ret (p :: ps)
  end.

(** The handler [except Exception as e: logger.error(...); raise] of
    both entry points passes the exception on, so it does not show. *)
Definition process_pdf_to_layout_json (pdf_path : pystr)
    (document_id : option pystr) (enable_ocr : bool) (ocr_lang : pystr)
    : M Document :=
  if negb (PYMUPDF_AVAILABLE W) then raise RuntimeError
  else
    let doc_id := doc_id_of document_id pdf_path in
    pdf_doc <- lift (fitz_open W pdf_path) ;;
    pages <- pdf_pages enable_ocr ocr_lang 0 pdf_doc ;;
    ret {| document_id := doc_id;
           filename := path_name W pdf_path;
           num_pages := List.length pages;
           pages := pages |}.

(** The PaddleOCR part of [process_image_to_layout_json]: the blocks
    appended to the empty list [blocks]. *)
Definition image_paddle (img : Image) : M (list Block) :=
  if PADDLE_AVAILABLE W then
    paddle <- _get_paddle_ocr ;;
    match paddle with
    | Some engine =>
        result <- call PaddleRun (engine img) ;;
        match result with
        | Some (d :: ds) :: _ => lift (detection_blocks 0 (d :: ds))
        | _ => ret []
        end
    | None => ret []
    end
  else ret [].

(** The EasyOCR part: runs when [blocks] is still empty. *)
Definition image_easy (img : Image) (ocr_lang : pystr)
    (blocks : list Block) : M (list Block) :=
  match blocks with
  | [] =>
      if EASYOCR_AVAILABLE W then
        easy <- _get_easy_ocr ocr_lang ;;
        match easy with
        | Some reader =>
            result <- call EasyRun (reader img) ;;
            more <- lift (detection_blocks 0 result) ;;
            ret (blocks ++ more)
        | None => ret blocks
        end
      else ret blocks
  | _ :: _ => ret blocks
  end.

(** The block list of an image before it is sorted. *)
Definition image_extract (img : Image) (ocr_lang : pystr) : M (list Block) :=
  blocks <- image_paddle img ;;
  image_easy img ocr_lang blocks.

Definition process_image_to_layout_json (image_path : pystr)
    (document_id : option pystr) (ocr_lang : pystr) : M Document :=
  let doc_id := doc_id_of document_id image_path in
  match cv2_imread W image_path with
  | None => raise ValueError
  | Some img =>
      blocks <- image_extract img ocr_lang ;;
      ret {| document_id := doc_id;
             filename := path_name W image_path;
             num_pages := 1;
             pages := [ {| page := 1;
                           width := img_cols img;
                           height := img_rows img;
                           blocks := sort_blocks blocks |} ] |}
  end.

End Processor.

(** The state of a fresh process: no engine built, nothing called. *)
Definition initial_state : State := mkState None None [].

(** The text clean-up in the words of the specification: split on line
    boundaries, strip each line, discard the empty lines, join with a
    newline. *)
Definition spec_clean_text (raw : pystr) : pystr :=
  join NL (filter truthy (map strip (splitlines raw))).

(* ================================================================= *)
(** ** Vocabulary of the properties *)

Definition bbox_ordered (b : Block) : Prop :=
  (bx0 (bbox b) <= bx1 (bbox b))%Z /\ (by0 (bbox b) <= by1 (bbox b))%Z.

Definition text_not_blank (b : Block) : Prop := blank (text b) = false.

Definition confidence_in_range (b : Block) : Prop :=
  (0 <= confidence b /\ confidence b <= 1)%Q.

(** Provenance of a block: built from a raw block that satisfies [F],
    or from a detection that satisfies [P]. *)
Definition from_native (F : RawBlock -> Prop) (b : Block) : Prop :=
  exists i blk, F blk /\ native_block i blk = Some b.

(** The rectangle of a raw fragment has its corners in order. *)
Definition rect_ordered (blk : RawBlock) : Prop :=
  match blk with
  | Short => True
  | Fragment x0 y0 x1 y1 _ => (x0 <= x1)%Q /\ (y0 <= y1)%Q
  end.

Definition from_ocr (P : Detection -> Prop) (b : Block) : Prop :=
  exists i d, P d /\ detection_block i d = Ok b.

Definition every_block (P : Block -> Prop) (doc : Document) : Prop :=
  Forall (fun pg => Forall P (blocks pg)) (pages doc).

(** Reading order: [b] does not come after [c]. *)
Definition key_le (b c : Block) : Prop := key_leb (sort_key b) (sort_key c) = true.

(** The blocks of [l] whose sort key is [k], in the order of [l]. *)
Definition with_key (k : Z * Z) (l : list Block) : list Block :=
  filter (fun b => key_eqb k (sort_key b)) l.

(** The two forms of block id. *)
Definition native_id (n : nat) : pystr := lit "b" ++ of_nat n.
Definition ocr_id (n : nat) : pystr := lit "ocr" ++ of_nat n.

(** Contract of the engines: every detection they report satisfies
    [P].  It covers the singletons already built and those the
    constructors may still build. *)
Definition paddle_sat (P : Detection -> Prop) (e : PaddleEngine) : Prop :=
  forall img ds rest, e img = Ok (Some ds :: rest) -> Forall P ds.

Definition easy_sat (P : Detection -> Prop) (e : EasyEngine) : Prop :=
  forall img ds, e img = Ok ds -> Forall P ds.

Definition engines_sat (P : Detection -> Prop) (W : World) (s : State) : Prop :=
  (forall e, _paddle_ocr s = Some e -> paddle_sat P e) /\
  (forall lang e, PaddleOCR W lang = Ok e -> paddle_sat P e) /\
  (forall e, _easy_ocr s = Some e -> easy_sat P e) /\
  (forall langs e, easyocr_Reader W langs = Ok e -> easy_sat P e).

(** The blocks [bs] are those of the detections [ds], which satisfy [P]. *)
Definition ocr_list (P : Detection -> Prop) (bs : list Block) : Prop :=
  exists ds, Forall P ds /\ detection_blocks 0 ds = Ok bs.

(** How the block list [bs] of a PDF page came about. *)
Definition page_source (P : Detection -> Prop) (pg : PdfPage) (bs : list Block) : Prop :=
  bs = native_blocks 0 (get_text_blocks pg) \/
  (native_blocks 0 (get_text_blocks pg) = [] /\ ocr_list P bs).

(** [_ocr_page] is called for this page: OCR is enabled and the text
    layer gave no block. *)
Definition needs_ocr (enable_ocr : bool) (pg : PdfPage) : bool :=
  enable_ocr && (List.length (native_blocks 0 (get_text_blocks pg)) =? 0)%nat.

Definition is_pixmap (c : Call) : bool :=
  match c with GetPixmap => true | _ => false end.

(** A call made after the page is rendered: never a rendering, and a
    construction of PaddleOCR only for the language ["en"]. *)
Definition engine_call (c : Call) : Prop :=
  match c with
  | GetPixmap => False
  | PaddleInit lang => lang = lit "en"
  | PaddleRun | EasyInit _ | EasyRun => True
  end.

(** What a call says about the language of PaddleOCR. *)
Definition paddle_lang_en (c : Call) : Prop :=
  forall lang, c = PaddleInit lang -> lang = lit "en".

(** The PaddleOCR engine that [_get_paddle_ocr] delivers in state [s]. *)
Definition paddle_ready (W : World) (s : State) (e : PaddleEngine) : Prop :=
  PADDLE_AVAILABLE W = true /\
  (_paddle_ocr s = Some e \/
   (_paddle_ocr s = None /\ PaddleOCR W (lit "en") = Ok e)).

(** PaddleOCR finds at least one line on the page whenever the page
    can be rendered. *)
Definition paddle_detects (W : World) (e : PaddleEngine) (pg : PdfPage) : Prop :=
  forall s img s', render_page W pg s = (Ok img, s') ->
                   exists d ds rest, e img = Ok (Some (d :: ds) :: rest).

(* ================================================================= *)
(** ** Scenarios *)

Module Demo.

(** [Path(name).stem] for a bare file name: the name without its last
    suffix, when the last dot is neither the first nor the last
    character. *)
Fixpoint split_last_dot (name : pystr) : option (pystr * pystr) :=
  match name with
  | [] => None
  | c :: rest =>
      match split_last_dot rest with
      | Some (a, b) => Some (c :: a, b)
      | None => if (c =? 46)%N then Some ([], rest) else None
      end
  end.

Definition bare_stem (name : pystr) : pystr :=
  match split_last_dot name with
  | Some (c :: a, _ :: _) => c :: a
  | _ => name
  end.

Definition image : Image := mkImage 2 3 3 (repeat 0%Z 18).

Definition pixmap : Pixmap := mkPixmap (repeat 255%Z 12) 2 2 3.

(** A world with one PDF, an optional PaddleOCR engine and an optional
    EasyOCR engine that depends on the language it is built for. *)
Definition world (pdf : list PdfPage) (paddle : option PaddleEngine)
    (easy : option (pystr -> EasyEngine)) : World :=
  {| PYMUPDF_AVAILABLE := true;
     PADDLE_AVAILABLE := match paddle with Some _ => true | None => false end;
     EASYOCR_AVAILABLE := match easy with Some _ => true | None => false end;
     fitz_open := fun _ => Ok pdf;
     PaddleOCR := fun _ =>
       match paddle with Some e => Ok e | None => Raise (LibraryError 0) end;
     easyocr_Reader := fun langs =>
       match easy with
       | Some f => Ok (f (hd [] langs))
       | None => Raise (LibraryError 0)
       end;
     cv2_imread := fun _ => Some image;
     cv2_cvtColor := fun img _ => Ok img;
     path_stem := bare_stem;
     path_name := fun p => p |}.

Definition paddle_reports (ds : list Detection) : PaddleEngine :=
  fun _ => Ok [match ds with [] => None | _ :: _ => Some ds end].

Definition paddle_fails : PaddleEngine := fun _ => Raise (LibraryError 1).

(** An EasyOCR reader whose only detection spells the language it was
    built for. *)
Definition easy_echo (lang : pystr) : EasyEngine :=
  fun _ => Ok [mkDetection [(0, 0); (4, 0); (4, 2); (0, 2)]%Q lang (9 # 10)].

Definition box (x0 y0 x1 y1 : Q) : list (Q * Q) :=
  [(x0, y0); (x1, y0); (x1, y1); (x0, y1)].

Definition det_total : Detection :=
  mkDetection (box (25 # 2) (251 # 5) 80 (619 # 10)) (lit "Total") (93 # 100).

Definition det_invoice : Detection :=
  mkDetection (box (12 # 1) (101 # 10) 95 (45 # 2)) (lit "Invoice") (97 # 100).

Definition det_blank : Detection :=
  mkDetection (box 0 0 9 9) (lit "  ") (4 # 5).

Definition det_overconfident : Detection :=
  mkDetection (box 0 0 9 9) (lit "x") (3 # 2).

(** The single page of the end-to-end scenario: one text run at
    [[10, 10, 100, 30]]. *)
Definition hello_page : PdfPage :=
  {| rect_width := 612; rect_height := 792;
     get_text_blocks := [Fragment 10 10 100 30 (lit "Hello World" ++ [LF])];
     get_pixmap := Ok pixmap |}.

(** A scanned page: its text layer holds white space only. *)
Definition scanned_page : PdfPage :=
  {| rect_width := 612; rect_height := 792;
     get_text_blocks := [Fragment 0 0 5 5 (lit " " ++ [LF])];
     get_pixmap := Ok pixmap |}.

(** A page whose fragment has its corners out of order. *)
Definition flipped_page : PdfPage :=
  {| rect_width := 612; rect_height := 792;
     get_text_blocks := [Fragment 10 0 5 0 (lit "x")];
     get_pixmap := Ok pixmap |}.

Definition hello_world : World := world [hello_page] None None.

(** PaddleOCR alone, reporting two lines bottom-up. *)
Definition scan_world : World :=
  world [scanned_page; hello_page; scanned_page]
        (Some (paddle_reports [det_total; det_invoice])) None.

(** EasyOCR alone. *)
Definition fallback_world : World := world [scanned_page] None (Some easy_echo).

Definition blank_text_world : World :=
  world [scanned_page] (Some (paddle_reports [det_blank])) None.

Definition overconfident_world : World :=
  world [scanned_page] (Some (paddle_reports [det_overconfident])) None.

Definition flipped_world : World := world [flipped_page] None None.

(** PaddleOCR is installed and its recognition raises. *)
Definition failing_world : World :=
  world [scanned_page; hello_page] (Some paddle_fails) None.

Definition pdf_path : pystr := lit "report.pdf".
Definition image_path : pystr := lit "scan.png".
Definition en : pystr := lit "en".
Definition fr : pystr := lit "fr".

(** A later state of a process that first ran OCR for French with
    EasyOCR alone. *)
Definition french_state : State :=
  mkState None (Some (easy_echo fr)) [EasyInit fr; EasyRun].

(** The two blocks of the stability example of the specification. *)
Definition twin (n : nat) : Block :=
  mkBlock (of_nat n) (lit "text") (mkBBox 0 10 5 20) (lit "t") 1.

End Demo.


(* ================================================================= *)
(** ** Vocabulary of the further properties *)

(** The truncated vertex [p] lies within the box [bb]. *)
Definition encloses (bb : BBox) (p : Q * Q) : Prop :=
  (bx0 bb <= py_int (fst p) <= bx1 bb)%Z /\
  (by0 bb <= py_int (snd p) <= by1 bb)%Z.

(** A line without line boundary, and a string that neither starts nor
    ends with white space. *)
Definition no_break (s : pystr) : Prop := Forall (fun c => islinebreak c = false) s.

Definition trimmed (s : pystr) : Prop :=
  s <> [] /\ lstrip s = s /\ lstrip (rev s) = rev s.

(** The page that the text layer alone gives, and the pages of a
    document numbered from [page_num]. *)
Definition native_page (page_num : nat) (pg : PdfPage) : Page :=
  {| page := page_num + 1;
     width := py_int (rect_width pg);
     height := py_int (rect_height pg);
     blocks := sort_blocks (native_blocks 0 (get_text_blocks pg)) |}.

Fixpoint native_pages (page_num : nat) (pdf_doc : list PdfPage) : list Page :=
  match pdf_doc with
  | [] => []
  | pg :: rest => native_page page_num pg :: native_pages (S page_num) rest
  end.

(** Lazy singletons: from [s] to [s'] an engine that was built is
    kept, and an engine that was built is not built again. *)
Definition is_paddle_init (c : Call) : bool :=
  match c with PaddleInit _ => true | _ => false end.

Definition is_easy_init (c : Call) : bool :=
  match c with EasyInit _ => true | _ => false end.

Definition singletons_kept (s s' : State) : Prop :=
  (forall e, _paddle_ocr s = Some e -> _paddle_ocr s' = Some e) /\
  (forall r, _easy_ocr s = Some r -> _easy_ocr s' = Some r).

Definition lazy_step (s s' : State) : Prop :=
  exists new,
    calls s' = calls s ++ new /\
    singletons_kept s s' /\
    (_paddle_ocr s <> None -> Forall (fun c => is_paddle_init c = false) new) /\
    (_easy_ocr s <> None -> Forall (fun c => is_easy_init c = false) new).

(** Every run of [m] is a lazy step. *)
Definition lazy {A} (m : M A) : Prop :=
  forall s r s', m s = (r, s') -> lazy_step s s'.

(** An engine is built by a call of its constructor that returns: the
    constructors are [PaddleOCR(lang='en')] and [easyocr.Reader([lang])],
    and a call that raises builds nothing. *)
Definition is_ok {A} (r : Result A) : bool :=
  match r with Ok _ => true | Raise _ => false end.

Definition paddle_built (W : World) (c : Call) : bool :=
  match c with PaddleInit lang => is_ok (PaddleOCR W lang) | _ => false end.

Definition easy_built (W : World) (c : Call) : bool :=
  match c with EasyInit lang => is_ok (easyocr_Reader W [lang]) | _ => false end.

Definition count_calls (f : Call -> bool) (cs : list Call) : nat :=
  List.length (filter f cs).

(** 1 when a singleton that was empty has been set, 0 otherwise. *)
Definition newly_set {E} (before after : option E) : nat :=
  match before, after with
  | None, Some _ => 1
  | _, _ => 0
  end.

(** The constructions that calls with the OCR language [lang] make. *)
Definition constructs (lang : pystr) (c : Call) : Prop :=
  match c with
  | PaddleInit l => l = lit "en"
  | EasyInit l => l = lang
  | _ => True
  end.

(** The engines are built once and shared: between [s] and [s'] the
    singletons are kept, and the engines built by the calls made are
    exactly the ones that fill a singleton that was empty, hence at
    most one of each kind, and none of a kind whose singleton was
    set. *)
Definition shared_step (W : World) (lang : pystr) (s s' : State) : Prop :=
  exists new,
    calls s' = calls s ++ new /\
    singletons_kept s s' /\
    Forall (constructs lang) new /\
    count_calls (paddle_built W) new = newly_set (_paddle_ocr s) (_paddle_ocr s') /\
    count_calls (easy_built W) new = newly_set (_easy_ocr s) (_easy_ocr s').

Definition shared {A} (W : World) (lang : pystr) (m : M A) : Prop :=
  forall s r s', m s = (r, s') -> shared_step W lang s s'.

(** The EasyOCR reader that [_get_easy_ocr lang] delivers in state [s]. *)
Definition easy_ready (W : World) (lang : pystr) (s : State) (r : EasyEngine) : Prop :=
  EASYOCR_AVAILABLE W = true /\
  (_easy_ocr s = Some r \/
   (_easy_ocr s = None /\ easyocr_Reader W [lang] = Ok r)).

(** The detections the blocks of an image are made from, in state [s]:
    the lines of the first entry of PaddleOCR's result, when there is
    at least one, or else the list that EasyOCR's reader returns. *)
Definition engine_returned (W : World) (lang : pystr) (s : State) (img : Image)
    (ds : list Detection) : Prop :=
  (exists e rest,
      paddle_ready W s e /\ e img = Ok (Some ds :: rest) /\ ds <> []) \/
  (exists r, easy_ready W lang s r /\ r img = Ok ds).

(** The blocks [bs] are the detections [ds] in the same order: the
    block at each position is made from the detection at that position
    and is numbered by it, from [ocr1] on. *)
Definition numbered_as_returned (ds : list Detection) (bs : list Block) : Prop :=
  List.length bs = List.length ds /\
  forall k d, nth_error ds k = Some d ->
    exists b, nth_error bs k = Some b /\
              id b = ocr_id (k + 1) /\
              text b = det_text d /\
              confidence b = det_conf d /\
              points_bbox (det_points d) = Ok (bbox b).

(** The calls that deliver an engine: none when it was built before. *)
Definition init_calls {E} (singleton : option E) (c : Call) : list Call :=
  match singleton with Some _ => [] | None => [c] end.

(* ================================================================= *)
(** ** The callers: [cli.py] and [main.py] *)

(** What the callers use besides the processor: identifiers, files,
    paths, JSON and case folding. *)

(** The outcome of writing a file: written in full; not opened, the
    file system being as before; or opened and failed on the way, a
    part of the content being left in the file. *)
Inductive WriteOutcome :=
| Written
| OpenFails (e : Exn)
| WriteFails (e : Exn) (partial : pystr).

Record Host := mkHost {
  (** the value of the [n]-th [uuid.uuid4()] of the process *)
  uuid4 : nat -> N;
  (** what writing this content to this path does *)
  write_outcome : pystr -> pystr -> WriteOutcome;
  (** [output_dir.mkdir(parents=True, exist_ok=True)] *)
  mkdir : pystr -> Result unit;
  (** [sorted([p for p in input_dir.rglob("*.pdf") if p.is_file()])] *)
  sorted_pdfs : pystr -> list pystr;
  (** [dir / name], [Path(name).suffix] and [s.lower()] *)
  path_join : pystr -> pystr -> pystr;
  path_suffix : pystr -> pystr;
  str_lower : pystr -> pystr;
  (** [json.dumps(result, indent=2)], the last step of the entry points *)
  json_dumps : Document -> pystr;
  UPLOAD_DIR : pystr
}.

(** [UUID.hex]: the 32 hexadecimal digits of the 128-bit value. *)
Definition hex_digit (d : N) : N := (if d <? 10 then 48 + d else 87 + d)%N.

Fixpoint hex_digits (n : nat) (v : N) (acc : pystr) : pystr :=
  match n with
  | O => acc
  | S n' => hex_digits n' (v / 16)%N (hex_digit (v mod 16)%N :: acc)
  end.

Definition uuid_hex (v : N) : pystr := hex_digits 32 v [].

Fixpoint str_eqb (a b : pystr) : bool :=
  match a, b with
  | [], [] => true
  | x :: a', y :: b' => (x =? y)%N && str_eqb a' b'
  | _, _ => false
  end.

Fixpoint startswith (s prefix : pystr) : bool :=
  match prefix, s with
  | [], _ => true
  | p :: prefix', c :: s' => (c =? p)%N && startswith s' prefix'
  | _ :: _, [] => false
  end.

(** [s.endswith(suffix)] *)
Definition endswith (s suffix : pystr) : bool := startswith (rev s) (rev suffix).

(** The files, by path. *)
Definition Files := pystr -> option pystr.

Definition file_exists (fs : Files) (p : pystr) : bool :=
  match fs p with Some _ => true | None => false end.

Definition put_file (fs : Files) (p content : pystr) : Files :=
  fun q => if str_eqb q p then Some content else fs q.

Definition remove_file (fs : Files) (p : pystr) : Files :=
  fun q => if str_eqb q p then None else fs q.

(** A line printed by the command line tool. *)
Inductive Line :=
| NoPdfFound (input_dir : pystr)
| FoundPdfs (n : nat)
| Skipping (i n : nat) (name : pystr)
| Processing (i n : nat) (name : pystr)
| Success (input output document_id : pystr) (pages : nat)
| Failure (input : pystr) (error : Exn).

(** The state of a process that runs a caller: the state of the
    processor module, the files, the number of identifiers drawn and
    the two output streams. *)
Record Process := mkProcess {
  ocr : State;
  files : Files;
  drawn : nat;
  stdout : list Line;
  stderr : list Line
}.

Definition FileNotFoundError : Exn := LibraryError 2.

Section Callers.

Variable W : World.
Variable H : Host.

(** [uuid.uuid4().hex] *)
Definition draw_uuid (st : Process) : pystr * Process :=
  (uuid_hex (uuid4 H (drawn st)),
   mkProcess (ocr st) (files st) (S (drawn st)) (stdout st) (stderr st)).

Definition print (l : Line) (st : Process) : Process :=
  mkProcess (ocr st) (files st) (drawn st) (stdout st ++ [l]) (stderr st).

Definition print_err (l : Line) (st : Process) : Process :=
  mkProcess (ocr st) (files st) (drawn st) (stdout st) (stderr st ++ [l]).

(** A call into the processor module. *)
Definition run {A} (m : M A) (st : Process) : Result A * Process :=
  let (r, s') := m (ocr st) in
  (r, mkProcess s' (files st) (drawn st) (stdout st) (stderr st)).

(** [path.write_text(content)], and the writing of an upload. *)
Definition write_file (p content : pystr) (st : Process) : Result unit * Process :=
  match write_outcome H p content with
  | Written =>
      (Ok tt, mkProcess (ocr st) (put_file (files st) p content) (drawn st)
                (stdout st) (stderr st))
  | OpenFails e => (Raise e, st)
  | WriteFails e partial =>
      (Raise e, mkProcess (ocr st) (put_file (files st) p partial) (drawn st)
                  (stdout st) (stderr st))
  end.

(** [path.unlink()] *)
Definition unlink (p : pystr) (st : Process) : Result unit * Process :=
  if file_exists (files st) p then
    (Ok tt, mkProcess (ocr st) (remove_file (files st) p) (drawn st)
              (stdout st) (stderr st))
  else (Raise FileNotFoundError, st).

End Callers.

Module Cli.

Section Cli.

Variable W : World.
Variable H : Host.

(** The output file of a PDF: [output_dir / f"{stem}_{doc_id}.json"]. *)
Definition out_file_of (output_dir pdf_path doc_id : pystr) : pystr :=
  path_join H output_dir
    (path_stem W pdf_path ++ lit "_" ++ doc_id ++ lit ".json").

(** [out_file.exists()].  [Path.exists] answers [False] for a path
    that is not there and passes on every other error of [stat], such
    as a file name that is too long: [exists_error p] is that error,
    if there is one for [p]. *)
Variable exists_error : pystr -> option Exn.

Definition path_exists (p : pystr) (st : Process) : Result bool :=
  match exists_error p with
  | Some e => Raise e
  | None => Ok (file_exists (files st) p)
  end.

(** The body of the loop of [process_folder] for the [i]-th of [n]
    files.  The test of the output file comes before the [try]: its
    exception leaves the loop. *)
Definition process_one (output_dir : pystr) (overwrite verbose : bool)
    (n i : nat) (pdf_path : pystr) (st : Process) : Result unit * Process :=
  let (doc_id, st) := draw_uuid H st in
  let out_file := out_file_of output_dir pdf_path doc_id in
  match path_exists out_file st with
  | Raise e => (Raise e, st)
  | Ok present =>
      if present && negb overwrite then
        (Ok tt, if verbose then print (Skipping i n (path_name W pdf_path)) st else st)
      else
        let st := if verbose then print (Processing i n (path_name W pdf_path)) st
                  else st in
        match run (process_pdf_to_layout_json W pdf_path (Some doc_id) true (lit "en")) st with
        | (Ok doc, st) =>
            match write_file H out_file (json_dumps H doc) st with
            | (Ok _, st) =>
                (Ok tt,
                 print (Success pdf_path out_file doc_id (List.length (pages doc))) st)
            | (Raise e, st) => (Ok tt, print_err (Failure pdf_path e) st)
            end
        | (Raise e, st) => (Ok tt, print_err (Failure pdf_path e) st)
        end
  end.

(** [for i, pdf_path in enumerate(pdfs, 1): ...], from index [i]. *)
Fixpoint process_all (output_dir : pystr) (overwrite verbose : bool)
    (n i : nat) (pdfs : list pystr) (st : Process) : Result unit * Process :=
  match pdfs with
  | [] => (Ok tt, st)
  | pdf_path :: rest =>
      match process_one output_dir overwrite verbose n i pdf_path st with
      | (Ok _, st) => process_all output_dir overwrite verbose n (S i) rest st
      | (Raise e, st) => (Raise e, st)
      end
  end.

Definition process_folder (input_dir output_dir : pystr)
    (overwrite verbose : bool) (st : Process) : Result unit * Process :=
  match mkdir H output_dir with
  | Raise e => (Raise e, st)
  | Ok _ =>
      let pdfs := sorted_pdfs H input_dir in
      match pdfs with
      | [] => (Ok tt, print (NoPdfFound input_dir) st)
      | _ :: _ =>
          let st := print (FoundPdfs (List.length pdfs)) st in
          process_all output_dir overwrite verbose (List.length pdfs) 1 pdfs st
      end
  end.

End Cli.

End Cli.

Module Api.

(** What a handler gives back: the JSON response with its ["data"], or
    the [HTTPException] with its status code. *)
Inductive Reply :=
| JSONResponse (data : pystr)
| HTTPException (status_code : nat).

Record UploadFile := mkUpload {
  upload_filename : pystr;
  upload_content : pystr
}.

Definition allowed_extensions : list pystr :=
  [lit ".jpg"; lit ".jpeg"; lit ".png"; lit ".bmp"; lit ".tiff"; lit ".tif"].

Section Api.

Variable W : World.
Variable H : Host.

(** The handler [except Exception: ... if file_path.exists():
    file_path.unlink(); raise HTTPException(500)]. *)
Definition cleanup_and_fail (file_path : pystr) (st : Process) : Reply * Process :=
  if file_exists (files st) file_path then
    match unlink file_path st with
    | (Ok _, st) => (HTTPException 500, st)
    | (Raise _, st) => (HTTPException 500, st)
    end
  else (HTTPException 500, st).

(** [POST /process/pdf] *)
Definition process_pdf (file : UploadFile) (enable_ocr : bool) (ocr_lang : pystr)
    (st : Process) : Reply * Process :=
  if negb (endswith (str_lower H (upload_filename file)) (lit ".pdf")) then
    (HTTPException 400, st)
  else
    let (doc_id, st) := draw_uuid H st in
    let file_path := path_join H (UPLOAD_DIR H) (doc_id ++ lit ".pdf") in
    match write_file H file_path (upload_content file) st with
    | (Raise _, st) => cleanup_and_fail file_path st
    | (Ok _, st) =>
        match run (process_pdf_to_layout_json W file_path (Some doc_id)
                     enable_ocr ocr_lang) st with
        | (Raise _, st) => cleanup_and_fail file_path st
        | (Ok doc, st) =>
            match unlink file_path st with
            | (Raise _, st) => cleanup_and_fail file_path st
            | (Ok _, st) => (JSONResponse (json_dumps H doc), st)
            end
        end
    end.

(** [POST /process/image] *)
Definition process_image (file : UploadFile) (ocr_lang : pystr)
    (st : Process) : Reply * Process :=
  if negb (existsb (endswith (str_lower H (upload_filename file)))
             allowed_extensions) then
    (HTTPException 400, st)
  else
    let (doc_id, st) := draw_uuid H st in
    let file_ext := path_suffix H (upload_filename file) in
    let file_path := path_join H (UPLOAD_DIR H) (doc_id ++ file_ext) in
    match write_file H file_path (upload_content file) st with
    | (Raise _, st) => cleanup_and_fail file_path st
    | (Ok _, st) =>
        match run (process_image_to_layout_json W file_path (Some doc_id)
                     ocr_lang) st with
        | (Raise _, st) => cleanup_and_fail file_path st
        | (Ok doc, st) =>
            match unlink file_path st with
            | (Raise _, st) => cleanup_and_fail file_path st
            | (Ok _, st) => (JSONResponse (json_dumps H doc), st)
            end
        end
    end.

End Api.

End Api.

(** Counting the lines of a batch. *)
Definition is_success (l : Line) : bool :=
  match l with Success _ _ _ _ => true | _ => false end.


Definition successes (out : list Line) : nat := List.length (filter is_success out).



(** A path that the batch may write: the output file of one of the
    PDFs for one of the identifiers drawn from [d0] on. *)
Definition batch_output (W : World) (H : Host) (output_dir : pystr)
    (pdfs : list pystr) (d0 k : nat) (q : pystr) : Prop :=
  exists pdf_path j,
    In pdf_path pdfs /\ d0 <= j < d0 + k /\
    q = Cli.out_file_of W H output_dir pdf_path (uuid_hex (uuid4 H j)).

(** A success line tells the truth in the state [st]: the output file
    it names is the output file of its input for its identifier and
    exists, the identifier has 32 digits, and the number of pages is
    that of the document as PyMuPDF opens it. *)
Definition sound_line (W : World) (H : Host) (output_dir : pystr)
    (st : Process) (l : Line) : Prop :=
  match l with
  | Success input output doc_id n =>
      output = Cli.out_file_of W H output_dir input doc_id /\
      file_exists (files st) output = true /\
      List.length doc_id = 32 /\
      exists pdf, fitz_open W input = Ok pdf /\ n = List.length pdf
  | _ => True
  end.

(** What a step of the batch keeps: files other than the possible
    outputs, the files that exist, the engines, and the truth of the
    success lines. *)
Definition report_step (W : World) (H : Host) (output_dir : pystr)
    (may_write : pystr -> Prop) (st st' : Process) : Prop :=
  (forall q, ~ may_write q -> files st' q = files st q) /\
  (forall q, file_exists (files st) q = true -> file_exists (files st') q = true) /\
  lazy_step (ocr st) (ocr st') /\
  shared_step W (lit "en") (ocr st) (ocr st') /\
  (Forall (sound_line W H output_dir st) (stdout st) ->
   Forall (sound_line W H output_dir st') (stdout st')).

Module DemoHost.

(** Lower case of the letters A to Z, which is what [str.lower] does
    to a name made of ASCII characters. *)
Definition ascii_lower (s : pystr) : pystr :=
  map (fun c => if ((65 <=? c) && (c <=? 90))%N then (c + 32)%N else c) s.

(** A host whose files can all be written, with two PDFs to process,
    the second of which PyMuPDF cannot open. *)
Definition host : Host :=
  {| uuid4 := fun n => (N.of_nat n + 4096)%N;
     write_outcome := fun _ _ => Written;
     mkdir := fun _ => Ok tt;
     sorted_pdfs := fun _ => [lit "in/a.pdf"; lit "in/b.pdf"];
     path_join := fun d n => d ++ lit "/" ++ n;
     path_suffix := fun n =>
       match Demo.split_last_dot n with
       | Some (_ :: _, c :: b) => lit "." ++ c :: b
       | _ => []
       end;
     str_lower := ascii_lower;
     json_dumps := fun doc => document_id doc ++ lit ":" ++ of_nat (num_pages doc);
     UPLOAD_DIR := lit "./uploads" |}.

(** A host that fails in the middle of every write. *)
Definition failing_disk : Host :=
  {| uuid4 := uuid4 host;
     write_outcome := fun _ content =>
       WriteFails (LibraryError 28) (firstn 3 content);
     mkdir := mkdir host;
     sorted_pdfs := sorted_pdfs host;
     path_join := path_join host;
     path_suffix := path_suffix host;
     str_lower := str_lower host;
     json_dumps := json_dumps host;
     UPLOAD_DIR := UPLOAD_DIR host |}.

Definition world : World :=
  {| PYMUPDF_AVAILABLE := true;
     PADDLE_AVAILABLE := false;
     EASYOCR_AVAILABLE := false;
     fitz_open := fun p =>
       if str_eqb p (lit "in/b.pdf") then Raise (LibraryError 3)
       else Ok [Demo.hello_page; Demo.scanned_page];
     PaddleOCR := fun _ => Raise (LibraryError 0);
     easyocr_Reader := fun _ => Raise (LibraryError 0);
     cv2_imread := fun _ => Some Demo.image;
     cv2_cvtColor := fun img _ => Ok img;
     path_stem := fun p => Demo.bare_stem (skipn 3 p);
     path_name := fun p => skipn 3 p |}.

(** Two PDFs of two scanned pages each, and PaddleOCR to read them. *)
Definition scans : World :=
  {| PYMUPDF_AVAILABLE := true;
     PADDLE_AVAILABLE := true;
     EASYOCR_AVAILABLE := false;
     fitz_open := fun _ => Ok [Demo.scanned_page; Demo.scanned_page];
     PaddleOCR := fun _ => Ok (Demo.paddle_reports [Demo.det_total; Demo.det_invoice]);
     easyocr_Reader := fun _ => Raise (LibraryError 0);
     cv2_imread := fun _ => Some Demo.image;
     cv2_cvtColor := fun img _ => Ok img;
     path_stem := fun p => Demo.bare_stem (skipn 3 p);
     path_name := fun p => skipn 3 p |}.

(** Every path can be tested. *)
Definition exists_ok : pystr -> option Exn := fun _ => None.



Definition start : Process :=
  mkProcess initial_state (fun _ => None) 0 [] [].

Definition upload (name : string) : Api.UploadFile :=
  Api.mkUpload (lit name) (lit "%PDF-1.7 ...").

End DemoHost.

(** Where the handlers store the upload of a request that arrives in
    the state [st]. *)
Definition pdf_upload_path (H : Host) (st : Process) : pystr :=
  path_join H (UPLOAD_DIR H) (uuid_hex (uuid4 H (drawn st)) ++ lit ".pdf").

Definition image_upload_path (H : Host) (file : Api.UploadFile) (st : Process) : pystr :=
  path_join H (UPLOAD_DIR H)
    (uuid_hex (uuid4 H (drawn st)) ++ path_suffix H (Api.upload_filename file)).

(** The extension checks of the two handlers. *)
Definition accepts_pdf (H : Host) (file : Api.UploadFile) : bool :=
  endswith (str_lower H (Api.upload_filename file)) (lit ".pdf").

Definition accepts_image (H : Host) (file : Api.UploadFile) : bool :=
  existsb (endswith (str_lower H (Api.upload_filename file))) Api.allowed_extensions.

(** The files are as before the request, the upload being gone. *)
Definition upload_gone (p : pystr) (st st' : Process) : Prop :=
  files st' p = None /\ forall q, q <> p -> files st' q = files st q.

(* ================================================================= *)
(** * Properties *)

(** ** Strings *)

Lemma lstrip_head (s : pystr) (c : N) (rest : pystr) :
  lstrip s = c :: rest -> isspace c = false.
Proof.
  induction s as [|a s IH]; simpl; [discriminate|].
  destruct (isspace a) eqn:Ha; [exact IH|].
  intros E; injection E as <- _. exact Ha.
Qed.

Lemma blank_app (s t : pystr) : blank (s ++ t) = blank s && blank t.
Proof. apply forallb_app. Qed.

(** What [strip] leaves is empty or holds a character that is not
    white space. *)
Lemma strip_truthy_not_blank (s : pystr) :
  truthy (strip s) = true -> blank (strip s) = false.
Proof.
  unfold strip, rstrip.
  destruct (lstrip (rev (lstrip s))) as [|c rest] eqn:E; simpl; [discriminate|].
  intros _. rewrite blank_app. simpl.
  rewrite (lstrip_head _ E). apply andb_false_iff. right. reflexivity.
Qed.

Lemma truthy_not_nil (s : pystr) : truthy s = true <-> s <> [].
Proof. destruct s; simpl; split; congruence. Qed.


(** Filtering on the stripped line and then stripping is stripping and
    then filtering. *)
Lemma map_filter_comm {A B} (f : A -> B) (p : B -> bool) (l : list A) :
  map f (filter (fun x => p (f x)) l) = filter p (map f l).
Proof.
  induction l as [|a l IH]; simpl; [reflexivity|].
  destruct (p (f a)); simpl; rewrite IH; reflexivity.
Qed.

Lemma clean_lines_spec (t : pystr) :
  clean_lines t = filter truthy (map strip (splitlines t)).
Proof. unfold clean_lines. apply map_filter_comm. Qed.

Lemma clean_lines_not_blank (t : pystr) :
  Forall (fun ln => blank ln = false) (clean_lines t).
Proof.
  rewrite clean_lines_spec. apply Forall_forall. intros ln Hin.
  apply filter_In in Hin. destruct Hin as [Hin Ht].
  apply in_map_iff in Hin. destruct Hin as [l [<- _]].
  apply strip_truthy_not_blank. exact Ht.
Qed.

Lemma join_cons_not_blank (sep p : pystr) (more : list pystr) :
  blank p = false -> blank (join sep (p :: more)) = false.
Proof.
  intros Hp. destruct more as [|q more]; simpl; [exact Hp|].
  rewrite blank_app, Hp. reflexivity.
Qed.


(** ** Numbers *)

Lemma py_int_mono (x y : Q) : (x <= y)%Q -> (py_int x <= py_int y)%Z.
Proof.
  unfold Qle, py_int. destruct x as [a b], y as [c d]. simpl. intros H.
  rewrite <- (Z.quot_mul_cancel_r a (Zpos b) (Zpos d)) by lia.
  rewrite <- (Z.quot_mul_cancel_r c (Zpos d) (Zpos b)) by lia.
  rewrite (Z.mul_comm (Zpos d) (Zpos b)).
  apply Z.quot_le_mono; lia.
Qed.

Lemma Qlt_bool_false (a b : Q) : Qlt_bool a b = false -> (b <= a)%Q.
Proof.
  unfold Qlt_bool. intros H. apply negb_false_iff in H.
  apply Qle_bool_iff. exact H.
Qed.

Lemma Qlt_bool_true (a b : Q) : Qlt_bool a b = true -> (a <= b)%Q.
Proof.
  unfold Qlt_bool. intros H. apply negb_true_iff in H.
  destruct (Qlt_le_dec a b) as [L|L]; [apply Qlt_le_weak; exact L|].
  apply Qle_bool_iff in L. congruence.
Qed.

Lemma fold_min_le (rest : list Q) (x : Q) :
  (fold_left (fun m y => if Qlt_bool y m then y else m) rest x <= x)%Q.
Proof.
  revert x. induction rest as [|y rest IH]; intros x; simpl; [apply Qle_refl|].
  destruct (Qlt_bool y x) eqn:E; [|apply IH].
  eapply Qle_trans; [apply IH|]. apply Qlt_bool_true. exact E.
Qed.

Lemma fold_max_ge (rest : list Q) (x : Q) :
  (x <= fold_left (fun m y => if Qlt_bool m y then y else m) rest x)%Q.
Proof.
  revert x. induction rest as [|y rest IH]; intros x; simpl; [apply Qle_refl|].
  destruct (Qlt_bool x y) eqn:E; [|apply IH].
  eapply Qle_trans; [|apply IH]. apply Qlt_bool_true. exact E.
Qed.

Lemma py_min_le_max (xs : list Q) (lo hi : Q) :
  py_min xs = Some lo -> py_max xs = Some hi -> (lo <= hi)%Q.
Proof.
  destruct xs as [|x rest]; simpl; [discriminate|].
  intros Hlo Hhi. injection Hlo as <-. injection Hhi as <-.
  eapply Qle_trans; [apply fold_min_le | apply fold_max_ge].
Qed.

(** ** Blocks *)

Lemma points_bbox_ordered (pts : list (Q * Q)) (bb : BBox) :
  points_bbox pts = Ok bb -> (bx0 bb <= bx1 bb)%Z /\ (by0 bb <= by1 bb)%Z.
Proof.
  unfold points_bbox.
  destruct (py_min (map fst pts)) as [x0|] eqn:Ex0; [|discriminate].
  destruct (py_min (map snd pts)) as [y0|] eqn:Ey0; [|discriminate].
  destruct (py_max (map fst pts)) as [x1|] eqn:Ex1; [|discriminate].
  destruct (py_max (map snd pts)) as [y1|] eqn:Ey1; [|discriminate].
  intros E. injection E as <-. simpl. split; apply py_int_mono.
  - exact (py_min_le_max _ Ex0 Ex1).
  - exact (py_min_le_max _ Ey0 Ey1).
Qed.

Lemma detection_block_inv (i : nat) (d : Detection) (b : Block) :
  detection_block i d = Ok b ->
  id b = lit "ocr" ++ of_nat (i + 1) /\ role b = lit "text" /\
  text b = det_text d /\ confidence b = det_conf d /\ bbox_ordered b.
Proof.
  unfold detection_block.
  destruct (points_bbox (det_points d)) as [bb|e] eqn:E; [|discriminate].
  intros H. injection H as <-. simpl.
  repeat split; try reflexivity; apply (points_bbox_ordered _ E).
Qed.

Lemma native_block_inv (i : nat) (blk : RawBlock) (b : Block) :
  native_block i blk = Some b ->
  exists x0 y0 x1 y1 t,
    blk = Fragment x0 y0 x1 y1 t /\
    id b = lit "b" ++ of_nat (i + 1) /\ role b = lit "text" /\
    bbox b = mkBBox (py_int x0) (py_int y0) (py_int x1) (py_int y1) /\
    text b = spec_clean_text t /\ text_not_blank b /\ confidence b = 1%Q.
Proof.
  destruct blk as [|x0 y0 x1 y1 t]; unfold native_block; [discriminate|].
  pose proof (clean_lines_not_blank t) as Hnb.
  intros E. exists x0, y0, x1, y1, t.
  unfold spec_clean_text. rewrite <- (clean_lines_spec t).
  destruct (clean_lines t) as [|ln lns]; [discriminate|].
  injection E as <-.
  repeat split; try reflexivity.
  unfold text_not_blank. cbn [text].
  apply (join_cons_not_blank NL ln lns). inversion Hnb; assumption.
Qed.

(** ** Reading order *)

Lemma key_leb_refl (k : Z * Z) : key_leb k k = true.
Proof. unfold key_leb. destruct k as [a b]; simpl. lia. Qed.

Lemma key_leb_total (k1 k2 : Z * Z) : key_leb k1 k2 = false -> key_leb k2 k1 = true.
Proof. unfold key_leb. destruct k1, k2; simpl. lia. Qed.

Lemma key_leb_trans (k1 k2 k3 : Z * Z) :
  key_leb k1 k2 = true -> key_leb k2 k3 = true -> key_leb k1 k3 = true.
Proof. unfold key_leb. destruct k1, k2, k3; simpl. lia. Qed.

Lemma key_leb_antisym (k1 k2 : Z * Z) :
  key_leb k1 k2 = true -> key_leb k2 k1 = true -> k1 = k2.
Proof.
  unfold key_leb. destruct k1 as [a b], k2 as [c d]; simpl. intros H1 H2.
  assert (a = c /\ b = d) as [-> ->] by lia. reflexivity.
Qed.

Lemma key_eqb_eq (k1 k2 : Z * Z) : key_eqb k1 k2 = true <-> k1 = k2.
Proof.
  unfold key_eqb. destruct k1 as [a b], k2 as [c d]; simpl. split.
  - intros H. assert (a = c /\ b = d) as [-> ->] by lia. reflexivity.
  - intros E. injection E as -> ->. lia.
Qed.

Lemma insert_block_perm (b : Block) (l : list Block) :
  Permutation (insert_block b l) (b :: l).
Proof.
  induction l as [|c l IH]; simpl; [apply Permutation_refl|].
  destruct (key_leb (sort_key b) (sort_key c)); [apply Permutation_refl|].
  eapply perm_trans; [apply perm_skip, IH | apply perm_swap].
Qed.

Lemma sort_blocks_perm (l : list Block) : Permutation (sort_blocks l) l.
Proof.
  induction l as [|b l IH]; simpl; [constructor|].
  eapply perm_trans; [apply insert_block_perm | apply perm_skip, IH].
Qed.

Lemma insert_block_sorted (b : Block) (l : list Block) :
  StronglySorted key_le l -> StronglySorted key_le (insert_block b l).
Proof.
  induction 1 as [|c l Hs IH Hall]; simpl.
  - constructor; constructor.
  - destruct (key_leb (sort_key b) (sort_key c)) eqn:E.
    + constructor; [constructor; assumption|].
      constructor; [exact E|].
      eapply Forall_impl; [|exact Hall].
      intros d Hd. unfold key_le in *. eapply key_leb_trans; eassumption.
    + constructor; [exact IH|].
      eapply Permutation_Forall; [apply Permutation_sym, insert_block_perm|].
      constructor; [|exact Hall].
      apply key_leb_total. exact E.
Qed.

Lemma sort_blocks_sorted (l : list Block) : StronglySorted key_le (sort_blocks l).
Proof.
  induction l as [|b l IH]; simpl; [constructor|].
  apply insert_block_sorted. exact IH.
Qed.

Lemma with_key_insert (k : Z * Z) (b : Block) (l : list Block) :
  with_key k (insert_block b l) = with_key k (b :: l).
Proof.
  unfold with_key. induction l as [|c l IH]; [reflexivity|].
  cbn [insert_block].
  destruct (key_leb (sort_key b) (sort_key c)) eqn:E; [reflexivity|].
  cbn [filter] in *. rewrite IH.
  destruct (key_eqb k (sort_key b)) eqn:Eb; [|reflexivity].
  destruct (key_eqb k (sort_key c)) eqn:Ec; [|reflexivity].
  apply key_eqb_eq in Eb. apply key_eqb_eq in Ec.
  rewrite <- Eb, <- Ec, key_leb_refl in E. discriminate.
Qed.

(** Stability: blocks of equal key keep the order they had. *)
Lemma sort_blocks_stable (k : Z * Z) (l : list Block) :
  with_key k (sort_blocks l) = with_key k l.
Proof.
  induction l as [|b l IH]; [reflexivity|].
  cbn [sort_blocks]. rewrite with_key_insert.
  unfold with_key in *. cbn [filter]. rewrite IH. reflexivity.
Qed.

(** A sorted list is determined by its blocks of each key: a list that
    is sorted and stable with respect to [l] is [sort_blocks l],
    whatever the sorting algorithm. *)
Lemma sorted_with_key_unique (l1 l2 : list Block) :
  StronglySorted key_le l1 -> StronglySorted key_le l2 ->
  (forall k, with_key k l1 = with_key k l2) -> l1 = l2.
Proof.
  intros H1. revert l2. induction H1 as [|a t1 Hs1 IH Ha]; intros l2 H2 Hk.
  - destruct l2 as [|b t2]; [reflexivity|].
    specialize (Hk (sort_key b)). unfold with_key in Hk. cbn [filter] in Hk.
    rewrite (proj2 (key_eqb_eq _ _) eq_refl) in Hk. discriminate.
  - destruct H2 as [|b t2 Hs2 Hb].
    + specialize (Hk (sort_key a)). unfold with_key in Hk. cbn [filter] in Hk.
      rewrite (proj2 (key_eqb_eq _ _) eq_refl) in Hk. discriminate.
    + assert (Hab : key_le a b).
      { pose proof (Hk (sort_key b)) as E. unfold with_key in E.
        cbn [filter] in E. rewrite (proj2 (key_eqb_eq (sort_key b) _) eq_refl) in E.
        destruct (key_eqb (sort_key b) (sort_key a)) eqn:Eba.
        - apply key_eqb_eq in Eba. unfold key_le. rewrite Eba. apply key_leb_refl.
        - assert (Hin : In b (filter (fun c => key_eqb (sort_key b) (sort_key c)) t1)).
          { rewrite E. left. reflexivity. }
          apply filter_In in Hin. destruct Hin as [Hin _].
          rewrite Forall_forall in Ha. apply Ha. exact Hin. }
      assert (Hba : key_le b a).
      { pose proof (Hk (sort_key a)) as E. unfold with_key in E.
        cbn [filter] in E. rewrite (proj2 (key_eqb_eq (sort_key a) _) eq_refl) in E.
        destruct (key_eqb (sort_key a) (sort_key b)) eqn:Eab.
        - apply key_eqb_eq in Eab. unfold key_le. rewrite Eab. apply key_leb_refl.
        - assert (Hin : In a (filter (fun c => key_eqb (sort_key a) (sort_key c)) t2)).
          { rewrite <- E. left. reflexivity. }
          apply filter_In in Hin. destruct Hin as [Hin _].
          rewrite Forall_forall in Hb. apply Hb. exact Hin. }
      pose proof (key_leb_antisym _ _ Hab Hba) as Ekey.
      assert (a = b) as <-.
      { pose proof (Hk (sort_key a)) as E. unfold with_key in E.
        cbn [filter] in E. rewrite <- Ekey in E.
        rewrite (proj2 (key_eqb_eq (sort_key a) _) eq_refl) in E.
        injection E as E _. exact E. }
      f_equal. apply IH; [exact Hs2|].
      intros k. specialize (Hk k). unfold with_key in *. cbn [filter] in Hk.
      destruct (key_eqb k (sort_key a)); [injection Hk as Hk|]; exact Hk.
Qed.

Lemma stable_sort_unique (l out : list Block) :
  StronglySorted key_le out ->
  (forall k, with_key k out = with_key k l) ->
  out = sort_blocks l.
Proof.
  intros Hs Hk. apply sorted_with_key_unique; [exact Hs | apply sort_blocks_sorted|].
  intros k. rewrite Hk. symmetry. apply sort_blocks_stable.
Qed.

(** ** Block ids *)

Lemma lit_inj (s1 s2 : string) : lit s1 = lit s2 -> s1 = s2.
Proof.
  unfold lit. intros H.
  rewrite <- (string_of_list_ascii_of_string s1), <- (string_of_list_ascii_of_string s2).
  f_equal. revert H. generalize (list_ascii_of_string s1), (list_ascii_of_string s2).
  induction l as [|a l IH]; intros [|b l'] H; simpl in H; try discriminate; [reflexivity|].
  injection H as Hab Hl. f_equal; [|apply IH; exact Hl].
  rewrite <- (ascii_N_embedding a), <- (ascii_N_embedding b), Hab. reflexivity.
Qed.

Lemma of_nat_inj (n m : nat) : of_nat n = of_nat m -> n = m.
Proof.
  unfold of_nat. intros H. apply lit_inj in H.
  apply Unsigned.to_uint_inj.
  pose proof (NilEmpty.usu (Nat.to_uint n)) as Hn.
  rewrite H, NilEmpty.usu in Hn. injection Hn as Hn. symmetry. exact Hn.
Qed.

Lemma native_id_inj (n m : nat) : native_id n = native_id m -> n = m.
Proof. unfold native_id. intros H. apply app_inv_head in H. apply of_nat_inj, H. Qed.

Lemma ocr_id_inj (n m : nat) : ocr_id n = ocr_id m -> n = m.
Proof. unfold ocr_id. intros H. apply app_inv_head in H. apply of_nat_inj, H. Qed.

Lemma NoDup_map_inj {A B} (f : A -> B) (l : list A) :
  (forall x y, f x = f y -> x = y) -> NoDup l -> NoDup (map f l).
Proof.
  intros Hf. induction 1 as [|a l Hnin Hnd IH]; simpl; constructor; [|exact IH].
  intros Hin. apply in_map_iff in Hin. destruct Hin as [x [Hx Hin]].
  apply Hf in Hx. subst x. contradiction.
Qed.

Lemma StronglySorted_lt_NoDup (ns : list nat) : StronglySorted lt ns -> NoDup ns.
Proof.
  induction 1 as [|n ns Hs IH Hall]; constructor; [|exact IH].
  intros Hin. rewrite Forall_forall in Hall. specialize (Hall n Hin). lia.
Qed.

(** The ids of the native blocks are [b<n>] for increasing [n], [n]
    being the position of the fragment among the raw blocks. *)
Lemma native_blocks_ids (i : nat) (raw : list RawBlock) :
  exists ns, map id (native_blocks i raw) = map native_id ns /\
             StronglySorted lt ns /\ Forall (fun n => (i < n)%nat) ns.
Proof.
  revert i. induction raw as [|blk raw IH]; intros i; simpl.
  - exists []. repeat split; constructor.
  - destruct (IH (S i)) as [ns [Hids [Hs Hgt]]].
    destruct (native_block i blk) as [b|] eqn:E.
    + destruct (native_block_inv _ _ E) as [x0 [y0 [x1 [y1 [t [_ [Hid _]]]]]]].
      exists ((i + 1) :: ns). simpl. rewrite Hid, Hids. repeat split.
      * constructor; [exact Hs|]. eapply Forall_impl; [|exact Hgt]. intros; simpl in *; lia.
      * constructor; [lia|]. eapply Forall_impl; [|exact Hgt]. intros; simpl in *; lia.
    + exists ns. repeat split; try assumption.
      eapply Forall_impl; [|exact Hgt]. intros; simpl in *; lia.
Qed.

Lemma native_blocks_source (F : RawBlock -> Prop) (i : nat) (raw : list RawBlock) :
  Forall F raw -> Forall (from_native F) (native_blocks i raw).
Proof.
  intros HF. revert i. induction HF as [|blk raw Hblk HF IH]; intros i; simpl; [constructor|].
  destruct (native_block i blk) as [b|] eqn:E; [|apply IH].
  constructor; [|apply IH]. exists i, blk. split; assumption.
Qed.

Lemma detection_blocks_cons (i : nat) (d : Detection) (ds : list Detection)
    (bs : list Block) :
  detection_blocks i (d :: ds) = Ok bs ->
  exists b bs', bs = b :: bs' /\ detection_block i d = Ok b /\
                detection_blocks (S i) ds = Ok bs'.
Proof.
  simpl. destruct (detection_block i d) as [b|e]; [|discriminate].
  destruct (detection_blocks (S i) ds) as [bs'|e]; [|discriminate].
  intros H. injection H as <-. exists b, bs'. repeat split.
Qed.

(** The OCR blocks are numbered consecutively, in the order of the
    detections, and carry their text and score. *)
Lemma detection_blocks_inv (i : nat) (ds : list Detection) (bs : list Block) :
  detection_blocks i ds = Ok bs ->
  map id bs = map ocr_id (seq (i + 1) (List.length bs)) /\
  map text bs = map det_text ds /\
  map confidence bs = map det_conf ds /\
  Forall bbox_ordered bs.
Proof.
  revert i bs. induction ds as [|d ds IH]; intros i bs H.
  - simpl in H. injection H as <-. repeat split; constructor.
  - apply detection_blocks_cons in H.
    destruct H as [b [bs' [-> [Hb Hbs]]]].
    destruct (IH _ _ Hbs) as [Hid [Ht [Hc Ho]]].
    destruct (detection_block_inv _ _ Hb) as [Hid1 [_ [Ht1 [Hc1 Ho1]]]].
    simpl. rewrite Hid, Ht, Hc, Ht1, Hc1. repeat split; try reflexivity.
    + rewrite Hid1. reflexivity.
    + constructor; assumption.
Qed.

Lemma detection_blocks_source (P : Detection -> Prop) (i : nat)
    (ds : list Detection) (bs : list Block) :
  Forall P ds -> detection_blocks i ds = Ok bs -> Forall (from_ocr P) bs.
Proof.
  intros HP. revert i bs. induction HP as [|d ds Hd HP IH]; intros i bs H.
  - simpl in H. injection H as <-. constructor.
  - apply detection_blocks_cons in H.
    destruct H as [b [bs' [-> [Hb Hbs]]]].
    constructor; [exists i, d; split; assumption | eapply IH; exact Hbs].
Qed.

Lemma detection_blocks_length (i : nat) (ds : list Detection) (bs : list Block) :
  detection_blocks i ds = Ok bs -> List.length bs = List.length ds.
Proof.
  intros H. apply detection_blocks_inv in H. destruct H as [_ [H _]].
  rewrite <- (length_map text), H, length_map. reflexivity.
Qed.

Lemma native_ids_NoDup (i : nat) (raw : list RawBlock) :
  NoDup (map id (native_blocks i raw)).
Proof.
  destruct (native_blocks_ids i raw) as [ns [-> [Hs _]]].
  apply NoDup_map_inj; [exact native_id_inj | apply StronglySorted_lt_NoDup, Hs].
Qed.

Lemma ocr_ids_NoDup (i : nat) (ds : list Detection) (bs : list Block) :
  detection_blocks i ds = Ok bs -> NoDup (map id bs).
Proof.
  intros H. apply detection_blocks_inv in H. destruct H as [-> _].
  apply NoDup_map_inj; [exact ocr_id_inj | apply seq_NoDup].
Qed.

(** ** The engines keep their contract *)

Ltac unfold_monad :=
  unfold bind, ret, lift, call, raise, try_except, set_paddle, set_easy in *.

Ltac pair_inv H := injection H as ? ?; subst.

Ltac split4 := refine (conj _ (conj _ (conj _ _))).

Section Contract.

Variable P : Detection -> Prop.
Variable W : World.

Lemma get_paddle_sat (s s' : State) (r : Result (option PaddleEngine)) :
  engines_sat P W s -> _get_paddle_ocr W s = (r, s') ->
  engines_sat P W s' /\ forall e, r = Ok (Some e) -> paddle_sat P e.
Proof.
  intros Hs. pose proof Hs as [Hp [Hpc [He Hec]]].
  unfold _get_paddle_ocr. unfold_monad.
  destruct (_paddle_ocr s) as [e0|] eqn:E0.
  - intros H. pair_inv H. split; [exact Hs|].
    intros e E. injection E as <-. apply Hp. reflexivity.
  - destruct (PADDLE_AVAILABLE W).
    + destruct (PaddleOCR W (lit "en")) as [e1|x] eqn:E1; intros H; pair_inv H.
      * split.
        -- split4; simpl; try assumption.
           intros e E. injection E as <-. eapply Hpc, E1.
        -- intros e E. injection E as <-. eapply Hpc, E1.
      * split; [|discriminate].
        split4; simpl; assumption.
    + intros H. pair_inv H. split; [exact Hs | discriminate].
Qed.

Lemma get_easy_sat (lang : pystr) (s s' : State) (r : Result (option EasyEngine)) :
  engines_sat P W s -> _get_easy_ocr W lang s = (r, s') ->
  engines_sat P W s' /\ forall e, r = Ok (Some e) -> easy_sat P e.
Proof.
  intros Hs. pose proof Hs as [Hp [Hpc [He Hec]]].
  unfold _get_easy_ocr. unfold_monad.
  destruct (_easy_ocr s) as [e0|] eqn:E0.
  - intros H. pair_inv H. split; [exact Hs|].
    intros e E. injection E as <-. apply He. reflexivity.
  - destruct (EASYOCR_AVAILABLE W).
    + destruct (easyocr_Reader W [lang]) as [e1|x] eqn:E1; intros H; pair_inv H.
      * split.
        -- split4; simpl; try assumption.
           intros e E. injection E as <-. eapply Hec, E1.
        -- intros e E. injection E as <-. eapply Hec, E1.
      * split; [|discriminate].
        split4; simpl; assumption.
    + intros H. pair_inv H. split; [exact Hs | discriminate].
Qed.

Lemma engines_sat_calls (s : State) (c : Call) :
  engines_sat P W s ->
  engines_sat P W (mkState (_paddle_ocr s) (_easy_ocr s) (calls s ++ [c])).
Proof. intros H. exact H. Qed.

Lemma ocr_list_nil : ocr_list P [].
Proof. exists []. split; [constructor | reflexivity]. Qed.

Lemma ocr_page_paddle_sat (img : Image) (s s' : State)
    (r : Result (option (list Block))) :
  engines_sat P W s -> ocr_page_paddle W img s = (r, s') ->
  engines_sat P W s' /\ forall bs, r = Ok (Some bs) -> ocr_list P bs /\ bs <> [].
Proof.
  intros Hs. unfold ocr_page_paddle.
  destruct (PADDLE_AVAILABLE W) eqn:Av.
  - unfold bind at 1.
    destruct (_get_paddle_ocr W s) as [r0 s0] eqn:G.
    destruct (get_paddle_sat Hs G) as [Hs0 Hr0].
    destruct r0 as [[engine|]|x].
    + specialize (Hr0 engine eq_refl). unfold_monad.
      destruct (engine img) as [result|x] eqn:R.
      * destruct result as [|[[|d ds]|] rest].
        -- intros H; pair_inv H. split; [exact Hs0 | discriminate].
        -- intros H; pair_inv H. split; [exact Hs0 | discriminate].
        -- destruct (detection_blocks 0 (d :: ds)) as [bs0|x] eqn:D;
             intros H; pair_inv H; (split; [exact Hs0|]); [|discriminate].
           intros bs E. injection E as <-. split.
           ++ exists (d :: ds). split; [eapply Hr0, R | exact D].
           ++ apply detection_blocks_cons in D.
              destruct D as [b [bs' [-> _]]]. discriminate.
        -- intros H; pair_inv H. split; [exact Hs0 | discriminate].
      * intros H; pair_inv H. split; [exact Hs0 | discriminate].
    + unfold_monad. intros H; pair_inv H. split; [exact Hs0 | discriminate].
    + intros H; pair_inv H. split; [exact Hs0 | discriminate].
  - unfold_monad. intros H; pair_inv H. split; [exact Hs | discriminate].
Qed.

Lemma ocr_page_easy_sat (img : Image) (lang : pystr) (s s' : State)
    (r : Result (list Block)) :
  engines_sat P W s -> ocr_page_easy W img lang s = (r, s') ->
  engines_sat P W s' /\ forall bs, r = Ok bs -> ocr_list P bs.
Proof.
  intros Hs. unfold ocr_page_easy.
  destruct (EASYOCR_AVAILABLE W) eqn:Av.
  - unfold bind at 1.
    destruct (_get_easy_ocr W lang s) as [r0 s0] eqn:G.
    destruct (get_easy_sat _ Hs G) as [Hs0 Hr0].
    destruct r0 as [[reader|]|x].
    + specialize (Hr0 reader eq_refl). unfold_monad.
      destruct (reader img) as [result|x] eqn:R.
      * intros H; pair_inv H. split; [exact Hs0|].
        intros bs E. exists result. split; [eapply Hr0, R | exact E].
      * intros H; pair_inv H. split; [exact Hs0 | discriminate].
    + unfold_monad. intros H; pair_inv H. split; [exact Hs0|].
      intros bs E. injection E as <-. apply ocr_list_nil.
    + intros H; pair_inv H. split; [exact Hs0 | discriminate].
  - unfold_monad. intros H; pair_inv H. split; [exact Hs|].
    intros bs E. injection E as <-. apply ocr_list_nil.
Qed.

Lemma render_page_state (pg : PdfPage) (s s' : State) (r : Result Image) :
  render_page W pg s = (r, s') ->
  s' = mkState (_paddle_ocr s) (_easy_ocr s) (calls s ++ [GetPixmap]).
Proof.
  unfold render_page. unfold_monad.
  destruct (get_pixmap pg) as [pix|x]; [|intros H; pair_inv H; reflexivity].
  destruct (pixmap_array pix) as [img|x]; [|intros H; pair_inv H; reflexivity].
  destruct (pix_n pix =? 4)%Z; [intros H; pair_inv H; reflexivity|].
  destruct (pix_n pix =? 1)%Z; intros H; pair_inv H; reflexivity.
Qed.

(** [_ocr_page] returns a block list whatever happens inside. *)
Lemma ocr_page_sat (pg : PdfPage) (lang : pystr) (s s' : State)
    (r : Result (list Block)) :
  engines_sat P W s -> _ocr_page W pg lang s = (r, s') ->
  engines_sat P W s' /\ exists bs, r = Ok bs /\ ocr_list P bs.
Proof.
  intros Hs. unfold _ocr_page, try_except. unfold bind at 1.
  destruct (render_page W pg s) as [r0 s0] eqn:R.
  pose proof (render_page_state _ _ R) as ->.
  apply (engines_sat_calls GetPixmap) in Hs.
  destruct r0 as [img|x].
  - unfold bind at 1.
    destruct (ocr_page_paddle W img _) as [r1 s1] eqn:Pd.
    destruct (ocr_page_paddle_sat _ Hs Pd) as [Hs1 Hr1].
    destruct r1 as [[bs|]|x].
    + unfold ret. intros H; pair_inv H. split; [exact Hs1|].
      exists bs. split; [reflexivity | apply Hr1; reflexivity].
    + destruct (ocr_page_easy W img lang s1) as [r2 s2] eqn:Ez.
      destruct (ocr_page_easy_sat _ _ Hs1 Ez) as [Hs2 Hr2].
      destruct r2 as [bs|x]; intros H; pair_inv H; (split; [exact Hs2|]).
      * exists bs. split; [reflexivity | apply Hr2; reflexivity].
      * exists []. split; [reflexivity | apply ocr_list_nil].
    + intros H; pair_inv H. split; [exact Hs1|].
      exists []. split; [reflexivity | apply ocr_list_nil].
  - intros H; pair_inv H. split; [exact Hs|].
    exists []. split; [reflexivity | apply ocr_list_nil].
Qed.

Lemma pdf_page_extract_sat (enable_ocr : bool) (lang : pystr) (pg : PdfPage)
    (s s' : State) (r : Result (list Block)) :
  engines_sat P W s -> pdf_page_extract W enable_ocr lang pg s = (r, s') ->
  engines_sat P W s' /\ exists bs, r = Ok bs /\ page_source P pg bs.
Proof.
  intros Hs. unfold pdf_page_extract, page_source.
  destruct (native_blocks 0 (get_text_blocks pg)) as [|b bs0] eqn:N.
  - destruct enable_ocr; cbn [andb List.length Nat.eqb].
    + unfold bind.
      destruct (_ocr_page W pg lang s) as [r0 s0] eqn:O.
      destruct (ocr_page_sat _ _ Hs O) as [Hs0 [bs [-> Hbs]]].
      destruct bs as [|b bs]; unfold ret; intros H; pair_inv H;
        (split; [exact Hs0|]).
      * exists []. split; [reflexivity | left; reflexivity].
      * exists (b :: bs). split; [reflexivity | right; split; [reflexivity | exact Hbs]].
    + unfold ret. intros H; pair_inv H. split; [exact Hs|].
      exists []. split; [reflexivity | left; reflexivity].
  - replace (enable_ocr && (List.length (b :: bs0) =? 0)%nat) with false
      by (destruct enable_ocr; reflexivity).
    unfold ret. intros H; pair_inv H. split; [exact Hs|].
    exists (b :: bs0). split; [reflexivity | left; reflexivity].
Qed.

(** Every page of the output is the sorted block list of the page it
    was made from. *)
Lemma pdf_pages_sat (enable_ocr : bool) (lang : pystr) (pdf_doc : list PdfPage) :
  forall (n : nat) (s s' : State) (r : Result (list Page)),
  engines_sat P W s -> pdf_pages W enable_ocr lang n pdf_doc s = (r, s') ->
  engines_sat P W s' /\
  exists ps, r = Ok ps /\
    Forall2 (fun pg p => exists bs s0 s1,
               pdf_page_extract W enable_ocr lang pg s0 = (Ok bs, s1) /\
               page_source P pg bs /\ blocks p = sort_blocks bs) pdf_doc ps.
Proof.
  induction pdf_doc as [|pg rest IH]; intros n s s' r Hs; cbn [pdf_pages].
  - unfold ret. intros H; pair_inv H. split; [exact Hs|].
    exists []. split; [reflexivity | constructor].
  - unfold bind at 1. unfold pdf_page. unfold bind at 1.
    destruct (pdf_page_extract W enable_ocr lang pg s) as [r0 s0] eqn:X.
    destruct (pdf_page_extract_sat _ _ _ Hs X) as [Hs0 [bs [-> Hbs]]].
    unfold ret at 1. unfold bind at 1.
    destruct (pdf_pages W enable_ocr lang (S n) rest s0) as [r1 s1] eqn:R.
    destruct (IH _ _ _ _ Hs0 R) as [Hs1 [ps [-> Hps]]].
    unfold ret. intros H; pair_inv H. split; [exact Hs1|].
    eexists. split; [reflexivity|].
    constructor; [|exact Hps].
    exists bs, s, s0. split; [exact X | split; [exact Hbs | reflexivity]].
Qed.

Lemma image_extract_sat (img : Image) (lang : pystr) (s s' : State)
    (bs : list Block) :
  engines_sat P W s -> image_extract W img lang s = (Ok bs, s') ->
  ocr_list P bs.
Proof.
  intros Hs. unfold image_extract. unfold bind at 1.
  destruct (image_paddle W img s) as [r0 s0] eqn:Pd.
  assert (Hpd : engines_sat P W s0 /\ forall bs0, r0 = Ok bs0 -> ocr_list P bs0).
  { revert Pd. unfold image_paddle.
    destruct (PADDLE_AVAILABLE W).
    - unfold bind at 1.
      destruct (_get_paddle_ocr W s) as [r1 s1] eqn:G.
      destruct (get_paddle_sat Hs G) as [Hs1 Hr1].
      destruct r1 as [[engine|]|x].
      + specialize (Hr1 engine eq_refl). unfold_monad.
        destruct (engine img) as [result|x] eqn:R.
        * destruct result as [|[[|d ds]|] rest]; intros H; pair_inv H;
            (split; [exact Hs1|]);
            try (intros bs0 E; injection E as <-; apply ocr_list_nil).
          intros bs0 E. exists (d :: ds). split; [eapply Hr1, R | exact E].
        * intros H; pair_inv H. split; [exact Hs1 | discriminate].
      + unfold_monad. intros H; pair_inv H. split; [exact Hs1|].
        intros bs0 E; injection E as <-; apply ocr_list_nil.
      + intros H; pair_inv H. split; [exact Hs1 | discriminate].
    - unfold_monad. intros H; pair_inv H. split; [exact Hs|].
      intros bs0 E; injection E as <-; apply ocr_list_nil. }
  destruct Hpd as [Hs0 Hr0].
  destruct r0 as [bs0|x]; [|discriminate].
  specialize (Hr0 bs0 eq_refl). unfold image_easy.
  destruct bs0 as [|b0 bs0].
  - destruct (EASYOCR_AVAILABLE W).
    + unfold bind at 1.
      destruct (_get_easy_ocr W lang s0) as [r1 s1] eqn:G.
      destruct (get_easy_sat _ Hs0 G) as [Hs1 Hr1].
      destruct r1 as [[reader|]|x]; [| |discriminate].
      * specialize (Hr1 reader eq_refl). unfold_monad.
        destruct (reader img) as [result|x] eqn:R; [|discriminate].
        destruct (detection_blocks 0 result) as [more|x] eqn:D; [|discriminate].
        intros H; pair_inv H. exists result. split; [eapply Hr1, R | exact D].
      * unfold ret. intros H; pair_inv H. apply ocr_list_nil.
    + unfold ret. intros H; pair_inv H. apply ocr_list_nil.
  - unfold ret. intros H; pair_inv H. exact Hr0.
Qed.

End Contract.

(** ** The two entry points *)

Lemma Forall_sort_blocks (Q : Block -> Prop) (bs : list Block) :
  Forall Q bs -> Forall Q (sort_blocks bs).
Proof.
  intros H. eapply Permutation_Forall; [apply Permutation_sym, sort_blocks_perm | exact H].
Qed.

Lemma engines_sat_True (W : World) (s : State) : engines_sat (fun _ => True) W s.
Proof.
  split4; intros; intros ? ? ; intros; apply Forall_forall; trivial.
Qed.

Lemma ocr_list_blocks (P : Detection -> Prop) (bs : list Block) :
  ocr_list P bs -> Forall (from_ocr P) bs.
Proof. intros [ds [HP D]]. eapply detection_blocks_source; eassumption. Qed.

Lemma page_source_blocks (F : RawBlock -> Prop) (P : Detection -> Prop)
    (pg : PdfPage) (bs : list Block) :
  Forall F (get_text_blocks pg) -> page_source P pg bs ->
  Forall (fun b => from_native F b \/ from_ocr P b) bs.
Proof.
  intros HF [-> | [_ Hocr]].
  - eapply Forall_impl; [|apply native_blocks_source, HF]. intros b Hb. left. exact Hb.
  - eapply Forall_impl; [|apply ocr_list_blocks, Hocr]. intros b Hb. right. exact Hb.
Qed.

Section EntryPoints.

Variable P : Detection -> Prop.
Variable W : World.

Lemma process_pdf_inv (path : pystr) (did : option pystr) (enable_ocr : bool)
    (lang : pystr) (s s' : State) (doc : Document) :
  engines_sat P W s ->
  process_pdf_to_layout_json W path did enable_ocr lang s = (Ok doc, s') ->
  exists pdf,
    fitz_open W path = Ok pdf /\
    document_id doc = doc_id_of W did path /\
    num_pages doc = List.length (pages doc) /\
    Forall2 (fun pg p => exists bs s0 s1,
               pdf_page_extract W enable_ocr lang pg s0 = (Ok bs, s1) /\
               page_source P pg bs /\ blocks p = sort_blocks bs) pdf (pages doc).
Proof.
  intros Hs. unfold process_pdf_to_layout_json.
  destruct (PYMUPDF_AVAILABLE W); cbn [negb]; [|discriminate].
  unfold bind at 1. unfold lift.
  destruct (fitz_open W path) as [pdf|x]; [|discriminate].
  unfold bind.
  destruct (pdf_pages W enable_ocr lang 0 pdf s) as [r1 s1] eqn:R.
  destruct (@pdf_pages_sat P W enable_ocr lang pdf 0 s s1 r1 Hs R) as [_ [ps [-> Hps]]].
  unfold ret. intros H; pair_inv H. exists pdf. cbn.
  repeat split; try reflexivity. exact Hps.
Qed.

Lemma process_image_inv (path : pystr) (did : option pystr) (lang : pystr)
    (s s' : State) (doc : Document) :
  engines_sat P W s ->
  process_image_to_layout_json W path did lang s = (Ok doc, s') ->
  exists img bs,
    cv2_imread W path = Some img /\
    image_extract W img lang s = (Ok bs, s') /\
    ocr_list P bs /\
    document_id doc = doc_id_of W did path /\
    num_pages doc = 1 /\
    pages doc = [mkPage 1 (img_cols img) (img_rows img) (sort_blocks bs)].
Proof.
  intros Hs. unfold process_image_to_layout_json.
  destruct (cv2_imread W path) as [img|]; [|discriminate].
  unfold bind.
  destruct (image_extract W img lang s) as [[bs|x] s1] eqn:X; [|discriminate].
  unfold ret. intros H; pair_inv H. exists img, bs. cbn.
  split; [reflexivity|]. split; [exact X|].
  split; [eapply image_extract_sat; eassumption|]. repeat split.
Qed.

(** Every block of a PDF layout comes from a raw block of the text
    layer or from a detection of an engine. *)
Lemma pdf_every_block (F : RawBlock -> Prop) (path : pystr) (did : option pystr)
    (enable_ocr : bool) (lang : pystr) (s s' : State) (doc : Document) :
  engines_sat P W s ->
  (forall pdf, fitz_open W path = Ok pdf ->
               Forall (fun pg => Forall F (get_text_blocks pg)) pdf) ->
  process_pdf_to_layout_json W path did enable_ocr lang s = (Ok doc, s') ->
  every_block (fun b => from_native F b \/ from_ocr P b) doc.
Proof.
  intros Hs HF H. destruct (process_pdf_inv _ _ _ _ Hs H) as [pdf [Ho [_ [_ Hps]]]].
  specialize (HF pdf Ho). unfold every_block.
  clear H Ho. induction Hps as [|pg p pdf ps Hp Hps IH]; [constructor|].
  destruct Hp as [bs [s0 [s1 [_ [Hsrc Hb]]]]].
  inversion HF as [|? ? HFpg HFrest]; subst.
  constructor; [|apply IH; exact HFrest].
  rewrite Hb. apply Forall_sort_blocks. eapply page_source_blocks; eassumption.
Qed.

(** Every block of an image layout comes from a detection. *)
Lemma image_every_block (path : pystr) (did : option pystr) (lang : pystr)
    (s s' : State) (doc : Document) :
  engines_sat P W s ->
  process_image_to_layout_json W path did lang s = (Ok doc, s') ->
  every_block (from_ocr P) doc.
Proof.
  intros Hs H.
  destruct (process_image_inv _ _ _ Hs H) as [img [bs [_ [_ [Hocr [_ [_ Hp]]]]]]].
  unfold every_block. rewrite Hp. constructor; [|constructor].
  cbn [blocks]. apply Forall_sort_blocks, ocr_list_blocks, Hocr.
Qed.

End EntryPoints.

Lemma every_block_impl (Q R : Block -> Prop) (doc : Document) :
  (forall b, Q b -> R b) -> every_block Q doc -> every_block R doc.
Proof.
  intros HQR H. unfold every_block in *.
  eapply Forall_impl; [|exact H]. intros pg Hpg.
  eapply Forall_impl; [|exact Hpg]. exact HQR.
Qed.

Lemma all_raw_blocks (pdf : list PdfPage) :
  Forall (fun pg => Forall (fun _ : RawBlock => True) (get_text_blocks pg)) pdf.
Proof. apply Forall_forall. intros pg _. apply Forall_forall. trivial. Qed.

(** ** Scenario worlds *)

Lemma paddle_reports_sat (P : Detection -> Prop) (ds : list Detection) :
  Forall P ds -> paddle_sat P (Demo.paddle_reports ds).
Proof.
  intros HP img ds' rest. unfold Demo.paddle_reports.
  destruct ds as [|d ds]; intros E; [discriminate|].
  inversion E; subst. exact HP.
Qed.

Lemma world_sat (P : Detection -> Prop) (pdf : list PdfPage)
    (paddle : option PaddleEngine) (easy : option (pystr -> EasyEngine)) :
  (forall e, paddle = Some e -> paddle_sat P e) ->
  (forall f lang, easy = Some f -> easy_sat P (f lang)) ->
  engines_sat P (Demo.world pdf paddle easy) initial_state.
Proof.
  intros Hp He. split4; cbn.
  - discriminate.
  - intros _ e. destruct paddle as [e0|]; [|discriminate].
    intros E. injection E as <-. apply Hp. reflexivity.
  - discriminate.
  - intros langs e. destruct easy as [f|]; [|discriminate].
    intros E. injection E as <-. eapply He. reflexivity.
Qed.

Lemma scan_world_sat (P : Detection -> Prop) :
  P Demo.det_total -> P Demo.det_invoice ->
  engines_sat P Demo.scan_world initial_state.
Proof.
  intros H1 H2. apply world_sat; [|discriminate].
  intros e E. injection E as <-. apply paddle_reports_sat.
  repeat constructor; assumption.
Qed.

(** * The claims *)


(** C1, as the code has it.  A native-text block never has empty or
    white-space-only text, since fragments without content are dropped;
    an OCR-derived block carries the text the engine reported,
    unchanged.  So every block either entry point emits has text that
    is not blank whenever no engine reports a blank text. *)
Theorem C1_text_not_blank :
  (forall i blk b, native_block i blk = Some b -> text_not_blank b) /\
  (forall i d b, detection_block i d = Ok b -> text b = det_text d) /\
  (forall W s path did enable_ocr lang doc s',
      engines_sat (fun d => blank (det_text d) = false) W s ->
      process_pdf_to_layout_json W path did enable_ocr lang s = (Ok doc, s') ->
      every_block text_not_blank doc) /\
  (forall W s path did lang doc s',
      engines_sat (fun d => blank (det_text d) = false) W s ->
      process_image_to_layout_json W path did lang s = (Ok doc, s') ->
      every_block text_not_blank doc).
Proof.
  assert (Hn : forall i blk b, native_block i blk = Some b -> text_not_blank b).
  { intros i blk b E.
    destruct (native_block_inv _ _ E) as [? [? [? [? [? [_ [_ [_ [_ [_ [H _]]]]]]]]]]].
    exact H. }
  assert (Ho : forall i d b, detection_block i d = Ok b -> text b = det_text d).
  { intros i d b E. apply (detection_block_inv _ _ E). }
  assert (Hocr : forall b, from_ocr (fun d => blank (det_text d) = false) b ->
                           text_not_blank b).
  { intros b [i [d [Hd E]]]. unfold text_not_blank. rewrite (Ho _ _ _ E). exact Hd. }
  split; [exact Hn|]. split; [exact Ho|]. split.
  - intros W s path did enable_ocr lang doc s' Hs H.
    eapply every_block_impl;
      [|eapply (pdf_every_block (F := fun _ => True)); [exact Hs | | exact H]].
    + intros b [[i [blk [_ E]]] | Hb]; [eapply Hn, E | apply Hocr, Hb].
    + intros pdf _. apply all_raw_blocks.
  - intros W s path did lang doc s' Hs H.
    eapply every_block_impl; [exact Hocr | eapply image_every_block; eassumption].
Qed.

Lemma C1_text_not_blank_witness :
  (exists doc s',
      process_pdf_to_layout_json Demo.scan_world Demo.pdf_path None true Demo.en
        initial_state = (Ok doc, s') /\
      every_block text_not_blank doc) /\
  (exists doc s',
      process_image_to_layout_json Demo.scan_world Demo.image_path None Demo.en
        initial_state = (Ok doc, s') /\
      every_block text_not_blank doc).
Proof.
  assert (Hs : engines_sat (fun d => blank (det_text d) = false)
                 Demo.scan_world initial_state)
    by (apply scan_world_sat; reflexivity).
  split.
  - eexists. eexists. split; [vm_compute; reflexivity|].
    refine (proj1 (proj2 (proj2 C1_text_not_blank)) Demo.scan_world initial_state
              Demo.pdf_path None true Demo.en _ _ Hs _).
    vm_compute; reflexivity.
  - eexists. eexists. split; [vm_compute; reflexivity|].
    refine (proj2 (proj2 (proj2 C1_text_not_blank)) Demo.scan_world initial_state
              Demo.image_path None Demo.en _ _ Hs _).
    vm_compute; reflexivity.
Defined.

(** C1, as stated, fails for OCR-derived blocks: an engine that reports
    a detection whose text is two spaces makes the image entry point
    emit a block with that text. *)
Lemma C1_ocr_text_counterexample :
  exists doc s',
    process_image_to_layout_json Demo.blank_text_world Demo.image_path None Demo.en
      initial_state = (Ok doc, s') /\
    ~ every_block text_not_blank doc.
Proof.
  eexists. eexists. split; [vm_compute; reflexivity|].
  intros H. inversion H as [|pg pgs Hpg _]; subst.
  inversion Hpg as [|b bs Hb _]; subst.
  vm_compute in Hb. discriminate.
Qed.

(** C3, as the code has it.  A native-text block (id [b<n>]) has
    confidence exactly 1.0 and an OCR-derived block carries the score
    the engine reported, unchanged and unclamped.  So every block either
    entry point emits has a confidence between 0.0 and 1.0 whenever
    every score the engines report lies in that range. *)
Theorem C3_confidence :
  (forall i blk b, native_block i blk = Some b ->
                   confidence b = 1%Q /\ id b = native_id (i + 1)) /\
  (forall i d b, detection_block i d = Ok b ->
                 confidence b = det_conf d /\ id b = ocr_id (i + 1)) /\
  (forall W s path did enable_ocr lang doc s',
      engines_sat (fun d => (0 <= det_conf d /\ det_conf d <= 1)%Q) W s ->
      process_pdf_to_layout_json W path did enable_ocr lang s = (Ok doc, s') ->
      every_block confidence_in_range doc) /\
  (forall W s path did lang doc s',
      engines_sat (fun d => (0 <= det_conf d /\ det_conf d <= 1)%Q) W s ->
      process_image_to_layout_json W path did lang s = (Ok doc, s') ->
      every_block confidence_in_range doc).
Proof.
  assert (Hn : forall i blk b, native_block i blk = Some b ->
                               confidence b = 1%Q /\ id b = native_id (i + 1)).
  { intros i blk b E.
    destruct (native_block_inv _ _ E) as [? [? [? [? [? [_ [Hid [_ [_ [_ [_ H]]]]]]]]]]].
    split; assumption. }
  assert (Ho : forall i d b, detection_block i d = Ok b ->
                             confidence b = det_conf d /\ id b = ocr_id (i + 1)).
  { intros i d b E. destruct (detection_block_inv _ _ E) as [Hid [_ [_ [Hc _]]]].
    split; assumption. }
  assert (Hocr : forall b,
             from_ocr (fun d => (0 <= det_conf d /\ det_conf d <= 1)%Q) b ->
             confidence_in_range b).
  { intros b [i [d [Hd E]]]. unfold confidence_in_range.
    rewrite (proj1 (Ho _ _ _ E)). exact Hd. }
  split; [exact Hn|]. split; [exact Ho|]. split.
  - intros W s path did enable_ocr lang doc s' Hs H.
    eapply every_block_impl;
      [|eapply (pdf_every_block (F := fun _ => True)); [exact Hs | | exact H]].
    + intros b [[i [blk [_ E]]] | Hb]; [|apply Hocr, Hb].
      unfold confidence_in_range. rewrite (proj1 (Hn _ _ _ E)).
      split; discriminate.
    + intros pdf _. apply all_raw_blocks.
  - intros W s path did lang doc s' Hs H.
    eapply every_block_impl; [exact Hocr | eapply image_every_block; eassumption].
Qed.

Lemma C3_confidence_witness :
  (exists doc s',
      process_pdf_to_layout_json Demo.scan_world Demo.pdf_path None true Demo.en
        initial_state = (Ok doc, s') /\
      every_block confidence_in_range doc) /\
  (exists doc s',
      process_image_to_layout_json Demo.scan_world Demo.image_path None Demo.en
        initial_state = (Ok doc, s') /\
      every_block confidence_in_range doc).
Proof.
  assert (Hs : engines_sat (fun d => (0 <= det_conf d /\ det_conf d <= 1)%Q)
                 Demo.scan_world initial_state)
    by (apply scan_world_sat; split; discriminate).
  split.
  - eexists. eexists. split; [vm_compute; reflexivity|].
    refine (proj1 (proj2 (proj2 C3_confidence)) Demo.scan_world initial_state
              Demo.pdf_path None true Demo.en _ _ Hs _).
    vm_compute; reflexivity.
  - eexists. eexists. split; [vm_compute; reflexivity|].
    refine (proj2 (proj2 (proj2 C3_confidence)) Demo.scan_world initial_state
              Demo.image_path None Demo.en _ _ Hs _).
    vm_compute; reflexivity.
Defined.

(** C3, as stated, fails for OCR-derived blocks: an engine that reports
    the score 1.5 makes the image entry point emit a block with
    confidence 1.5. *)
Lemma C3_ocr_confidence_counterexample :
  exists doc s',
    process_image_to_layout_json Demo.overconfident_world Demo.image_path None
      Demo.en initial_state = (Ok doc, s') /\
    ~ every_block confidence_in_range doc.
Proof.
  eexists. eexists. split; [vm_compute; reflexivity|].
  intros H. inversion H as [|pg pgs Hpg _]; subst.
  inversion Hpg as [|b bs [_ Hb] _]; subst.
  apply Hb. reflexivity.
Qed.

(** C6, as the code has it.  [bbox] is four integers.  For an
    OCR-derived block they are the truncated minimum and maximum of the
    polygon's coordinates, so x0 <= x1 and y0 <= y1.  For a native-text
    block they are the truncated coordinates of the fragment, taken as
    the text layer gives them, so x0 <= x1 and y0 <= y1 hold when they
    hold for the fragment's rectangle. *)
Theorem C6_bbox_ordered :
  (forall i d b, detection_block i d = Ok b -> bbox_ordered b) /\
  (forall i x0 y0 x1 y1 t b,
      native_block i (Fragment x0 y0 x1 y1 t) = Some b ->
      bbox b = mkBBox (py_int x0) (py_int y0) (py_int x1) (py_int y1) /\
      ((x0 <= x1)%Q -> (y0 <= y1)%Q -> bbox_ordered b)) /\
  (forall W s path did enable_ocr lang doc s',
      (forall pdf, fitz_open W path = Ok pdf ->
                   Forall (fun pg => Forall rect_ordered (get_text_blocks pg)) pdf) ->
      process_pdf_to_layout_json W path did enable_ocr lang s = (Ok doc, s') ->
      every_block bbox_ordered doc) /\
  (forall W s path did lang doc s',
      process_image_to_layout_json W path did lang s = (Ok doc, s') ->
      every_block bbox_ordered doc).
Proof.
  assert (Ho : forall i d b, detection_block i d = Ok b -> bbox_ordered b).
  { intros i d b E. apply (detection_block_inv _ _ E). }
  assert (Hn : forall i x0 y0 x1 y1 t b,
             native_block i (Fragment x0 y0 x1 y1 t) = Some b ->
             bbox b = mkBBox (py_int x0) (py_int y0) (py_int x1) (py_int y1) /\
             ((x0 <= x1)%Q -> (y0 <= y1)%Q -> bbox_ordered b)).
  { intros i x0 y0 x1 y1 t b E.
    destruct (native_block_inv _ _ E)
      as [x0' [y0' [x1' [y1' [t' [Eq [_ [_ [Hb _]]]]]]]]].
    injection Eq as <- <- <- <- <-. split; [exact Hb|].
    intros Hx Hy. unfold bbox_ordered. rewrite Hb. cbn.
    split; apply py_int_mono; assumption. }
  split; [exact Ho|]. split; [exact Hn|]. split.
  - intros W s path did enable_ocr lang doc s' HF H.
    eapply every_block_impl;
      [|eapply (pdf_every_block (P := fun _ => True) (F := rect_ordered));
        [apply engines_sat_True | exact HF | exact H]].
    intros b [[i [blk [Hblk E]]] | [i [d [_ E]]]]; [|eapply Ho, E].
    destruct blk as [|x0 y0 x1 y1 t]; [discriminate|].
    destruct Hblk as [Hx Hy]. apply (proj2 (Hn _ _ _ _ _ _ _ E)); assumption.
  - intros W s path did lang doc s' H.
    eapply every_block_impl;
      [|eapply (image_every_block (P := fun _ => True));
        [apply engines_sat_True | exact H]].
    intros b [i [d [_ E]]]. eapply Ho, E.
Qed.

Lemma C6_bbox_ordered_witness :
  (exists doc s',
      process_pdf_to_layout_json Demo.scan_world Demo.pdf_path None true Demo.en
        initial_state = (Ok doc, s') /\
      every_block bbox_ordered doc) /\
  (exists doc s',
      process_image_to_layout_json Demo.scan_world Demo.image_path None Demo.en
        initial_state = (Ok doc, s') /\
      every_block bbox_ordered doc).
Proof.
  split.
  - eexists. eexists. split; [vm_compute; reflexivity|].
    refine (proj1 (proj2 (proj2 C6_bbox_ordered)) Demo.scan_world initial_state
              Demo.pdf_path None true Demo.en _ _ _ _).
    + intros pdf E. injection E as <-.
      repeat constructor; discriminate.
    + vm_compute; reflexivity.
  - eexists. eexists. split; [vm_compute; reflexivity|].
    refine (proj2 (proj2 (proj2 C6_bbox_ordered)) Demo.scan_world initial_state
              Demo.image_path None Demo.en _ _ _).
    vm_compute; reflexivity.
Defined.

(** C6, as stated, fails for native-text blocks: a fragment that the
    text layer gives with x0 = 10 and x1 = 5 is emitted with
    bbox [10, 0, 5, 0]. *)
Lemma C6_native_bbox_counterexample :
  exists doc s',
    process_pdf_to_layout_json Demo.flipped_world Demo.pdf_path None true Demo.en
      initial_state = (Ok doc, s') /\
    ~ every_block bbox_ordered doc.
Proof.
  eexists. eexists. split; [vm_compute; reflexivity|].
  intros H. inversion H as [|pg pgs Hpg _]; subst.
  inversion Hpg as [|b bs [Hb _] _]; subst.
  vm_compute in Hb. apply Hb. reflexivity.
Qed.

(** C5. The blocks of every page, in the output of either entry point,
    are the block list of the page in extraction order, sorted by top
    edge [bbox[1]] and then by left edge [bbox[0]], both ascending, by
    a stable sort: blocks with the same top and left edge keep their
    extraction order.  In particular two blocks with bbox
    [[0, 10, 5, 20]] given in the order 1, 2 come out in the order
    1, 2. *)
Theorem C5_reading_order :
  (forall b c,
      key_le b c <->
      (by0 (bbox b) < by0 (bbox c) \/
       (by0 (bbox b) = by0 (bbox c) /\ bx0 (bbox b) <= bx0 (bbox c)))%Z) /\
  (forall l,
      StronglySorted key_le (sort_blocks l) /\
      Permutation (sort_blocks l) l /\
      (forall k, with_key k (sort_blocks l) = with_key k l)) /\
  (forall W s path did enable_ocr lang doc s',
      process_pdf_to_layout_json W path did enable_ocr lang s = (Ok doc, s') ->
      Forall (fun p => StronglySorted key_le (blocks p)) (pages doc) /\
      exists pdf,
        fitz_open W path = Ok pdf /\
        Forall2 (fun pg p => exists bs s0 s1,
                   pdf_page_extract W enable_ocr lang pg s0 = (Ok bs, s1) /\
                   blocks p = sort_blocks bs) pdf (pages doc)) /\
  (forall W s path did lang doc s',
      process_image_to_layout_json W path did lang s = (Ok doc, s') ->
      exists img bs,
        cv2_imread W path = Some img /\
        image_extract W img lang s = (Ok bs, s') /\
        pages doc = [mkPage 1 (img_cols img) (img_rows img) (sort_blocks bs)]) /\
  map id (sort_blocks [Demo.twin 1; Demo.twin 2]) = [of_nat 1; of_nat 2].
Proof.
  split.
  { intros b c. unfold key_le, key_leb, sort_key. cbn [fst snd]. lia. }
  split.
  { intros l. split; [apply sort_blocks_sorted|].
    split; [apply sort_blocks_perm | intros k; apply sort_blocks_stable]. }
  split.
  { intros W s path did enable_ocr lang doc s' H.
    destruct (process_pdf_inv (P := fun _ => True) _ _ _ _ (engines_sat_True W s) H)
      as [pdf [Ho [_ [_ Hps]]]].
    split.
    - clear H Ho. induction Hps as [|pg p pdf ps Hp Hps IH]; constructor; [|exact IH].
      destruct Hp as [bs [s0 [s1 [_ [_ ->]]]]]. apply sort_blocks_sorted.
    - exists pdf. split; [exact Ho|].
      eapply Forall2_impl; [|exact Hps].
      intros pg p [bs [s0 [s1 [X [_ Hb]]]]]. exists bs, s0, s1. split; assumption. }
  split.
  { intros W s path did lang doc s' H.
    destruct (process_image_inv (P := fun _ => True) _ _ _ (engines_sat_True W s) H)
      as [img [bs [Hi [X [_ [_ [_ Hp]]]]]]].
    exists img, bs. repeat split; assumption. }
  reflexivity.
Qed.

Lemma C5_reading_order_witness :
  (exists doc s',
      process_pdf_to_layout_json Demo.scan_world Demo.pdf_path None true Demo.en
        initial_state = (Ok doc, s') /\
      Forall (fun p => StronglySorted key_le (blocks p)) (pages doc)) /\
  (exists doc s' img bs,
      process_image_to_layout_json Demo.scan_world Demo.image_path None Demo.en
        initial_state = (Ok doc, s') /\
      image_extract Demo.scan_world img Demo.en initial_state = (Ok bs, s') /\
      pages doc = [mkPage 1 (img_cols img) (img_rows img) (sort_blocks bs)]).
Proof.
  split.
  - eexists. eexists. split; [vm_compute; reflexivity|].
    refine (proj1 (proj1 (proj2 (proj2 C5_reading_order)) Demo.scan_world initial_state
              Demo.pdf_path None true Demo.en _ _ _)).
    vm_compute; reflexivity.
  - destruct (proj1 (proj2 (proj2 (proj2 C5_reading_order))) Demo.scan_world
                initial_state Demo.image_path None Demo.en
                (mkDocument (lit "scan") Demo.image_path 1
                   [mkPage 1 3 2
                      (sort_blocks
                         [mkBlock (ocr_id 1) (lit "text") (mkBBox 12 50 80 61)
                            (lit "Total") (93 # 100);
                          mkBlock (ocr_id 2) (lit "text") (mkBBox 12 10 95 22)
                            (lit "Invoice") (97 # 100)])])
                (mkState (Some (Demo.paddle_reports [Demo.det_total; Demo.det_invoice]))
                   None [PaddleInit Demo.en; PaddleRun])
                eq_refl)
      as [img [bs [_ [X Hp]]]].
    eexists. eexists. exists img, bs. split; [reflexivity|].
    split; [exact X | exact Hp].
Defined.

(** ** Ids within a page *)

Lemma page_source_ids (P : Detection -> Prop) (pg : PdfPage) (bs : list Block) :
  page_source P pg bs ->
  NoDup (map id bs) /\
  ((exists ns, map id bs = map native_id ns /\ StronglySorted lt ns /\
               Forall (fun n => (1 <= n)%nat) ns) \/
   (exists ds, detection_blocks 0 ds = Ok bs /\
               map id bs = map ocr_id (seq 1 (List.length ds)))).
Proof.
  intros [-> | [_ [ds [_ D]]]].
  - split; [apply native_ids_NoDup|]. left.
    destruct (native_blocks_ids 0 (get_text_blocks pg)) as [ns [E [Hs Hgt]]].
    exists ns. split; [exact E|]. split; [exact Hs|].
    eapply Forall_impl; [|exact Hgt]. intros n Hn. exact Hn.
  - split; [eapply ocr_ids_NoDup, D|]. right. exists ds. split; [exact D|].
    rewrite <- (detection_blocks_length _ _ D).
    apply (detection_blocks_inv _ _ D).
Qed.

Lemma sort_blocks_ids_NoDup (bs : list Block) :
  NoDup (map id bs) -> NoDup (map id (sort_blocks bs)).
Proof.
  intros H. eapply Permutation_NoDup; [|exact H].
  apply Permutation_map, Permutation_sym, sort_blocks_perm.
Qed.

(** The loop over the detections keeps their order: the block at
    position [k] is made from the detection at position [k]. *)
Lemma detection_blocks_nth (i : nat) (ds : list Detection) (bs : list Block) :
  detection_blocks i ds = Ok bs ->
  forall k d, nth_error ds k = Some d ->
    exists b, nth_error bs k = Some b /\ detection_block (i + k) d = Ok b.
Proof.
  revert i bs. induction ds as [|d0 ds IH]; intros i bs D k d Hk.
  - destruct k; discriminate.
  - apply detection_blocks_cons in D. destruct D as [b0 [bs' [-> [Hb0 D']]]].
    destruct k as [|k]; cbn in Hk.
    + injection Hk as <-. exists b0. rewrite Nat.add_0_r. split; [reflexivity | exact Hb0].
    + destruct (IH _ _ D' k d Hk) as [b [Hb Eb]]. exists b.
      replace (i + S k) with (S i + k) by lia. split; [exact Hb | exact Eb].
Qed.

Lemma detection_blocks_numbered (ds : list Detection) (bs : list Block) :
  detection_blocks 0 ds = Ok bs -> numbered_as_returned ds bs.
Proof.
  intros D. split; [eapply detection_blocks_length, D|].
  intros k d Hk. destruct (@detection_blocks_nth 0 ds bs D k d Hk) as [b [Hb Eb]].
  exists b. split; [exact Hb|]. cbn [Nat.add] in Eb.
  destruct (detection_block_inv _ _ Eb) as [Hid [_ [Ht [Hc _]]]].
  split; [exact Hid|]. split; [exact Ht|]. split; [exact Hc|].
  unfold detection_block in Eb.
  destruct (points_bbox (det_points d)) as [bb|e]; [|discriminate].
  injection Eb as <-. reflexivity.
Qed.

Lemma detection_blocks_not_nil (i : nat) (d : Detection) (ds : list Detection)
    (bs : list Block) :
  detection_blocks i (d :: ds) = Ok bs -> exists b bs', bs = b :: bs'.
Proof.
  intros D. apply detection_blocks_cons in D. destruct D as [b [bs' [-> _]]].
  exists b, bs'. reflexivity.
Qed.

(** The two stages of [_ocr_page] after the rendering do what
    [process_image_to_layout_json] does with its image. *)
Lemma ocr_stages_are_image_extract (W : World) (img : Image) (lang : pystr)
    (s : State) :
  bind (ocr_page_paddle W img)
       (fun found => match found with
                     | Some blocks => ret blocks
                     | None => ocr_page_easy W img lang
                     end) s
  = image_extract W img lang s.
Proof.
  assert (Heasy : forall s0, ocr_page_easy W img lang s0 = image_easy W img lang [] s0).
  { intros s0. unfold ocr_page_easy, image_easy.
    destruct (EASYOCR_AVAILABLE W); [|reflexivity]. unfold bind.
    destruct (_get_easy_ocr W lang s0) as [[[reader|]|x] s1]; try reflexivity.
    destruct (call EasyRun (reader img) s1) as [[result|x] s2]; [|reflexivity].
    unfold lift, ret. destruct (detection_blocks 0 result); reflexivity. }
  unfold image_extract, ocr_page_paddle, image_paddle.
  destruct (PADDLE_AVAILABLE W); [|unfold bind, ret; apply Heasy].
  unfold bind at 1 2 5 6.
  destruct (_get_paddle_ocr W s) as [[[engine|]|x] s1];
    [|unfold ret; apply Heasy | reflexivity].
  unfold bind.
  destruct (call PaddleRun (engine img) s1) as [[result|x] s2]; [|reflexivity].
  destruct result as [|[[|d ds]|] rest]; try (unfold ret; apply Heasy).
  unfold lift, ret.
  destruct (detection_blocks 0 (d :: ds)) as [bs|x] eqn:D; [|reflexivity].
  destruct (detection_blocks_not_nil _ _ _ D) as [b [bs' ->]]. reflexivity.
Qed.

Section Returned.

Variable W : World.

Lemma get_paddle_frame (s s' : State) (r : Result (option PaddleEngine)) :
  _get_paddle_ocr W s = (r, s') -> _easy_ocr s' = _easy_ocr s.
Proof.
  unfold _get_paddle_ocr. unfold_monad.
  destruct (_paddle_ocr s); [intros H; pair_inv H; reflexivity|].
  destruct (PADDLE_AVAILABLE W); [|intros H; pair_inv H; reflexivity].
  destruct (PaddleOCR W (lit "en")); intros H; pair_inv H; reflexivity.
Qed.

Lemma get_paddle_Some (s s1 : State) (e : PaddleEngine) :
  PADDLE_AVAILABLE W = true ->
  _get_paddle_ocr W s = (Ok (Some e), s1) ->
  paddle_ready W s e /\ _easy_ocr s1 = _easy_ocr s.
Proof.
  intros Av. unfold _get_paddle_ocr, paddle_ready. rewrite Av. unfold_monad.
  destruct (_paddle_ocr s) as [e0|] eqn:E0.
  - intros H. pair_inv H. split; [split; [reflexivity | left; reflexivity] | reflexivity].
  - destruct (PaddleOCR W (lit "en")) as [e1|x] eqn:E1; [|discriminate].
    intros H. pair_inv H.
    split; [split; [reflexivity | right; split; reflexivity] | reflexivity].
Qed.

Lemma get_easy_Some (lang : pystr) (s s1 : State) (r : EasyEngine) :
  EASYOCR_AVAILABLE W = true ->
  _get_easy_ocr W lang s = (Ok (Some r), s1) ->
  easy_ready W lang s r.
Proof.
  intros Av. unfold _get_easy_ocr, easy_ready. rewrite Av. unfold_monad.
  destruct (_easy_ocr s) as [r0|] eqn:E0.
  - intros H. pair_inv H. split; [reflexivity | left; reflexivity].
  - destruct (easyocr_Reader W [lang]) as [r1|x] eqn:E1; [|discriminate].
    intros H. pair_inv H. split; [reflexivity | right; split; reflexivity].
Qed.

(** The blocks of the EasyOCR stage are made from the list its reader
    returned. *)
Lemma image_easy_returned (img : Image) (lang : pystr) (t s' : State)
    (bs : list Block) :
  image_easy W img lang [] t = (Ok bs, s') ->
  exists ds,
    (ds = [] \/ exists r, easy_ready W lang t r /\ r img = Ok ds) /\
    detection_blocks 0 ds = Ok bs.
Proof.
  unfold image_easy.
  destruct (EASYOCR_AVAILABLE W) eqn:Av;
    [|unfold ret; intros H; pair_inv H; exists []; split; [left|]; reflexivity].
  unfold bind at 1.
  destruct (_get_easy_ocr W lang t) as [[[reader|]|x] t1] eqn:G; [| |discriminate].
  - pose proof (get_easy_Some _ _ Av G) as Hready. unfold_monad.
    destruct (reader img) as [result|x] eqn:R; [|discriminate].
    destruct (detection_blocks 0 result) as [more|x] eqn:D; [|discriminate].
    intros H. pair_inv H. exists result.
    split; [right; exists reader; split; assumption | exact D].
  - unfold ret. intros H; pair_inv H. exists []. split; [left|]; reflexivity.
Qed.

Lemma easy_ready_frame (lang : pystr) (s t : State) (r : EasyEngine) :
  _easy_ocr t = _easy_ocr s -> easy_ready W lang t r -> easy_ready W lang s r.
Proof. unfold easy_ready. intros ->. trivial. Qed.

(** The blocks of an image are made from the list an engine returned
    for it, in the order of that list. *)
Lemma image_extract_returned (img : Image) (lang : pystr) (s s' : State)
    (bs : list Block) :
  image_extract W img lang s = (Ok bs, s') ->
  exists ds,
    (ds = [] \/ engine_returned W lang s img ds) /\
    detection_blocks 0 ds = Ok bs.
Proof.
  assert (Heasy : forall t, _easy_ocr t = _easy_ocr s ->
            image_easy W img lang [] t = (Ok bs, s') ->
            exists ds, (ds = [] \/ engine_returned W lang s img ds) /\
                       detection_blocks 0 ds = Ok bs).
  { intros t Et X. destruct (image_easy_returned _ _ _ X) as [ds [Hds D]].
    exists ds. split; [|exact D].
    destruct Hds as [-> | [r [Hr Er]]]; [left; reflexivity|].
    right. right. exists r. split; [eapply easy_ready_frame; eassumption | exact Er]. }
  unfold image_extract. unfold bind at 1. unfold image_paddle.
  destruct (PADDLE_AVAILABLE W) eqn:Av; [|unfold ret; apply Heasy; reflexivity].
  unfold bind at 1.
  destruct (_get_paddle_ocr W s) as [[[engine|]|x] s1] eqn:G; [| |discriminate].
  - destruct (get_paddle_Some _ Av G) as [Hready E1]. unfold call at 1.
    unfold bind at 1.
    destruct (engine img) as [result|x] eqn:R; [|discriminate].
    destruct result as [|[[|d ds]|] rest];
      try (unfold ret; apply Heasy; cbn [_easy_ocr]; exact E1).
    unfold lift.
    destruct (detection_blocks 0 (d :: ds)) as [bs0|x] eqn:D; [|discriminate].
    destruct (detection_blocks_not_nil _ _ _ D) as [b [bs' ->]].
    unfold image_easy, ret. intros H. pair_inv H. exists (d :: ds).
    split; [|exact D]. right. left. exists engine, rest.
    split; [exact Hready|]. split; [exact R | discriminate].
  - apply get_paddle_frame in G. unfold ret. apply Heasy. exact G.
Qed.

(** The OCR blocks of a PDF page are made from the list an engine
    returned for the rendered page. *)
Lemma ocr_page_returned (pg : PdfPage) (lang : pystr) (s s' : State)
    (b : Block) (bs : list Block) :
  _ocr_page W pg lang s = (Ok (b :: bs), s') ->
  exists img s0 ds,
    render_page W pg s = (Ok img, s0) /\
    engine_returned W lang s img ds /\
    detection_blocks 0 ds = Ok (b :: bs).
Proof.
  unfold _ocr_page, try_except. unfold bind at 1.
  destruct (render_page W pg s) as [[img|x] s0] eqn:R; [|discriminate].
  rewrite ocr_stages_are_image_extract.
  destruct (image_extract W img lang s0) as [[bs0|x] s1] eqn:X; [|discriminate].
  intros H. pair_inv H.
  destruct (image_extract_returned _ _ _ X) as [ds [Hds D]].
  exists img, s0, ds. split; [reflexivity|]. split; [|exact D].
  destruct Hds as [-> | Hret]; [discriminate|].
  pose proof R as Es0. apply render_page_state in Es0.
  rewrite Es0 in Hret. exact Hret.
Qed.

End Returned.

(** C8. Within a page the block ids are unique.  They are given in
    extraction order: the native-text blocks of a page are the blocks
    of its raw blocks and have ids [b<n>] with [n] increasing along the
    extraction; the OCR-derived blocks are made from the list of
    detections that the engine returned for the image (the lines of
    PaddleOCR's result, or else EasyOCR's list), position by position,
    and have the ids [ocr1], [ocr2], ... in the order of that list,
    before the page is sorted into reading order. *)
Theorem C8_block_ids :
  (forall W enable_ocr lang pg s bs s',
      pdf_page_extract W enable_ocr lang pg s = (Ok bs, s') ->
      NoDup (map id bs) /\
      ((bs = native_blocks 0 (get_text_blocks pg) /\
        exists ns, map id bs = map native_id ns /\ StronglySorted lt ns /\
                   Forall (fun n => (1 <= n)%nat) ns) \/
       (exists img s0 ds,
           render_page W pg s = (Ok img, s0) /\
           engine_returned W lang s img ds /\
           detection_blocks 0 ds = Ok bs /\
           numbered_as_returned ds bs /\
           map id bs = map ocr_id (seq 1 (List.length ds))))) /\
  (forall W img lang s bs s',
      image_extract W img lang s = (Ok bs, s') ->
      NoDup (map id bs) /\
      exists ds, (ds = [] \/ engine_returned W lang s img ds) /\
                 detection_blocks 0 ds = Ok bs /\
                 numbered_as_returned ds bs /\
                 map id bs = map ocr_id (seq 1 (List.length ds))) /\
  (forall W s path did enable_ocr lang doc s',
      process_pdf_to_layout_json W path did enable_ocr lang s = (Ok doc, s') ->
      Forall (fun p => NoDup (map id (blocks p))) (pages doc)) /\
  (forall W s path did lang doc s',
      process_image_to_layout_json W path did lang s = (Ok doc, s') ->
      Forall (fun p => NoDup (map id (blocks p))) (pages doc)).
Proof.
  assert (Hids : forall ds bs, detection_blocks 0 ds = Ok bs ->
             NoDup (map id bs) /\ numbered_as_returned ds bs /\
             map id bs = map ocr_id (seq 1 (List.length ds))).
  { intros ds bs D. split; [eapply ocr_ids_NoDup, D|].
    split; [apply detection_blocks_numbered, D|].
    rewrite <- (detection_blocks_length _ _ D).
    apply (detection_blocks_inv _ _ D). }
  assert (Himg : forall W img lang s bs s',
             image_extract W img lang s = (Ok bs, s') ->
             NoDup (map id bs) /\
             exists ds, (ds = [] \/ engine_returned W lang s img ds) /\
                        detection_blocks 0 ds = Ok bs /\
                        numbered_as_returned ds bs /\
                        map id bs = map ocr_id (seq 1 (List.length ds))).
  { intros W img lang s bs s' X.
    destruct (@image_extract_returned W img lang s s' bs X) as [ds [Hds D]].
    destruct (Hids _ _ D) as [Hnd [Hnum Hmap]].
    split; [exact Hnd|]. exists ds.
    split; [exact Hds|]. split; [exact D|]. split; [exact Hnum | exact Hmap]. }
  assert (Hnative : forall pg,
             exists ns, map id (native_blocks 0 (get_text_blocks pg)) = map native_id ns /\
                        StronglySorted lt ns /\ Forall (fun n => (1 <= n)%nat) ns).
  { intros pg.
    destruct (native_blocks_ids 0 (get_text_blocks pg)) as [ns [E [Hs Hgt]]].
    exists ns. split; [exact E|]. split; [exact Hs|].
    eapply Forall_impl; [|exact Hgt]. intros n Hn. exact Hn. }
  split.
  { intros W enable_ocr lang pg s bs s'. unfold pdf_page_extract.
    destruct (enable_ocr && (List.length (native_blocks 0 (get_text_blocks pg)) =? 0)%nat).
    - unfold bind.
      destruct (_ocr_page W pg lang s) as [[[|b obs]|x] s0] eqn:O; [| |discriminate];
        unfold ret; intros H; pair_inv H.
      + split; [apply native_ids_NoDup|]. left. split; [reflexivity | apply Hnative].
      + destruct (@ocr_page_returned W pg lang s s' b obs O) as [img [s1 [ds [R [Hret D]]]]].
        destruct (Hids _ _ D) as [Hnd [Hnum Hmap]].
        split; [exact Hnd|]. right. exists img, s1, ds.
        split; [exact R|]. split; [exact Hret|]. split; [exact D|].
        split; [exact Hnum | exact Hmap].
    - unfold ret. intros H; pair_inv H.
      split; [apply native_ids_NoDup|]. left. split; [reflexivity | apply Hnative]. }
  split; [exact Himg|]. split.
  - intros W s path did enable_ocr lang doc s' H.
    destruct (process_pdf_inv (P := fun _ => True) _ _ _ _ (engines_sat_True W s) H)
      as [pdf [_ [_ [_ Hps]]]].
    clear H. induction Hps as [|pg p pdf ps Hp Hps IH]; constructor; [|exact IH].
    destruct Hp as [bs [s0 [s1 [_ [Hsrc ->]]]]].
    apply sort_blocks_ids_NoDup. eapply page_source_ids, Hsrc.
  - intros W s path did lang doc s' H.
    destruct (process_image_inv (P := fun _ => True) _ _ _ (engines_sat_True W s) H)
      as [img [bs [_ [X [_ [_ [_ Hp]]]]]]].
    rewrite Hp. constructor; [|constructor]. cbn [blocks].
    apply sort_blocks_ids_NoDup. apply (Himg _ _ _ _ _ _ X).
Qed.

Lemma C8_block_ids_witness :
  (exists bs s',
      pdf_page_extract Demo.scan_world true Demo.en Demo.scanned_page
        initial_state = (Ok bs, s') /\
      map id bs = [ocr_id 1; ocr_id 2] /\
      map text bs = [lit "Total"; lit "Invoice"] /\
      NoDup (map id bs)) /\
  (engine_returned Demo.scan_world Demo.en initial_state Demo.image
     [Demo.det_total; Demo.det_invoice] /\
   exists bs s',
      image_extract Demo.scan_world Demo.image Demo.en initial_state = (Ok bs, s') /\
      map id bs = [ocr_id 1; ocr_id 2] /\
      map text bs = [lit "Total"; lit "Invoice"] /\
      NoDup (map id bs) /\
      exists ds, (ds = [] \/
                  engine_returned Demo.scan_world Demo.en initial_state Demo.image ds) /\
                 detection_blocks 0 ds = Ok bs /\
                 numbered_as_returned ds bs /\
                 map id bs = map ocr_id (seq 1 (List.length ds))) /\
  (exists doc s',
      process_pdf_to_layout_json Demo.scan_world Demo.pdf_path None true Demo.en
        initial_state = (Ok doc, s') /\
      Forall (fun p => NoDup (map id (blocks p))) (pages doc)) /\
  (exists doc s',
      process_image_to_layout_json Demo.scan_world Demo.image_path None Demo.en
        initial_state = (Ok doc, s') /\
      Forall (fun p => NoDup (map id (blocks p))) (pages doc)).
Proof.
  split; [|split; [|split]].
  - eexists. eexists. split; [vm_compute; reflexivity|].
    split; [reflexivity|]. split; [reflexivity|].
    refine (proj1 (proj1 C8_block_ids Demo.scan_world true Demo.en Demo.scanned_page
                     initial_state _ _ _)).
    vm_compute; reflexivity.
  - split.
    + left. exists (Demo.paddle_reports [Demo.det_total; Demo.det_invoice]), [].
      split; [split; [reflexivity | right; split; reflexivity]|].
      split; [reflexivity | discriminate].
    + eexists. eexists. split; [vm_compute; reflexivity|].
      split; [reflexivity|]. split; [reflexivity|].
      refine (proj1 (proj2 C8_block_ids) Demo.scan_world Demo.image Demo.en
                initial_state _ _ _).
      vm_compute; reflexivity.
  - eexists. eexists. split; [vm_compute; reflexivity|].
    refine (proj1 (proj2 (proj2 C8_block_ids)) Demo.scan_world initial_state
              Demo.pdf_path None true Demo.en _ _ _).
    vm_compute; reflexivity.
  - eexists. eexists. split; [vm_compute; reflexivity|].
    refine (proj2 (proj2 (proj2 C8_block_ids)) Demo.scan_world initial_state
              Demo.image_path None Demo.en _ _ _).
    vm_compute; reflexivity.
Defined.

(** C10. A caller who passes the empty string as [document_id] gets the
    stem of the source file name as the document id, in both entry
    points, as does a caller who passes nothing: the fallback is taken
    for every falsy [document_id], and a non-empty one is kept. *)
Theorem C10_empty_document_id :
  (forall W path did enable_ocr lang s doc s',
      did = None \/ did = Some [] ->
      process_pdf_to_layout_json W path did enable_ocr lang s = (Ok doc, s') ->
      document_id doc = path_stem W path) /\
  (forall W path did lang s doc s',
      did = None \/ did = Some [] ->
      process_image_to_layout_json W path did lang s = (Ok doc, s') ->
      document_id doc = path_stem W path) /\
  (forall W path c rest, doc_id_of W (Some (c :: rest)) path = c :: rest).
Proof.
  split; [|split].
  - intros W path did enable_ocr lang s doc s' Hd H.
    destruct (process_pdf_inv (P := fun _ => True) _ _ _ _ (engines_sat_True W s) H)
      as [pdf [_ [-> _]]].
    destruct Hd as [-> | ->]; reflexivity.
  - intros W path did lang s doc s' Hd H.
    destruct (process_image_inv (P := fun _ => True) _ _ _ (engines_sat_True W s) H)
      as [img [bs [_ [_ [_ [-> _]]]]]].
    destruct Hd as [-> | ->]; reflexivity.
  - reflexivity.
Qed.

Lemma C10_empty_document_id_witness :
  (exists doc s',
      process_pdf_to_layout_json Demo.hello_world Demo.pdf_path (Some []) true
        Demo.en initial_state = (Ok doc, s') /\
      document_id doc = lit "report") /\
  (exists doc s',
      process_image_to_layout_json Demo.scan_world Demo.image_path (Some [])
        Demo.en initial_state = (Ok doc, s') /\
      document_id doc = lit "scan").
Proof.
  split.
  - eexists. eexists. split; [vm_compute; reflexivity|].
    refine (proj1 C10_empty_document_id Demo.hello_world Demo.pdf_path (Some [])
              true Demo.en initial_state _ _ (or_intror eq_refl) _).
    vm_compute; reflexivity.
  - eexists. eexists. split; [vm_compute; reflexivity|].
    refine (proj1 (proj2 C10_empty_document_id) Demo.scan_world Demo.image_path
              (Some []) Demo.en initial_state _ _ (or_intror eq_refl) _).
    vm_compute; reflexivity.
Defined.

(** ** The calls into the OCR machinery *)

Section Calls.

Variable W : World.

Lemma get_paddle_calls (s s' : State) (r : Result (option PaddleEngine)) :
  _get_paddle_ocr W s = (r, s') ->
  exists new, calls s' = calls s ++ new /\ Forall engine_call new.
Proof.
  unfold _get_paddle_ocr. unfold_monad.
  destruct (_paddle_ocr s).
  - intros H; pair_inv H. exists []. split; [symmetry; apply app_nil_r | constructor].
  - destruct (PADDLE_AVAILABLE W).
    + destruct (PaddleOCR W (lit "en")); intros H; pair_inv H;
        exists [PaddleInit (lit "en")]; (split; [reflexivity|]);
        repeat constructor.
    + intros H; pair_inv H. exists []. split; [symmetry; apply app_nil_r | constructor].
Qed.

Lemma get_easy_calls (lang : pystr) (s s' : State) (r : Result (option EasyEngine)) :
  _get_easy_ocr W lang s = (r, s') ->
  exists new, calls s' = calls s ++ new /\ Forall engine_call new.
Proof.
  unfold _get_easy_ocr. unfold_monad.
  destruct (_easy_ocr s).
  - intros H; pair_inv H. exists []. split; [symmetry; apply app_nil_r | constructor].
  - destruct (EASYOCR_AVAILABLE W).
    + destruct (easyocr_Reader W [lang]); intros H; pair_inv H;
        exists [EasyInit lang]; (split; [reflexivity|]);
        repeat constructor.
    + intros H; pair_inv H. exists []. split; [symmetry; apply app_nil_r | constructor].
Qed.

Lemma calls_more (s0 s1 : State) (new : list Call) (c : Call) :
  calls s1 = calls s0 ++ new -> Forall engine_call new -> engine_call c ->
  exists new',
    calls s1 ++ [c] = calls s0 ++ new' /\ Forall engine_call new'.
Proof.
  intros E Hn Hc. exists (new ++ [c]). rewrite E, app_assoc. split; [reflexivity|].
  apply Forall_app. split; [exact Hn | repeat constructor; exact Hc].
Qed.

Lemma ocr_page_paddle_calls (img : Image) (s s' : State)
    (r : Result (option (list Block))) :
  ocr_page_paddle W img s = (r, s') ->
  exists new, calls s' = calls s ++ new /\ Forall engine_call new.
Proof.
  unfold ocr_page_paddle.
  destruct (PADDLE_AVAILABLE W).
  - unfold bind at 1.
    destruct (_get_paddle_ocr W s) as [r0 s0] eqn:G.
    destruct (get_paddle_calls _ G) as [new [E Hn]].
    destruct r0 as [[engine|]|x].
    + unfold_monad.
      destruct (engine img) as [result|x].
      * destruct result as [|[[|d ds]|] rest];
          try destruct (detection_blocks 0 (d :: ds));
          intros H; pair_inv H; cbn [calls]; (eapply calls_more; [eassumption | assumption | exact I]).
      * intros H; pair_inv H; cbn [calls]; (eapply calls_more; [eassumption | assumption | exact I]).
    + unfold_monad. intros H; pair_inv H. exists new. split; assumption.
    + intros H; pair_inv H. exists new. split; assumption.
  - unfold_monad. intros H; pair_inv H.
    exists []. split; [symmetry; apply app_nil_r | constructor].
Qed.

Lemma ocr_page_easy_calls (img : Image) (lang : pystr) (s s' : State)
    (r : Result (list Block)) :
  ocr_page_easy W img lang s = (r, s') ->
  exists new, calls s' = calls s ++ new /\ Forall engine_call new.
Proof.
  unfold ocr_page_easy.
  destruct (EASYOCR_AVAILABLE W).
  - unfold bind at 1.
    destruct (_get_easy_ocr W lang s) as [r0 s0] eqn:G.
    destruct (get_easy_calls _ _ G) as [new [E Hn]].
    destruct r0 as [[reader|]|x].
    + unfold_monad.
      destruct (reader img) as [result|x];
        intros H; pair_inv H; cbn [calls]; (eapply calls_more; [eassumption | assumption | exact I]).
    + unfold_monad. intros H; pair_inv H. exists new. split; assumption.
    + intros H; pair_inv H. exists new. split; assumption.
  - unfold_monad. intros H; pair_inv H.
    exists []. split; [symmetry; apply app_nil_r | constructor].
Qed.

(** [_ocr_page] renders the page first; what follows are engine calls. *)
Lemma ocr_page_calls (pg : PdfPage) (lang : pystr) (s s' : State)
    (r : Result (list Block)) :
  _ocr_page W pg lang s = (r, s') ->
  exists more, calls s' = calls s ++ GetPixmap :: more /\ Forall engine_call more.
Proof.
  unfold _ocr_page, try_except. unfold bind at 1.
  destruct (render_page W pg s) as [r0 s0] eqn:R.
  pose proof (render_page_state _ _ _ R) as ->.
  assert (Hstep : forall s1 new, calls s1 = (calls s ++ [GetPixmap]) ++ new ->
                    Forall engine_call new ->
                    exists more, calls s1 = calls s ++ GetPixmap :: more /\
                                 Forall engine_call more).
  { intros s1 new E Hn. exists new. rewrite E, <- app_assoc. split; [reflexivity | exact Hn]. }
  destruct r0 as [img|x].
  - unfold bind at 1.
    destruct (ocr_page_paddle W img _) as [r1 s1] eqn:Pd.
    destruct (ocr_page_paddle_calls _ _ Pd) as [new1 [E1 Hn1]]. cbn [calls] in E1.
    destruct r1 as [[bs|]|x].
    + unfold ret. intros H; pair_inv H. eapply Hstep; eassumption.
    + destruct (ocr_page_easy W img lang s1) as [r2 s2] eqn:Ez.
      destruct (ocr_page_easy_calls _ _ _ Ez) as [new2 [E2 Hn2]].
      assert (exists more, calls s2 = calls s ++ GetPixmap :: more /\
                           Forall engine_call more) as Hs2.
      { apply (Hstep s2 (new1 ++ new2)).
        - rewrite E2, E1, <- !app_assoc. reflexivity.
        - apply Forall_app. split; assumption. }
      destruct r2; intros H; pair_inv H; exact Hs2.
    + intros H; pair_inv H. eapply Hstep; eassumption.
  - intros H; pair_inv H. cbn [calls]. exists []. split; [reflexivity | constructor].
Qed.

Lemma pdf_page_extract_calls (enable_ocr : bool) (lang : pystr) (pg : PdfPage)
    (s s' : State) (r : Result (list Block)) :
  pdf_page_extract W enable_ocr lang pg s = (r, s') ->
  if needs_ocr enable_ocr pg
  then exists more, calls s' = calls s ++ GetPixmap :: more /\ Forall engine_call more
  else s' = s /\ r = Ok (native_blocks 0 (get_text_blocks pg)).
Proof.
  unfold pdf_page_extract, needs_ocr.
  destruct (enable_ocr && (List.length (native_blocks 0 (get_text_blocks pg)) =? 0)%nat).
  - unfold bind.
    destruct (_ocr_page W pg lang s) as [r0 s0] eqn:O.
    pose proof (ocr_page_calls _ _ _ O) as Hc.
    destruct r0 as [[|b bs]|x]; unfold ret; intros H; pair_inv H; exact Hc.
  - unfold ret. intros H; pair_inv H. split; reflexivity.
Qed.

End Calls.

Lemma engine_calls_no_pixmap (new : list Call) :
  Forall engine_call new -> filter is_pixmap new = [].
Proof.
  induction 1 as [|c new Hc _ IH]; [reflexivity|].
  destruct c; cbn in *; try exact IH. contradiction.
Qed.

Lemma engine_calls_lang (new : list Call) :
  Forall engine_call new -> Forall paddle_lang_en new.
Proof.
  apply Forall_impl. intros c Hc lang E. subst c. exact Hc.
Qed.

(** Over a whole document: one rendering for each page that needs OCR,
    and PaddleOCR built for ["en"] only. *)
Lemma pdf_pages_calls (W : World) (enable_ocr : bool) (lang : pystr)
    (pdf_doc : list PdfPage) :
  forall (n : nat) (s s' : State) (r : Result (list Page)),
  pdf_pages W enable_ocr lang n pdf_doc s = (r, s') ->
  exists new,
    calls s' = calls s ++ new /\
    List.length (filter is_pixmap new) =
      List.length (filter (needs_ocr enable_ocr) pdf_doc) /\
    Forall paddle_lang_en new.
Proof.
  induction pdf_doc as [|pg rest IH]; intros n s s' r; cbn [pdf_pages].
  - unfold ret. intros H; pair_inv H.
    exists []. split; [symmetry; apply app_nil_r|]. split; [reflexivity | constructor].
  - unfold bind at 1. unfold pdf_page. unfold bind at 1.
    destruct (pdf_page_extract W enable_ocr lang pg s) as [r0 s0] eqn:X.
    destruct (pdf_page_extract_sat (P := fun _ => True) _ _ _ (engines_sat_True W s) X)
      as [_ [bs [-> _]]].
    pose proof (pdf_page_extract_calls _ _ _ _ _ X) as Hc.
    unfold ret at 1. unfold bind at 1.
    destruct (pdf_pages W enable_ocr lang (S n) rest s0) as [r1 s1] eqn:R.
    destruct (IH _ _ _ _ R) as [new1 [E1 [Hcount Hlang]]].
    assert (Hs1 : exists new,
               calls s1 = calls s ++ new /\
               List.length (filter is_pixmap new) =
                 List.length (filter (needs_ocr enable_ocr) (pg :: rest)) /\
               Forall paddle_lang_en new).
    { cbn [filter]. destruct (needs_ocr enable_ocr pg).
      - destruct Hc as [more [E0 Hm]].
        exists ((GetPixmap :: more) ++ new1). rewrite E1, E0, <- app_assoc.
        split; [reflexivity|]. split.
        + rewrite filter_app. cbn [filter is_pixmap].
          rewrite (engine_calls_no_pixmap Hm). cbn. rewrite Hcount. reflexivity.
        + apply Forall_app. split; [|exact Hlang].
          constructor; [discriminate | apply engine_calls_lang, Hm].
      - destruct Hc as [-> _]. exists new1. repeat split; assumption. }
    destruct r1; unfold ret; intros H; pair_inv H; exact Hs1.
Qed.

(** C4. For a page of a PDF, [_ocr_page] is called (the page is
    rendered for the engines) exactly when OCR is enabled and the
    native text extractor gave no block.  A page with native text makes
    no call into the OCR machinery and keeps its native blocks; with
    OCR disabled no call is made either, and a page without native
    blocks gets an empty block list.  Over a document the number of
    renderings is the number of pages that need OCR. *)
Theorem C4_ocr_only_when_needed :
  (forall W enable_ocr lang pg s r s',
      pdf_page_extract W enable_ocr lang pg s = (r, s') ->
      exists new,
        calls s' = calls s ++ new /\
        (In GetPixmap new <->
         enable_ocr = true /\ native_blocks 0 (get_text_blocks pg) = []) /\
        (new <> [] ->
         enable_ocr = true /\ native_blocks 0 (get_text_blocks pg) = []) /\
        (native_blocks 0 (get_text_blocks pg) <> [] ->
         s' = s /\ r = Ok (native_blocks 0 (get_text_blocks pg))) /\
        (enable_ocr = false ->
         s' = s /\ r = Ok (native_blocks 0 (get_text_blocks pg)))) /\
  (forall W path did enable_ocr lang s doc s',
      process_pdf_to_layout_json W path did enable_ocr lang s = (Ok doc, s') ->
      exists pdf new,
        fitz_open W path = Ok pdf /\
        calls s' = calls s ++ new /\
        List.length (filter is_pixmap new) =
          List.length (filter (needs_ocr enable_ocr) pdf)).
Proof.
  split.
  - intros W enable_ocr lang pg s r s' X.
    pose proof (pdf_page_extract_calls _ _ _ _ _ X) as Hc.
    unfold needs_ocr in Hc.
    destruct (native_blocks 0 (get_text_blocks pg)) as [|b bs] eqn:N.
    + destruct enable_ocr; cbn in Hc.
      * destruct Hc as [more [E Hm]]. exists (GetPixmap :: more).
        split; [exact E|]. split; [split; [tauto | intros _; left; reflexivity]|].
        split; [tauto|]. split; [congruence | discriminate].
      * destruct Hc as [-> ->]. exists [].
        split; [symmetry; apply app_nil_r|].
        split; [split; [contradiction | intros [? _]; discriminate]|].
        split; [congruence|]. split; [congruence | tauto].
    + replace (enable_ocr && (List.length (b :: bs) =? 0)%nat) with false in Hc
        by (destruct enable_ocr; reflexivity).
      destruct Hc as [-> ->]. exists [].
      split; [symmetry; apply app_nil_r|].
      split; [split; [contradiction | intros [_ ?]; discriminate]|].
      split; [congruence|]. split; tauto.
  - intros W path did enable_ocr lang s doc s'.
    unfold process_pdf_to_layout_json.
    destruct (PYMUPDF_AVAILABLE W); cbn [negb]; [|discriminate].
    unfold bind at 1. unfold lift.
    destruct (fitz_open W path) as [pdf|x]; [|discriminate]. unfold bind.
    destruct (pdf_pages W enable_ocr lang 0 pdf s) as [r1 s1] eqn:R.
    apply pdf_pages_calls in R. destruct R as [new [E [Hcount _]]].
    destruct r1; [|discriminate]. unfold ret. intros H; pair_inv H.
    exists pdf, new. repeat split; assumption.
Qed.

Lemma C4_ocr_only_when_needed_witness :
  (exists r s' new,
      pdf_page_extract Demo.scan_world true Demo.en Demo.hello_page initial_state
        = (r, s') /\
      calls s' = calls initial_state ++ new /\
      ~ In GetPixmap new) /\
  (exists r s' new,
      pdf_page_extract Demo.scan_world true Demo.en Demo.scanned_page initial_state
        = (r, s') /\
      calls s' = calls initial_state ++ new /\
      In GetPixmap new) /\
  (exists doc s' new,
      process_pdf_to_layout_json Demo.scan_world Demo.pdf_path None true Demo.en
        initial_state = (Ok doc, s') /\
      calls s' = calls initial_state ++ new /\
      List.length (filter is_pixmap new) = 2).
Proof.
  split; [|split].
  - destruct (proj1 C4_ocr_only_when_needed Demo.scan_world true Demo.en
                Demo.hello_page initial_state _ _ eq_refl)
      as [new [E [Hin _]]].
    eexists. eexists. exists new. split; [reflexivity|]. split; [exact E|].
    intros H. apply Hin in H. destruct H as [_ H]. vm_compute in H. discriminate.
  - destruct (proj1 C4_ocr_only_when_needed Demo.scan_world true Demo.en
                Demo.scanned_page initial_state _ _ eq_refl)
      as [new [E [Hin _]]].
    eexists. eexists. exists new. split; [reflexivity|]. split; [exact E|].
    apply Hin. split; reflexivity.
  - destruct (process_pdf_to_layout_json Demo.scan_world Demo.pdf_path None true
                Demo.en initial_state) as [[doc|x] s'] eqn:Hrun;
      [|vm_compute in Hrun; discriminate].
    destruct (proj2 C4_ocr_only_when_needed Demo.scan_world Demo.pdf_path None true
                Demo.en initial_state doc s' Hrun)
      as [pdf [new [Ho [E Hcount]]]].
    exists doc, s', new. split; [reflexivity|]. split; [exact E|].
    injection Ho as <-. exact Hcount.
Defined.

(** ** Failures of recognition *)

(** [_ocr_page] never raises: whatever the rendering, the constructors
    or the engines do, it returns a block list. *)
Lemma ocr_page_never_raises (W : World) (pg : PdfPage) (lang : pystr) (s : State) :
  exists bs s', _ocr_page W pg lang s = (Ok bs, s').
Proof.
  destruct (_ocr_page W pg lang s) as [r s'] eqn:O.
  destruct (ocr_page_sat (P := fun _ => True) _ _ (engines_sat_True W s) O)
    as [_ [bs [-> _]]].
  exists bs, s'. reflexivity.
Qed.

(** When PaddleOCR's recognition raises on the rendered page,
    [_ocr_page] returns no block (EasyOCR is not tried). *)
Lemma ocr_page_recognition_error (W : World) (pg : PdfPage) (lang : pystr)
    (s s0 : State) (img : Image) (e : PaddleEngine) (x : Exn) :
  paddle_ready W s e ->
  render_page W pg s = (Ok img, s0) ->
  e img = Raise x ->
  exists s', _ocr_page W pg lang s = (Ok [], s').
Proof.
  intros [Av Hready] R He.
  pose proof (render_page_state _ _ _ R) as Es0.
  unfold _ocr_page, try_except. unfold bind at 1. rewrite R.
  unfold bind at 1. unfold ocr_page_paddle. rewrite Av.
  unfold bind at 1. unfold _get_paddle_ocr. rewrite Av.
  assert (Hp : _paddle_ocr s0 = _paddle_ocr s) by (rewrite Es0; reflexivity).
  rewrite Hp.
  destruct Hready as [Hsome | [Hnone Hctor]].
  - rewrite Hsome. unfold_monad. rewrite He. eexists. reflexivity.
  - rewrite Hnone. unfold_monad. rewrite Hctor, He. eexists. reflexivity.
Qed.

(** Once the document is open, [process_pdf_to_layout_json] returns a
    layout with one page for every page of the document. *)
Lemma process_pdf_completes (W : World) (path : pystr) (did : option pystr)
    (enable_ocr : bool) (lang : pystr) (s : State) (pdf : list PdfPage) :
  PYMUPDF_AVAILABLE W = true -> fitz_open W path = Ok pdf ->
  exists doc s',
    process_pdf_to_layout_json W path did enable_ocr lang s = (Ok doc, s') /\
    List.length (pages doc) = List.length pdf.
Proof.
  intros Av Ho. unfold process_pdf_to_layout_json. rewrite Av. cbn [negb].
  unfold bind at 1. unfold lift. rewrite Ho. unfold bind.
  destruct (pdf_pages W enable_ocr lang 0 pdf s) as [r1 s1] eqn:R.
  destruct (@pdf_pages_sat (fun _ => True) W enable_ocr lang pdf 0 s s1 r1
              (engines_sat_True W s) R) as [_ [ps [-> Hps]]].
  unfold ret. eexists. eexists. split; [reflexivity|]. cbn [pages].
  symmetry. eapply Forall2_length, Hps.
Qed.

(** C2, at the failing input.  PaddleOCR is installed and its
    recognition raises on every image.  [process_pdf_to_layout_json]
    catches this inside [_ocr_page]: the scanned page gets an empty
    block list and the next page is processed.
    [process_image_to_layout_json] runs the same recognition without
    such a handler: the exception aborts the call. *)
Theorem C2_image_recognition_error_aborts :
  (exists s',
      process_image_to_layout_json Demo.failing_world Demo.image_path None Demo.en
        initial_state = (Raise (LibraryError 1), s')) /\
  (exists doc s',
      process_pdf_to_layout_json Demo.failing_world Demo.pdf_path None true Demo.en
        initial_state = (Ok doc, s') /\
      map (fun p => map id (blocks p)) (pages doc) = [[]; [native_id 1]]).
Proof.
  split.
  - eexists. vm_compute. reflexivity.
  - eexists. eexists. split; [vm_compute; reflexivity|]. reflexivity.
Qed.

(** ** The language parameter *)

Section Language.

Variable W : World.

Lemma get_paddle_ready (s : State) (e : PaddleEngine) :
  paddle_ready W s e ->
  exists s', _get_paddle_ocr W s = (Ok (Some e), s') /\ _paddle_ocr s' = Some e /\
             _easy_ocr s' = _easy_ocr s.
Proof.
  intros [Av [Hsome | [Hnone Hctor]]]; unfold _get_paddle_ocr.
  - rewrite Hsome. exists s. repeat split. exact Hsome.
  - rewrite Hnone, Av. unfold_monad. rewrite Hctor. eexists. repeat split.
Qed.

Lemma get_easy_built (lang : pystr) (s : State) (r : EasyEngine) :
  _easy_ocr s = Some r -> _get_easy_ocr W lang s = (Ok (Some r), s).
Proof. intros E. unfold _get_easy_ocr. rewrite E. reflexivity. Qed.

Lemma ocr_page_paddle_frame (img : Image) (s s' : State)
    (r : Result (option (list Block))) :
  ocr_page_paddle W img s = (r, s') -> _easy_ocr s' = _easy_ocr s.
Proof.
  unfold ocr_page_paddle.
  destruct (PADDLE_AVAILABLE W); [|unfold ret; intros H; pair_inv H; reflexivity].
  unfold bind at 1.
  destruct (_get_paddle_ocr W s) as [r0 s0] eqn:G.
  apply get_paddle_frame in G.
  destruct r0 as [[engine|]|x]; unfold_monad;
    [|intros H; pair_inv H; exact G | intros H; pair_inv H; exact G].
  destruct (engine img) as [[|[[|d ds]|] rest]|x];
    try destruct (detection_blocks 0 (d :: ds));
    intros H; pair_inv H; exact G.
Qed.

Lemma image_paddle_frame (img : Image) (s s' : State) (r : Result (list Block)) :
  image_paddle W img s = (r, s') -> _easy_ocr s' = _easy_ocr s.
Proof.
  unfold image_paddle.
  destruct (PADDLE_AVAILABLE W); [|unfold ret; intros H; pair_inv H; reflexivity].
  unfold bind at 1.
  destruct (_get_paddle_ocr W s) as [r0 s0] eqn:G.
  apply get_paddle_frame in G.
  destruct r0 as [[engine|]|x]; unfold_monad;
    [|intros H; pair_inv H; exact G | intros H; pair_inv H; exact G].
  destruct (engine img) as [[|[[|d ds]|] rest]|x];
    intros H; pair_inv H; exact G.
Qed.

Variables l1 l2 : pystr.

(** With the EasyOCR singleton built, its language argument is dead. *)
Lemma ocr_page_easy_built (img : Image) (s : State) (r : EasyEngine) :
  _easy_ocr s = Some r ->
  ocr_page_easy W img l1 s = ocr_page_easy W img l2 s /\
  _easy_ocr (snd (ocr_page_easy W img l1 s)) = Some r.
Proof.
  intros E. unfold ocr_page_easy.
  destruct (EASYOCR_AVAILABLE W); [|split; [reflexivity | exact E]].
  unfold bind. rewrite !(get_easy_built _ _ E).
  split; [reflexivity|]. unfold_monad.
  destruct (r img); exact E.
Qed.

Lemma ocr_page_built (pg : PdfPage) (s : State) (r : EasyEngine) :
  _easy_ocr s = Some r ->
  _ocr_page W pg l1 s = _ocr_page W pg l2 s /\
  _easy_ocr (snd (_ocr_page W pg l1 s)) = Some r.
Proof.
  intros E. unfold _ocr_page, try_except. unfold bind.
  destruct (render_page W pg s) as [r0 s0] eqn:R.
  pose proof (render_page_state _ _ _ R) as Es0.
  assert (E0 : _easy_ocr s0 = Some r) by (rewrite Es0; exact E).
  destruct r0 as [img|x]; [|split; [reflexivity | exact E0]].
  unfold bind.
  destruct (ocr_page_paddle W img s0) as [r1 s1] eqn:Pd.
  apply ocr_page_paddle_frame in Pd. rewrite E0 in Pd.
  destruct r1 as [[bs|]|x]; try (split; [reflexivity | exact Pd]).
  destruct (ocr_page_easy_built img _ Pd) as [Eq Hr]. rewrite <- Eq.
  split; [reflexivity|].
  destruct (ocr_page_easy W img l1 s1) as [[?|?] ?]; exact Hr.
Qed.

(** With PaddleOCR ready and finding a line, EasyOCR is not reached. *)
Lemma ocr_page_detected (pg : PdfPage) (s : State) (e : PaddleEngine) :
  paddle_ready W s e -> paddle_detects W e pg ->
  _ocr_page W pg l1 s = _ocr_page W pg l2 s /\
  paddle_ready W (snd (_ocr_page W pg l1 s)) e.
Proof.
  intros Hready Hdet. pose proof Hready as [Av _].
  unfold _ocr_page, try_except. unfold bind.
  destruct (render_page W pg s) as [r0 s0] eqn:R.
  pose proof (render_page_state _ _ _ R) as Es0.
  assert (Hready0 : paddle_ready W s0 e).
  { rewrite Es0. destruct Hready as [? Hr]. split; [assumption | exact Hr]. }
  destruct r0 as [img|x]; [|split; [reflexivity | exact Hready0]].
  destruct (Hdet _ _ _ R) as [d [ds [rest He]]].
  unfold bind. unfold ocr_page_paddle. rewrite Av.
  unfold bind.
  destruct (get_paddle_ready Hready0) as [s1 [G [Hp1 _]]]. rewrite G.
  unfold_monad. rewrite He.
  assert (Hready1 : paddle_ready W
            (mkState (_paddle_ocr s1) (_easy_ocr s1) (calls s1 ++ [PaddleRun])) e).
  { split; [exact Av | left; exact Hp1]. }
  destruct (detection_blocks 0 (d :: ds)); split; try reflexivity; exact Hready1.
Qed.

(** Two runs over the pages agree when the calls of [_ocr_page] agree
    and keep the reason why they do. *)
Lemma pdf_pages_agree (Inv : State -> Prop) (Good : PdfPage -> Prop)
    (enable_ocr : bool) :
  (forall pg s, Inv s -> Good pg -> needs_ocr enable_ocr pg = true ->
                _ocr_page W pg l1 s = _ocr_page W pg l2 s /\
                Inv (snd (_ocr_page W pg l1 s))) ->
  forall pdf n s, Inv s -> Forall Good pdf ->
    pdf_pages W enable_ocr l1 n pdf s = pdf_pages W enable_ocr l2 n pdf s.
Proof.
  intros Hagree. induction pdf as [|pg rest IH]; intros n s Hs Hg; [reflexivity|].
  inversion Hg as [|? ? Hpg Hrest]; subst.
  cbn [pdf_pages]. unfold bind. unfold pdf_page. unfold bind.
  unfold pdf_page_extract.
  change (enable_ocr && (List.length (native_blocks 0 (get_text_blocks pg)) =? 0)%nat)
    with (needs_ocr enable_ocr pg).
  destruct (needs_ocr enable_ocr pg) eqn:Need.
  - unfold bind.
    destruct (Hagree pg s Hs Hpg Need) as [Eq Hinv]. rewrite <- Eq.
    destruct (_ocr_page W pg l1 s) as [[[|b bs]|x] s0]; cbn [snd] in Hinv;
      unfold ret; [| |reflexivity].
    + rewrite (IH _ _ Hinv Hrest). reflexivity.
    + rewrite (IH _ _ Hinv Hrest). reflexivity.
  - unfold ret. rewrite (IH _ _ Hs Hrest). reflexivity.
Qed.

Lemma process_pdf_agree (Inv : State -> Prop) (Good : PdfPage -> Prop)
    (path : pystr) (did : option pystr) (enable_ocr : bool) (s : State) :
  (forall pg s, Inv s -> Good pg -> needs_ocr enable_ocr pg = true ->
                _ocr_page W pg l1 s = _ocr_page W pg l2 s /\
                Inv (snd (_ocr_page W pg l1 s))) ->
  Inv s ->
  (forall pdf, fitz_open W path = Ok pdf -> Forall Good pdf) ->
  process_pdf_to_layout_json W path did enable_ocr l1 s =
  process_pdf_to_layout_json W path did enable_ocr l2 s.
Proof.
  intros Hagree Hs Hg. unfold process_pdf_to_layout_json.
  destruct (negb (PYMUPDF_AVAILABLE W)); [reflexivity|].
  unfold bind. unfold lift.
  destruct (fitz_open W path) as [pdf|x]; [|reflexivity].
  rewrite (@pdf_pages_agree Inv Good enable_ocr Hagree pdf 0 s Hs (Hg pdf eq_refl)).
  reflexivity.
Qed.

Lemma image_extract_built (img : Image) (s : State) (r : EasyEngine) :
  _easy_ocr s = Some r ->
  image_extract W img l1 s = image_extract W img l2 s.
Proof.
  intros E. unfold image_extract, bind.
  destruct (image_paddle W img s) as [r0 s0] eqn:Pd.
  apply image_paddle_frame in Pd. rewrite E in Pd.
  destruct r0 as [[|b bs]|x]; try reflexivity.
  unfold image_easy.
  destruct (EASYOCR_AVAILABLE W); [|reflexivity].
  unfold bind. rewrite !(get_easy_built _ _ Pd). reflexivity.
Qed.

Lemma image_extract_detected (img : Image) (s : State) (e : PaddleEngine)
    (d : Detection) (ds : list Detection) (rest : list (option (list Detection))) :
  paddle_ready W s e -> e img = Ok (Some (d :: ds) :: rest) ->
  image_extract W img l1 s = image_extract W img l2 s.
Proof.
  intros Hready He. pose proof Hready as [Av _].
  unfold image_extract. unfold bind. unfold image_paddle. rewrite Av.
  unfold bind.
  destruct (get_paddle_ready Hready) as [s1 [G _]]. rewrite G.
  unfold_monad. rewrite He.
  destruct (detection_blocks 0 (d :: ds)) as [bs|x] eqn:D; [|reflexivity].
  apply detection_blocks_cons in D. destruct D as [b [bs' [-> _]]].
  reflexivity.
Qed.

End Language.

Lemma image_extract_calls (W : World) (img : Image) (lang : pystr) (s s' : State)
    (r : Result (list Block)) :
  image_extract W img lang s = (r, s') ->
  exists new, calls s' = calls s ++ new /\ Forall engine_call new.
Proof.
  assert (Hnil : forall s0, exists new, calls s0 = calls s0 ++ new /\
                                        Forall engine_call new).
  { intros s0. exists []. split; [symmetry; apply app_nil_r | constructor]. }
  unfold image_extract. unfold bind at 1.
  destruct (image_paddle W img s) as [r0 s0] eqn:Pd.
  assert (H0 : exists new, calls s0 = calls s ++ new /\ Forall engine_call new).
  { revert Pd. unfold image_paddle.
    destruct (PADDLE_AVAILABLE W); [|unfold ret; intros H; pair_inv H; apply Hnil].
    unfold bind at 1.
    destruct (_get_paddle_ocr W s) as [r1 s1] eqn:G.
    destruct (get_paddle_calls _ _ G) as [new [E Hn]].
    destruct r1 as [[engine|]|x]; unfold_monad;
      [|intros H; pair_inv H; exists new; split; assumption
       |intros H; pair_inv H; exists new; split; assumption].
    destruct (engine img) as [[|[[|d ds]|] rest]|x];
      intros H; pair_inv H; cbn [calls];
      (eapply calls_more; [eassumption | assumption | exact I]). }
  destruct H0 as [new0 [E0 Hn0]].
  destruct r0 as [bs|x]; [|intros H; pair_inv H; exists new0; split; assumption].
  unfold image_easy.
  destruct bs as [|b bs]; [|unfold ret; intros H; pair_inv H; exists new0; split; assumption].
  destruct (EASYOCR_AVAILABLE W);
    [|unfold ret; intros H; pair_inv H; exists new0; split; assumption].
  unfold bind at 1.
  destruct (_get_easy_ocr W lang s0) as [r1 s1] eqn:G.
  destruct (get_easy_calls _ _ _ G) as [new1 [E1 Hn1]].
  assert (H1 : exists new, calls s1 = calls s ++ new /\ Forall engine_call new).
  { exists (new0 ++ new1). rewrite E1, E0, app_assoc. split; [reflexivity|].
    apply Forall_app. split; assumption. }
  destruct H1 as [new [E Hn]].
  destruct r1 as [[reader|]|x]; unfold_monad;
    [|intros H; pair_inv H; exists new; split; assumption
     |intros H; pair_inv H; exists new; split; assumption].
  destruct (reader img) as [result|x];
    [destruct (detection_blocks 0 result)|];
    intros H; pair_inv H; cbn [calls];
    (eapply calls_more; [eassumption | assumption | exact I]).
Qed.

(** C9. PaddleOCR is only ever built for the language ["en"]: no call
    of either entry point builds it for another one.  Two runs from the
    same state that differ only in [ocr_lang] give the same result (and
    leave the same state) whenever PaddleOCR is available and finds at
    least one line on the image, or on every page for which OCR is
    consulted.  The language reaches EasyOCR alone, and only when its
    singleton is first built: once [_easy_ocr] holds a reader, the
    result does not depend on [ocr_lang] at all. *)
Theorem C9_ocr_lang :
  (forall W path did enable_ocr lang s r s',
      process_pdf_to_layout_json W path did enable_ocr lang s = (r, s') ->
      exists new, calls s' = calls s ++ new /\ Forall paddle_lang_en new) /\
  (forall W path did lang s r s',
      process_image_to_layout_json W path did lang s = (r, s') ->
      exists new, calls s' = calls s ++ new /\ Forall paddle_lang_en new) /\
  (forall W path did l1 l2 s img e d ds rest,
      cv2_imread W path = Some img ->
      paddle_ready W s e ->
      e img = Ok (Some (d :: ds) :: rest) ->
      process_image_to_layout_json W path did l1 s =
      process_image_to_layout_json W path did l2 s) /\
  (forall W path did enable_ocr l1 l2 s e,
      paddle_ready W s e ->
      (forall pdf, fitz_open W path = Ok pdf ->
                   Forall (fun pg => needs_ocr enable_ocr pg = true ->
                                     paddle_detects W e pg) pdf) ->
      process_pdf_to_layout_json W path did enable_ocr l1 s =
      process_pdf_to_layout_json W path did enable_ocr l2 s) /\
  (forall W path did l1 l2 s reader,
      _easy_ocr s = Some reader ->
      process_image_to_layout_json W path did l1 s =
      process_image_to_layout_json W path did l2 s) /\
  (forall W path did enable_ocr l1 l2 s reader,
      _easy_ocr s = Some reader ->
      process_pdf_to_layout_json W path did enable_ocr l1 s =
      process_pdf_to_layout_json W path did enable_ocr l2 s).
Proof.
  assert (Hnil : forall s0 : State,
             exists new, calls s0 = calls s0 ++ new /\ Forall paddle_lang_en new).
  { intros s0. exists []. split; [symmetry; apply app_nil_r | constructor]. }
  split; [|split; [|split; [|split; [|split]]]].
  - intros W path did enable_ocr lang s r s'.
    unfold process_pdf_to_layout_json.
    destruct (PYMUPDF_AVAILABLE W); cbn [negb];
      [|unfold raise; intros H; pair_inv H; apply Hnil].
    unfold bind at 1. unfold lift.
    destruct (fitz_open W path) as [pdf|x]; [|intros H; pair_inv H; apply Hnil].
    unfold bind.
    destruct (pdf_pages W enable_ocr lang 0 pdf s) as [r1 s1] eqn:R.
    apply pdf_pages_calls in R. destruct R as [new [E [_ Hl]]].
    destruct r1; unfold ret; intros H; pair_inv H; exists new; split; assumption.
  - intros W path did lang s r s'.
    unfold process_image_to_layout_json.
    destruct (cv2_imread W path) as [img|];
      [|unfold raise; intros H; pair_inv H; apply Hnil].
    unfold bind.
    destruct (image_extract W img lang s) as [r1 s1] eqn:X.
    apply image_extract_calls in X. destruct X as [new [E Hn]].
    apply engine_calls_lang in Hn.
    destruct r1; unfold ret; intros H; pair_inv H; exists new; split; assumption.
  - intros W path did l1 l2 s img e d ds rest Hi Hready He.
    unfold process_image_to_layout_json. rewrite Hi. unfold bind.
    rewrite (@image_extract_detected W l1 l2 img s e d ds rest Hready He). reflexivity.
  - intros W path did enable_ocr l1 l2 s e Hready Hdet.
    apply (@process_pdf_agree W l1 l2 (fun s0 => paddle_ready W s0 e)
             (fun pg => needs_ocr enable_ocr pg = true -> paddle_detects W e pg));
      [|exact Hready | exact Hdet].
    intros pg s0 Hs0 Hgood Hneed. apply ocr_page_detected; [exact Hs0 | exact (Hgood Hneed)].
  - intros W path did l1 l2 s reader E.
    unfold process_image_to_layout_json.
    destruct (cv2_imread W path) as [img|]; [|reflexivity].
    unfold bind. rewrite (@image_extract_built W l1 l2 img s reader E). reflexivity.
  - intros W path did enable_ocr l1 l2 s reader E.
    apply (@process_pdf_agree W l1 l2 (fun s0 => _easy_ocr s0 = Some reader)
             (fun _ => True));
      [|exact E | intros pdf _; apply Forall_forall; trivial].
    intros pg s0 Hs0 _ _. apply ocr_page_built. exact Hs0.
Qed.

Lemma C9_ocr_lang_witness :
  process_image_to_layout_json Demo.scan_world Demo.image_path None Demo.en
    initial_state =
  process_image_to_layout_json Demo.scan_world Demo.image_path None Demo.fr
    initial_state /\
  process_pdf_to_layout_json Demo.scan_world Demo.pdf_path None true Demo.en
    initial_state =
  process_pdf_to_layout_json Demo.scan_world Demo.pdf_path None true Demo.fr
    initial_state /\
  process_image_to_layout_json Demo.fallback_world Demo.image_path None Demo.en
    Demo.french_state =
  process_image_to_layout_json Demo.fallback_world Demo.image_path None Demo.fr
    Demo.french_state /\
  process_pdf_to_layout_json Demo.fallback_world Demo.pdf_path None true Demo.en
    Demo.french_state =
  process_pdf_to_layout_json Demo.fallback_world Demo.pdf_path None true Demo.fr
    Demo.french_state.
Proof.
  assert (Hready : paddle_ready Demo.scan_world initial_state
                     (Demo.paddle_reports [Demo.det_total; Demo.det_invoice])).
  { split; [reflexivity | right; split; reflexivity]. }
  split; [|split; [|split]].
  - exact (proj1 (proj2 (proj2 C9_ocr_lang)) Demo.scan_world Demo.image_path None
             Demo.en Demo.fr initial_state Demo.image _ _ _ _
             eq_refl Hready eq_refl).
  - refine (proj1 (proj2 (proj2 (proj2 C9_ocr_lang))) Demo.scan_world Demo.pdf_path
              None true Demo.en Demo.fr initial_state _ Hready _).
    intros pdf E. injection E as <-.
    repeat constructor; intros _ s img s' _; do 3 eexists; reflexivity.
  - exact (proj1 (proj2 (proj2 (proj2 (proj2 C9_ocr_lang)))) Demo.fallback_world
             Demo.image_path None Demo.en Demo.fr Demo.french_state _ eq_refl).
  - exact (proj2 (proj2 (proj2 (proj2 (proj2 C9_ocr_lang)))) Demo.fallback_world
             Demo.pdf_path None true Demo.en Demo.fr Demo.french_state _ eq_refl).
Defined.

(** The language does reach EasyOCR when its singleton is first built:
    from a fresh process the two languages give different layouts. *)
Example ocr_lang_reaches_first_reader :
  fst (process_image_to_layout_json Demo.fallback_world Demo.image_path None
         Demo.en initial_state) <>
  fst (process_image_to_layout_json Demo.fallback_world Demo.image_path None
         Demo.fr initial_state).
Proof. vm_compute. discriminate. Qed.

(** * Scenarios of the specification, run on the model *)

Example splitlines_crlf :
  splitlines (lit "ab" ++ [CR; LF] ++ lit "c" ++ [LF]) = [lit "ab"; lit "c"].
Proof. reflexivity. Qed.

Example splitlines_empty_lines :
  splitlines ([LF; LF] ++ lit "x") = [[]; []; lit "x"].
Proof. reflexivity. Qed.

Example strip_both_sides : strip (lit "  a b  ") = lit "a b".
Proof. reflexivity. Qed.

Example py_int_truncates : py_int (-7 # 2) = (-3)%Z /\ py_int (7 # 2) = 3%Z.
Proof. split; reflexivity. Qed.

Example clean_text_drops_blank_lines :
  spec_clean_text (lit " Hello " ++ [LF] ++ lit "   " ++ [LF] ++ lit "World")
  = lit "Hello" ++ [LF] ++ lit "World".
Proof. reflexivity. Qed.

(** A single-page PDF with the text run "Hello World" at
    [[10, 10, 100, 30]] gives exactly one block. *)
Example hello_world_layout :
  fst (process_pdf_to_layout_json Demo.hello_world Demo.pdf_path None true Demo.en
         initial_state)
  = Ok (mkDocument (lit "report") (lit "report.pdf") 1
          [mkPage 1 612 792
             [mkBlock (lit "b1") (lit "text") (mkBBox 10 10 100 30)
                (lit "Hello World") 1]]).
Proof. reflexivity. Qed.

(** A blank scanned page, OCR enabled, the engine finding nothing. *)
Example blank_scan_layout :
  fst (process_pdf_to_layout_json
         (Demo.world [Demo.scanned_page] (Some (Demo.paddle_reports [])) None)
         Demo.pdf_path None true Demo.en initial_state)
  = Ok (mkDocument (lit "report") (lit "report.pdf") 1 [mkPage 1 612 792 []]).
Proof. reflexivity. Qed.

(** The block at y = 10 comes before the block at y = 50, whatever the
    order the engine gave them in. *)
Example scan_layout_reading_order :
  exists doc s',
    process_image_to_layout_json Demo.scan_world Demo.image_path None Demo.en
      initial_state = (Ok doc, s') /\
    map (fun p => map text (blocks p)) (pages doc) = [[lit "Invoice"; lit "Total"]] /\
    map (fun p => map id (blocks p)) (pages doc) = [[ocr_id 2; ocr_id 1]].
Proof. eexists. eexists. split; [vm_compute; reflexivity|]. split; reflexivity. Qed.

(** * Further properties of the extraction *)

(** ** Bounding boxes of detections *)

Lemma fold_min_lower (rest : list Q) (x : Q) :
  Forall (fun y => (fold_left (fun m y => if Qlt_bool y m then y else m) rest x <= y)%Q)
         (x :: rest).
Proof.
  revert x. induction rest as [|y rest IH]; intros x; cbn [fold_left].
  - constructor; [apply Qle_refl | constructor].
  - destruct (Qlt_bool y x) eqn:E.
    + specialize (IH y). inversion IH as [|? ? Hy Hrest]; subst.
      constructor; [|constructor; assumption].
      eapply Qle_trans; [exact Hy | apply Qlt_bool_true, E].
    + specialize (IH x). inversion IH as [|? ? Hx Hrest]; subst.
      constructor; [exact Hx|]. constructor; [|exact Hrest].
      eapply Qle_trans; [exact Hx | apply Qlt_bool_false, E].
Qed.

Lemma fold_max_upper (rest : list Q) (x : Q) :
  Forall (fun y => (y <= fold_left (fun m y => if Qlt_bool m y then y else m) rest x)%Q)
         (x :: rest).
Proof.
  revert x. induction rest as [|y rest IH]; intros x; cbn [fold_left].
  - constructor; [apply Qle_refl | constructor].
  - destruct (Qlt_bool x y) eqn:E.
    + specialize (IH y). inversion IH as [|? ? Hy Hrest]; subst.
      constructor; [|constructor; assumption].
      eapply Qle_trans; [apply Qlt_bool_true, E | exact Hy].
    + specialize (IH x). inversion IH as [|? ? Hx Hrest]; subst.
      constructor; [exact Hx|]. constructor; [|exact Hrest].
      eapply Qle_trans; [apply Qlt_bool_false, E | exact Hx].
Qed.

Lemma py_min_lower (xs : list Q) (lo : Q) :
  py_min xs = Some lo -> Forall (fun y => (lo <= y)%Q) xs.
Proof.
  destruct xs as [|x rest]; [discriminate|]. cbn [py_min].
  intros E. injection E as <-. apply fold_min_lower.
Qed.

Lemma py_max_upper (xs : list Q) (hi : Q) :
  py_max xs = Some hi -> Forall (fun y => (y <= hi)%Q) xs.
Proof.
  destruct xs as [|x rest]; [discriminate|]. cbn [py_max].
  intros E. injection E as <-. apply fold_max_upper.
Qed.

(** The box of a polygon encloses every vertex of the polygon, and
    [min()] fails on the empty polygon only. *)
Theorem points_bbox_encloses :
  (forall pts bb, points_bbox pts = Ok bb -> Forall (encloses bb) pts) /\
  (forall pts, pts <> [] -> exists bb, points_bbox pts = Ok bb) /\
  points_bbox [] = Raise ValueError.
Proof.
  split; [|split; [|reflexivity]].
  - intros pts bb. unfold points_bbox.
    destruct (py_min (map fst pts)) as [x0|] eqn:Ex0; [|discriminate].
    destruct (py_min (map snd pts)) as [y0|] eqn:Ey0; [|discriminate].
    destruct (py_max (map fst pts)) as [x1|] eqn:Ex1; [|discriminate].
    destruct (py_max (map snd pts)) as [y1|] eqn:Ey1; [|discriminate].
    intros E. injection E as <-.
    apply py_min_lower in Ex0, Ey0. apply py_max_upper in Ex1, Ey1.
    rewrite Forall_forall in Ex0, Ey0, Ex1, Ey1.
    apply Forall_forall. intros p Hp. unfold encloses. cbn.
    pose proof (in_map fst _ _ Hp) as Hx. pose proof (in_map snd _ _ Hp) as Hy.
    repeat split; apply py_int_mono; auto.
  - intros [|p pts] Hne; [contradiction|]. unfold points_bbox. cbn.
    eexists. reflexivity.
Qed.

Lemma points_bbox_encloses_witness :
  exists bb, points_bbox (Demo.box (25 # 2) (251 # 5) 80 (619 # 10)) = Ok bb /\
             bb = mkBBox 12 50 80 61 /\
             Forall (encloses bb) (Demo.box (25 # 2) (251 # 5) 80 (619 # 10)).
Proof.
  eexists. split; [reflexivity|]. split; [reflexivity|].
  apply (proj1 points_bbox_encloses). reflexivity.
Defined.

(** The loop over the detections fails exactly when one of them has an
    empty polygon, and then with [ValueError]; otherwise it gives one
    block for each detection. *)
Theorem detection_blocks_all_or_nothing (i : nat) (ds : list Detection) :
  (Forall (fun d => det_points d <> []) ds ->
   exists bs, detection_blocks i ds = Ok bs /\ List.length bs = List.length ds) /\
  (Exists (fun d => det_points d = []) ds ->
   detection_blocks i ds = Raise ValueError).
Proof.
  split.
  - intros H. revert i. induction H as [|d ds Hd _ IH]; intros i.
    + exists []. split; reflexivity.
    + destruct (proj1 (proj2 points_bbox_encloses) _ Hd) as [bb Hbb].
      destruct (IH (S i)) as [bs [E L]].
      cbn [detection_blocks]. unfold detection_block. rewrite Hbb, E.
      eexists. split; [reflexivity|]. cbn. rewrite L. reflexivity.
  - intros H. revert i. induction ds as [|d ds IH]; intros i.
    + inversion H.
    + cbn [detection_blocks]. unfold detection_block.
      destruct (det_points d) as [|p pts] eqn:Ep.
      * reflexivity.
      * destruct (proj1 (proj2 points_bbox_encloses) (p :: pts)) as [bb Hbb];
          [discriminate|].
        rewrite Hbb. inversion H as [? ? Hd|? ? Hrest]; subst; [congruence|].
        rewrite (IH Hrest (S i)). reflexivity.
Qed.

Lemma detection_blocks_all_or_nothing_witness :
  (exists bs, detection_blocks 0 [Demo.det_total; Demo.det_invoice] = Ok bs /\
              List.length bs = 2) /\
  detection_blocks 0 [Demo.det_total; mkDetection [] (lit "x") 1] = Raise ValueError.
Proof.
  split.
  - apply (proj1 (detection_blocks_all_or_nothing 0 [Demo.det_total; Demo.det_invoice])).
    repeat constructor; discriminate.
  - apply (proj2 (detection_blocks_all_or_nothing 0
                    [Demo.det_total; mkDetection [] (lit "x") 1])).
    right. left. reflexivity.
Defined.

(** ** Native blocks and the raw blocks they come from *)

(** A block is emitted for a page exactly when it is built from one of
    the raw blocks of the page, and its id [b<n>] names the position
    [n] of that raw block (from 1): no fragment with content is lost,
    and none is invented. *)
Theorem native_blocks_positions (i : nat) (raw : list RawBlock) (b : Block) :
  In b (native_blocks i raw) <->
  exists k blk, nth_error raw k = Some blk /\
                native_block (i + k) blk = Some b /\
                id b = native_id (i + k + 1).
Proof.
  revert i. induction raw as [|blk0 raw IH]; intros i.
  - split; [contradiction|]. intros [k [blk [E _]]]. destruct k; discriminate.
  - cbn [native_blocks]. split.
    + intros Hin.
      assert (Hrest : In b (native_blocks (S i) raw) ->
                exists k blk, nth_error (blk0 :: raw) k = Some blk /\
                              native_block (i + k) blk = Some b /\
                              id b = native_id (i + k + 1)).
      { intros H. apply IH in H. destruct H as [k [blk [E [Hb Hid]]]].
        exists (S k), blk. replace (i + S k) with (S i + k) by lia.
        split; [exact E|]. split; assumption. }
      destruct (native_block i blk0) as [b0|] eqn:E0; [|exact (Hrest Hin)].
      destruct Hin as [<- | Hin]; [|exact (Hrest Hin)].
      exists 0, blk0. rewrite Nat.add_0_r. split; [reflexivity|]. split; [exact E0|].
      destruct (native_block_inv _ _ E0) as [? [? [? [? [? [_ [Hid _]]]]]]]. exact Hid.
    + intros [k [blk [E [Hb Hid]]]]. destruct k as [|k].
      * cbn in E. injection E as ->. rewrite Nat.add_0_r in Hb. rewrite Hb.
        left. reflexivity.
      * cbn in E.
        assert (Hin : In b (native_blocks (S i) raw)).
        { apply IH. exists k, blk. replace (S i + k) with (i + S k) by lia.
          split; [exact E|]. split; assumption. }
        destruct (native_block i blk0); [right|]; exact Hin.
Qed.

Lemma native_blocks_positions_witness :
  exists b, In b (native_blocks 0 [Short; Fragment 10 10 100 30 (lit "Hello World")])
            /\ id b = native_id 2.
Proof.
  eexists. split.
  - apply (proj2 (native_blocks_positions 0
                    [Short; Fragment 10 10 100 30 (lit "Hello World")] _)).
    exists 1, (Fragment 10 10 100 30 (lit "Hello World")).
    split; [reflexivity|]. split; reflexivity.
  - reflexivity.
Defined.

(** ** The reading order is canonical *)

(** The emitted order is the only arrangement of a page's blocks that
    is sorted by (top, left) and keeps blocks of equal key in
    extraction order; so a list already in reading order is left as it
    is, and sorting twice is sorting once. *)
Theorem reading_order_canonical :
  (forall l out,
      StronglySorted key_le out ->
      (forall k, with_key k out = with_key k l) ->
      out = sort_blocks l) /\
  (forall l, StronglySorted key_le l -> sort_blocks l = l) /\
  (forall l, sort_blocks (sort_blocks l) = sort_blocks l).
Proof.
  split; [exact stable_sort_unique|].
  assert (Hfix : forall l, StronglySorted key_le l -> sort_blocks l = l).
  { intros l Hl. symmetry. apply stable_sort_unique; [exact Hl | reflexivity]. }
  split; [exact Hfix|].
  intros l. apply Hfix, sort_blocks_sorted.
Qed.

Lemma reading_order_canonical_witness :
  sort_blocks [Demo.twin 1; Demo.twin 2] = [Demo.twin 1; Demo.twin 2].
Proof.
  apply (proj1 (proj2 reading_order_canonical)).
  repeat constructor; reflexivity.
Defined.

(** ** The cleaned text of a native block *)

Lemma splitlines_from_lines (n : nat) :
  forall s acc, List.length s <= n -> no_break acc ->
                Forall no_break (splitlines_from acc s).
Proof.
  induction n as [|n IH]; intros s acc Hlen Hacc.
  - destruct s; [|cbn in Hlen; lia]. cbn.
    destruct acc; constructor; [|constructor].
    apply Forall_rev. exact Hacc.
  - destruct s as [|c rest]; cbn [splitlines_from].
    + destruct acc; constructor; [|constructor]. apply Forall_rev. exact Hacc.
    + cbn in Hlen. destruct (islinebreak c) eqn:Ec.
      * constructor; [apply Forall_rev; exact Hacc|].
        destruct rest as [|c' rest'].
        -- apply IH; [cbn; lia | constructor].
        -- cbn in Hlen. destruct ((c =? CR)%N && (c' =? LF)%N).
           ++ apply IH; [lia | constructor].
           ++ apply IH; [cbn; lia | constructor].
      * apply IH; [lia|]. constructor; assumption.
Qed.

Lemma splitlines_no_break (s : pystr) : Forall no_break (splitlines s).
Proof. apply (splitlines_from_lines (n := List.length s)); [lia | constructor]. Qed.

Lemma splitlines_from_app (l : pystr) (acc rest : pystr) :
  no_break l ->
  splitlines_from acc (l ++ rest) = splitlines_from (rev l ++ acc) rest.
Proof.
  intros Hl. revert acc. induction Hl as [|c l Hc _ IH]; intros acc; [reflexivity|].
  cbn [app splitlines_from]. rewrite Hc, IH. cbn [rev]. rewrite <- app_assoc.
  reflexivity.
Qed.

(** Splitting what [join] put together gives the lines back. *)
Lemma splitlines_join (lines : list pystr) :
  Forall (fun l => l <> [] /\ no_break l) lines ->
  splitlines (join NL lines) = lines.
Proof.
  unfold splitlines. induction 1 as [|p lines [Hne Hnb] Hrest IH]; [reflexivity|].
  destruct lines as [|q more].
  - cbn [join]. rewrite <- (app_nil_r p) at 1.
    rewrite splitlines_from_app by exact Hnb. rewrite app_nil_r. cbn.
    destruct (rev p) eqn:E; [|rewrite <- E, rev_involutive; reflexivity].
    apply (f_equal (@rev N)) in E. rewrite rev_involutive in E. contradiction.
  - change (join NL (p :: q :: more)) with (p ++ LF :: join NL (q :: more)).
    rewrite splitlines_from_app by exact Hnb. rewrite app_nil_r.
    cbn [splitlines_from]. change (islinebreak LF) with true. cbv iota.
    rewrite rev_involutive. f_equal.
    destruct (join NL (q :: more)) as [|c' rest'] eqn:J; [|exact IH].
    rewrite <- IH. reflexivity.
Qed.

Lemma lstrip_suffix (s : pystr) :
  exists w, s = w ++ lstrip s /\ forallb isspace w = true.
Proof.
  induction s as [|c s [w [E Hw]]]; [exists []; split; reflexivity|].
  cbn [lstrip]. destruct (isspace c) eqn:Ec.
  - exists (c :: w). cbn. rewrite Ec, Hw. split; [f_equal; exact E | reflexivity].
  - exists []. split; reflexivity.
Qed.

Lemma lstrip_fixed (s : pystr) :
  (forall c rest, s = c :: rest -> isspace c = false) -> lstrip s = s.
Proof.
  destruct s as [|c rest]; [reflexivity|]. intros H. cbn.
  rewrite (H c rest eq_refl). reflexivity.
Qed.

Lemma lstrip_idem (s : pystr) : lstrip (lstrip s) = lstrip s.
Proof.
  apply lstrip_fixed. intros c rest E. exact (lstrip_head _ E).
Qed.

Lemma Forall_lstrip (Q : N -> Prop) (s : pystr) : Forall Q s -> Forall Q (lstrip s).
Proof.
  intros H. destruct (lstrip_suffix s) as [w [E _]]. rewrite E in H.
  apply Forall_app in H. apply H.
Qed.

Lemma Forall_strip (Q : N -> Prop) (s : pystr) : Forall Q s -> Forall Q (strip s).
Proof.
  intros H. unfold strip, rstrip.
  apply Forall_rev, Forall_lstrip, Forall_rev, Forall_lstrip, H.
Qed.

(** What [strip] returns, when it is not empty, is trimmed. *)
Lemma strip_trimmed (s : pystr) : strip s <> [] -> trimmed (strip s).
Proof.
  intros Hne. split; [exact Hne|]. unfold strip, rstrip in *.
  set (u := lstrip s) in *. set (v := lstrip (rev u)) in *.
  assert (Hv : lstrip v = v) by apply lstrip_idem.
  split; [|rewrite rev_involutive; exact Hv].
  apply lstrip_fixed. intros c rest E.
  destruct (lstrip_suffix (rev u)) as [w [Eu _]]. fold v in Eu.
  apply (f_equal (@rev N)) in Eu. rewrite rev_involutive, rev_app_distr, E in Eu.
  apply (lstrip_head s (rest := rest ++ rev w)). fold u. rewrite Eu. reflexivity.
Qed.

Lemma trimmed_strip (s : pystr) : trimmed s -> strip s = s.
Proof.
  intros [_ [Hl Hr]]. unfold strip, rstrip. rewrite Hl, Hr. apply rev_involutive.
Qed.

Lemma last_default (l : list pystr) (a b : pystr) :
  l <> [] -> last l a = last l b.
Proof.
  induction l as [|x l IH]; [contradiction|]. intros _.
  destruct l as [|y l]; [reflexivity|].
  change (last (y :: l) a = last (y :: l) b). apply IH. discriminate.
Qed.

Lemma last_In (l : list pystr) (d : pystr) : In (last l d) (d :: l).
Proof.
  induction l as [|x l IH]; [left; reflexivity|].
  destruct l as [|y l]; [right; left; reflexivity|].
  change (In (last (y :: l) d) (d :: x :: y :: l)).
  destruct IH as [E | Hin]; [left; exact E | right; right; exact Hin].
Qed.

Lemma join_last (sep p : pystr) (more : list pystr) :
  exists init, join sep (p :: more) = init ++ last more p.
Proof.
  revert p. induction more as [|q more IH]; intros p.
  - exists []. reflexivity.
  - destruct (IH q) as [init E].
    exists (p ++ sep ++ init).
    change (join sep (p :: q :: more)) with (p ++ sep ++ join sep (q :: more)).
    rewrite E, <- !app_assoc. do 3 f_equal.
    destruct more as [|r more]; [reflexivity|].
    change (last (q :: r :: more) p) with (last (r :: more) p).
    apply last_default. discriminate.
Qed.

Lemma join_trimmed (sep p : pystr) (more : list pystr) :
  Forall trimmed (p :: more) -> trimmed (join sep (p :: more)).
Proof.
  intros H. inversion H as [|? ? [Hne [Hl _]] Hmore]; subst.
  destruct p as [|c p']; [contradiction|].
  assert (Hc : isspace c = false) by (eapply lstrip_head; exact Hl).
  split; [destruct more; discriminate|]. split.
  - destruct more; cbn; rewrite Hc; reflexivity.
  - destruct (join_last sep (c :: p') more) as [init E]. rewrite E, rev_app_distr.
    assert (Hlast : trimmed (last more (c :: p'))).
    { rewrite Forall_forall in H. apply H, last_In. }
    destruct Hlast as [Hne' [_ Hr]].
    destruct (rev (last more (c :: p'))) as [|z zs] eqn:Ez.
    + apply (f_equal (@rev N)) in Ez. rewrite rev_involutive in Ez. contradiction.
    + cbn. rewrite (lstrip_head _ Hr). reflexivity.
Qed.

Lemma clean_lines_trimmed (raw : pystr) :
  Forall (fun ln => trimmed ln /\ no_break ln) (clean_lines raw).
Proof.
  rewrite clean_lines_spec. apply Forall_forall. intros ln Hin.
  apply filter_In in Hin. destruct Hin as [Hin Ht].
  apply in_map_iff in Hin. destruct Hin as [l [<- Hl]]. split.
  - apply strip_trimmed. apply truthy_not_nil. exact Ht.
  - apply Forall_strip.
    pose proof (splitlines_no_break raw) as H. rewrite Forall_forall in H.
    apply H. exact Hl.
Qed.

(** The text of a native block is in normal form: its lines are the
    cleaned lines of the fragment, each of them non-empty and without
    white space at either end; the text itself neither starts nor ends
    with white space; and cleaning it again changes nothing. *)
Theorem native_text_normal_form (i : nat) (x0 y0 x1 y1 : Q) (raw : pystr)
    (b : Block) :
  native_block i (Fragment x0 y0 x1 y1 raw) = Some b ->
  splitlines (text b) = clean_lines raw /\
  Forall (fun ln => ln <> [] /\ strip ln = ln) (splitlines (text b)) /\
  strip (text b) = text b /\
  spec_clean_text (text b) = text b.
Proof.
  unfold native_block. pose proof (clean_lines_trimmed raw) as Hc.
  destruct (clean_lines raw) as [|ln lns] eqn:E; [discriminate|].
  intros H.
  assert (Hb : text b = join NL (ln :: lns)) by (injection H as <-; reflexivity).
  rewrite Hb. clear H Hb.
  assert (Hsplit : splitlines (join NL (ln :: lns)) = ln :: lns).
  { apply splitlines_join. eapply Forall_impl; [|exact Hc].
    intros l [[Hne _] Hnb]. split; assumption. }
  assert (Hfix : Forall (fun l => l <> [] /\ strip l = l) (ln :: lns)).
  { eapply Forall_impl; [|exact Hc]. intros l [Ht _].
    split; [apply Ht | apply trimmed_strip, Ht]. }
  split; [exact Hsplit|]. split; [rewrite Hsplit; exact Hfix|]. split.
  - apply trimmed_strip, join_trimmed.
    eapply Forall_impl; [|exact Hc]. intros l [Ht _]. exact Ht.
  - unfold spec_clean_text. rewrite Hsplit. f_equal.
    clear -Hfix. induction Hfix as [|l ls [Hne Hs] _ IH]; [reflexivity|].
    cbn [map filter]. rewrite Hs.
    destruct l; [contradiction|]. cbn [truthy]. f_equal. exact IH.
Qed.

Lemma native_text_normal_form_witness :
  exists b,
    native_block 0 (Fragment 10 10 100 30
                      (lit "  Hello " ++ [CR; LF] ++ lit "   " ++ [LF] ++ lit " World"))
      = Some b /\
    splitlines (text b) = [lit "Hello"; lit "World"] /\
    strip (text b) = text b.
Proof.
  eexists. split; [reflexivity|].
  destruct (native_text_normal_form 0 10 10 100 30
              (lit "  Hello " ++ [CR; LF] ++ lit "   " ++ [LF] ++ lit " World")
              eq_refl) as [H1 [_ [H3 _]]].
  split; [exact H1 | exact H3].
Defined.

(** ** The shape of a PDF layout *)

Lemma pdf_pages_shape (W : World) (enable_ocr : bool) (lang : pystr)
    (pdf_doc : list PdfPage) :
  forall (n : nat) (s s' : State) (r : Result (list Page)),
  pdf_pages W enable_ocr lang n pdf_doc s = (r, s') ->
  exists ps,
    r = Ok ps /\
    map page ps = seq (n + 1) (List.length pdf_doc) /\
    map width ps = map (fun pg => py_int (rect_width pg)) pdf_doc /\
    map height ps = map (fun pg => py_int (rect_height pg)) pdf_doc.
Proof.
  induction pdf_doc as [|pg rest IH]; intros n s s' r; cbn [pdf_pages].
  - unfold ret. intros H; pair_inv H. exists []. repeat split.
  - unfold bind at 1. unfold pdf_page. unfold bind at 1.
    destruct (pdf_page_extract W enable_ocr lang pg s) as [r0 s0] eqn:X.
    destruct (pdf_page_extract_sat (P := fun _ => True) _ _ _ (engines_sat_True W s) X)
      as [_ [bs [-> _]]].
    unfold ret at 1. unfold bind at 1.
    destruct (pdf_pages W enable_ocr lang (S n) rest s0) as [r1 s1] eqn:R.
    destruct (IH _ _ _ _ R) as [ps [-> [Hp [Hw Hh]]]].
    unfold ret. intros H; pair_inv H. eexists. split; [reflexivity|].
    cbn [map page width height List.length seq]. rewrite Hp, Hw, Hh.
    repeat split; reflexivity.
Qed.

(** A PDF layout has one page for every page of the document, in the
    order of the document and numbered from 1; [num_pages] is their
    number; the page sizes are the truncated sizes of the page
    rectangles; [filename] is the name of the source file. *)
Theorem pdf_layout_shape (W : World) (path : pystr) (did : option pystr)
    (enable_ocr : bool) (lang : pystr) (s s' : State) (doc : Document) :
  process_pdf_to_layout_json W path did enable_ocr lang s = (Ok doc, s') ->
  exists pdf,
    fitz_open W path = Ok pdf /\
    num_pages doc = List.length pdf /\
    List.length (pages doc) = List.length pdf /\
    map page (pages doc) = seq 1 (List.length pdf) /\
    map width (pages doc) = map (fun pg => py_int (rect_width pg)) pdf /\
    map height (pages doc) = map (fun pg => py_int (rect_height pg)) pdf /\
    filename doc = path_name W path.
Proof.
  unfold process_pdf_to_layout_json.
  destruct (PYMUPDF_AVAILABLE W); cbn [negb]; [|discriminate].
  unfold bind at 1. unfold lift.
  destruct (fitz_open W path) as [pdf|x]; [|discriminate]. unfold bind.
  destruct (pdf_pages W enable_ocr lang 0 pdf s) as [r1 s1] eqn:R.
  destruct (pdf_pages_shape _ _ _ _ _ _ R) as [ps [-> [Hp [Hw Hh]]]].
  unfold ret. intros H; pair_inv H. exists pdf. cbn.
  assert (Hlen : List.length ps = List.length pdf).
  { rewrite <- (length_map page), Hp, length_seq. reflexivity. }
  rewrite Hlen. repeat split; assumption.
Qed.

Lemma pdf_layout_shape_witness :
  exists doc s',
    process_pdf_to_layout_json Demo.scan_world Demo.pdf_path None true Demo.en
      initial_state = (Ok doc, s') /\
    num_pages doc = 3 /\ map page (pages doc) = [1; 2; 3].
Proof.
  destruct (process_pdf_to_layout_json Demo.scan_world Demo.pdf_path None true
              Demo.en initial_state) as [[doc|x] s'] eqn:Hrun;
    [|vm_compute in Hrun; discriminate].
  destruct (pdf_layout_shape _ _ _ _ _ _ Hrun) as [pdf [Ho [Hn [_ [Hp _]]]]].
  injection Ho as <-. exists doc, s'. repeat split; assumption.
Defined.

(** ** Failures of the PDF entry point before any page *)



(** ** Documents that need no OCR *)

Lemma pdf_pages_native (W : World) (enable_ocr : bool) (lang : pystr)
    (pdf_doc : list PdfPage) :
  Forall (fun pg => needs_ocr enable_ocr pg = false) pdf_doc ->
  forall n s,
    pdf_pages W enable_ocr lang n pdf_doc s = (Ok (native_pages n pdf_doc), s).
Proof.
  induction 1 as [|pg rest Hpg _ IH]; intros n s; [reflexivity|].
  cbn [pdf_pages native_pages]. unfold bind at 1. unfold pdf_page. unfold bind at 1.
  unfold pdf_page_extract.
  change (enable_ocr && (List.length (native_blocks 0 (get_text_blocks pg)) =? 0)%nat)
    with (needs_ocr enable_ocr pg).
  rewrite Hpg. unfold ret at 1 2. unfold bind. rewrite IH. reflexivity.
Qed.

(** When OCR is disabled, or every page has native text, the layout is
    a function of the text layer alone: each page holds its native
    blocks in reading order, the state of the module is untouched, and
    neither the engines nor [ocr_lang] play any part. *)
Theorem pdf_without_ocr (W : World) (path : pystr) (did : option pystr)
    (enable_ocr : bool) (lang : pystr) (s : State) (pdf : list PdfPage) :
  PYMUPDF_AVAILABLE W = true ->
  fitz_open W path = Ok pdf ->
  enable_ocr = false \/
  Forall (fun pg => native_blocks 0 (get_text_blocks pg) <> []) pdf ->
  process_pdf_to_layout_json W path did enable_ocr lang s =
  (Ok {| document_id := doc_id_of W did path;
         filename := path_name W path;
         num_pages := List.length pdf;
         pages := native_pages 0 pdf |}, s).
Proof.
  intros Av Ho Hno.
  assert (Hneed : Forall (fun pg => needs_ocr enable_ocr pg = false) pdf).
  { destruct Hno as [-> | Hall]; [apply Forall_forall; reflexivity|].
    eapply Forall_impl; [|exact Hall]. intros pg Hpg. unfold needs_ocr.
    destruct (native_blocks 0 (get_text_blocks pg)) eqn:E; [congruence|].
    apply andb_false_r. }
  unfold process_pdf_to_layout_json. rewrite Av. cbn [negb].
  unfold bind at 1. unfold lift. rewrite Ho. unfold bind.
  rewrite (@pdf_pages_native W enable_ocr lang pdf Hneed 0 s). unfold ret. do 3 f_equal.
  clear. generalize 0. induction pdf as [|pg rest IH]; intros n; [reflexivity|].
  cbn. rewrite IH. reflexivity.
Qed.

Lemma pdf_without_ocr_witness :
  process_pdf_to_layout_json Demo.scan_world Demo.pdf_path None false Demo.fr
    initial_state
  = (Ok (mkDocument (lit "report") (lit "report.pdf") 3
           [mkPage 1 612 792 [];
            mkPage 2 612 792
              [mkBlock (lit "b1") (lit "text") (mkBBox 10 10 100 30)
                 (lit "Hello World") 1];
            mkPage 3 612 792 []]),
     initial_state).
Proof.
  exact (pdf_without_ocr Demo.scan_world Demo.pdf_path None Demo.fr initial_state
           eq_refl eq_refl (or_introl eq_refl)).
Defined.

(** ** Lazy singletons *)

Lemma lazy_step_refl (s : State) : lazy_step s s.
Proof.
  exists []. split; [symmetry; apply app_nil_r|].
  split; [split; trivial|]. split; constructor.
Qed.

Lemma lazy_step_trans (s0 s1 s2 : State) :
  lazy_step s0 s1 -> lazy_step s1 s2 -> lazy_step s0 s2.
Proof.
  intros [n1 [E1 [[Kp1 Ke1] [Hp1 He1]]]] [n2 [E2 [[Kp2 Ke2] [Hp2 He2]]]].
  exists (n1 ++ n2). split; [rewrite E2, E1, app_assoc; reflexivity|].
  split; [split; auto|]. split; intros Hs; apply Forall_app; split; auto.
  - apply Hp2. destruct (_paddle_ocr s0) as [e|]; [|congruence].
    rewrite (Kp1 e eq_refl). discriminate.
  - apply He2. destruct (_easy_ocr s0) as [r|]; [|congruence].
    rewrite (Ke1 r eq_refl). discriminate.
Qed.

Lemma lazy_ret {A} (a : A) : lazy (ret a).
Proof. intros s r s' H. pair_inv H. apply lazy_step_refl. Qed.

Lemma lazy_raise {A} (e : Exn) : lazy (@raise A e).
Proof. intros s r s' H. pair_inv H. apply lazy_step_refl. Qed.

Lemma lazy_lift {A} (x : Result A) : lazy (lift x).
Proof. intros s r s' H. pair_inv H. apply lazy_step_refl. Qed.

Lemma lazy_call {A} (c : Call) (x : Result A) :
  is_paddle_init c = false -> is_easy_init c = false -> lazy (call c x).
Proof.
  intros Hp He s r s' H. unfold call in H. pair_inv H.
  exists [c]. split; [reflexivity|]. split; [split; trivial|].
  split; intros _; repeat constructor; assumption.
Qed.

Lemma lazy_bind {A B} (m : M A) (k : A -> M B) :
  lazy m -> (forall a, lazy (k a)) -> lazy (bind m k).
Proof.
  intros Hm Hk s r s'. unfold bind.
  destruct (m s) as [[a|e] s1] eqn:E.
  - intros H. eapply lazy_step_trans; [eapply Hm, E | eapply Hk, H].
  - intros H. pair_inv H. eapply Hm, E.
Qed.

Lemma lazy_try_except {A} (m : M A) (a : A) : lazy m -> lazy (try_except m a).
Proof.
  intros Hm s r s'. unfold try_except.
  destruct (m s) as [[x|e] s1] eqn:E; intros H; pair_inv H; eapply Hm, E.
Qed.

Section Lazy.

Variable W : World.

Lemma lazy_get_paddle : lazy (_get_paddle_ocr W).
Proof.
  intros s r s'. unfold _get_paddle_ocr. unfold_monad.
  destruct (_paddle_ocr s) as [e|] eqn:Ep;
    [intros H; pair_inv H; apply lazy_step_refl|].
  destruct (PADDLE_AVAILABLE W); [|intros H; pair_inv H; apply lazy_step_refl].
  destruct (PaddleOCR W (lit "en")); intros H; pair_inv H;
    exists [PaddleInit (lit "en")]; (split; [reflexivity|]);
    (split; [split; cbn; [rewrite Ep; discriminate | trivial]|]);
    (split; [rewrite Ep; congruence | intros _; repeat constructor]).
Qed.

Lemma lazy_get_easy (lang : pystr) : lazy (_get_easy_ocr W lang).
Proof.
  intros s r s'. unfold _get_easy_ocr. unfold_monad.
  destruct (_easy_ocr s) as [e|] eqn:Ee;
    [intros H; pair_inv H; apply lazy_step_refl|].
  destruct (EASYOCR_AVAILABLE W); [|intros H; pair_inv H; apply lazy_step_refl].
  destruct (easyocr_Reader W [lang]); intros H; pair_inv H;
    exists [EasyInit lang]; (split; [reflexivity|]);
    (split; [split; cbn; [trivial | rewrite Ee; discriminate]|]);
    (split; [intros _; repeat constructor | rewrite Ee; congruence]).
Qed.

Lemma lazy_render_page (pg : PdfPage) : lazy (render_page W pg).
Proof.
  unfold render_page. apply lazy_bind; [apply lazy_call; reflexivity|].
  intros pix. apply lazy_bind; [apply lazy_lift|]. intros img.
  destruct (pix_n pix =? 4)%Z; [apply lazy_lift|].
  destruct (pix_n pix =? 1)%Z; [apply lazy_lift | apply lazy_ret].
Qed.

Lemma lazy_ocr_page_paddle (img : Image) : lazy (ocr_page_paddle W img).
Proof.
  unfold ocr_page_paddle. destruct (PADDLE_AVAILABLE W); [|apply lazy_ret].
  apply lazy_bind; [apply lazy_get_paddle|]. intros [engine|]; [|apply lazy_ret].
  apply lazy_bind; [apply lazy_call; reflexivity|].
  intros [|[[|d ds]|] rest]; try apply lazy_ret.
  apply lazy_bind; [apply lazy_lift|]. intros blocks. apply lazy_ret.
Qed.

Lemma lazy_ocr_page_easy (img : Image) (lang : pystr) :
  lazy (ocr_page_easy W img lang).
Proof.
  unfold ocr_page_easy. destruct (EASYOCR_AVAILABLE W); [|apply lazy_ret].
  apply lazy_bind; [apply lazy_get_easy|]. intros [reader|]; [|apply lazy_ret].
  apply lazy_bind; [apply lazy_call; reflexivity|]. intros result. apply lazy_lift.
Qed.

Lemma lazy_ocr_page (pg : PdfPage) (lang : pystr) : lazy (_ocr_page W pg lang).
Proof.
  unfold _ocr_page. apply lazy_try_except.
  apply lazy_bind; [apply lazy_render_page|]. intros img.
  apply lazy_bind; [apply lazy_ocr_page_paddle|].
  intros [blocks|]; [apply lazy_ret | apply lazy_ocr_page_easy].
Qed.

Lemma lazy_pdf_pages (enable_ocr : bool) (lang : pystr) (pdf_doc : list PdfPage) :
  forall n, lazy (pdf_pages W enable_ocr lang n pdf_doc).
Proof.
  induction pdf_doc as [|pg rest IH]; intros n; cbn [pdf_pages]; [apply lazy_ret|].
  apply lazy_bind.
  - unfold pdf_page. apply lazy_bind; [|intros; apply lazy_ret].
    unfold pdf_page_extract.
    destruct (enable_ocr && (List.length (native_blocks 0 (get_text_blocks pg)) =? 0)%nat);
      [|apply lazy_ret].
    apply lazy_bind; [apply lazy_ocr_page|]. intros [|b bs]; apply lazy_ret.
  - intros p. apply lazy_bind; [apply IH|]. intros ps. apply lazy_ret.
Qed.

Lemma lazy_process_pdf (path : pystr) (did : option pystr) (enable_ocr : bool)
    (lang : pystr) :
  lazy (process_pdf_to_layout_json W path did enable_ocr lang).
Proof.
  unfold process_pdf_to_layout_json.
  destruct (negb (PYMUPDF_AVAILABLE W)); [apply lazy_raise|].
  apply lazy_bind; [apply lazy_lift|]. intros pdf.
  apply lazy_bind; [apply lazy_pdf_pages|]. intros ps. apply lazy_ret.
Qed.

Lemma lazy_image_extract (img : Image) (lang : pystr) :
  lazy (image_extract W img lang).
Proof.
  unfold image_extract. apply lazy_bind.
  - unfold image_paddle. destruct (PADDLE_AVAILABLE W); [|apply lazy_ret].
    apply lazy_bind; [apply lazy_get_paddle|]. intros [engine|]; [|apply lazy_ret].
    apply lazy_bind; [apply lazy_call; reflexivity|].
    intros [|[[|d ds]|] rest]; try apply lazy_ret. apply lazy_lift.
  - intros blocks. unfold image_easy. destruct blocks; [|apply lazy_ret].
    destruct (EASYOCR_AVAILABLE W); [|apply lazy_ret].
    apply lazy_bind; [apply lazy_get_easy|]. intros [reader|]; [|apply lazy_ret].
    apply lazy_bind; [apply lazy_call; reflexivity|]. intros result.
    apply lazy_bind; [apply lazy_lift|]. intros more. apply lazy_ret.
Qed.

Lemma lazy_process_image (path : pystr) (did : option pystr) (lang : pystr) :
  lazy (process_image_to_layout_json W path did lang).
Proof.
  unfold process_image_to_layout_json.
  destruct (cv2_imread W path) as [img|]; [|apply lazy_raise].
  apply lazy_bind; [apply lazy_image_extract|]. intros blocks. apply lazy_ret.
Qed.

End Lazy.

(** The engines are process-wide singletons: whatever a call of either
    entry point does, and whether it returns or raises, an engine that
    existed before the call is the engine after it, and the calls made
    contain no construction of an engine that existed. *)
Theorem singletons_are_lazy (W : World) (s s' : State) :
  (forall path did enable_ocr lang r,
      process_pdf_to_layout_json W path did enable_ocr lang s = (r, s') ->
      lazy_step s s') /\
  (forall path did lang r,
      process_image_to_layout_json W path did lang s = (r, s') ->
      lazy_step s s').
Proof.
  split.
  - intros path did enable_ocr lang r H. eapply lazy_process_pdf, H.
  - intros path did lang r H. eapply lazy_process_image, H.
Qed.

Lemma singletons_are_lazy_witness :
  exists r s',
    process_image_to_layout_json Demo.fallback_world Demo.image_path None Demo.en
      Demo.french_state = (r, s') /\
    _easy_ocr s' = Some (Demo.easy_echo Demo.fr) /\
    calls s' = calls Demo.french_state ++ [EasyRun].
Proof.
  eexists. eexists. split; [reflexivity|].
  destruct (proj2 (singletons_are_lazy Demo.fallback_world Demo.french_state _)
              Demo.image_path None Demo.en _ eq_refl)
    as [new [E [[_ Ke] _]]].
  split; [apply Ke; reflexivity | reflexivity].
Defined.

(** ** One recognition, two error policies *)

(** [_ocr_page] is the recognition of the image entry point, run on
    the rendered page inside a handler: where [image_extract] returns
    blocks, [_ocr_page] returns the same blocks, and where it raises,
    [_ocr_page] returns no block; both leave the same state. *)
Theorem ocr_page_guards_image_extract (W : World) (pg : PdfPage) (lang : pystr)
    (s s0 : State) (img : Image) :
  render_page W pg s = (Ok img, s0) ->
  _ocr_page W pg lang s = try_except (image_extract W img lang) [] s0.
Proof.
  intros R. unfold _ocr_page, try_except. unfold bind at 1. rewrite R.
  rewrite ocr_stages_are_image_extract. reflexivity.
Qed.

Lemma ocr_page_guards_image_extract_witness :
  exists img s0,
    render_page Demo.failing_world Demo.scanned_page initial_state = (Ok img, s0) /\
    (exists x s', image_extract Demo.failing_world img Demo.en s0 = (Raise x, s') /\
                  _ocr_page Demo.failing_world Demo.scanned_page Demo.en initial_state
                  = (Ok [], s')).
Proof.
  eexists. eexists. split; [reflexivity|].
  eexists. eexists. split; [reflexivity|].
  rewrite (ocr_page_guards_image_extract Demo.failing_world Demo.scanned_page
             Demo.en initial_state eq_refl).
  reflexivity.
Defined.

(** ** The image entry point at its edges *)

(** An image that cannot be read makes [process_image_to_layout_json]
    raise [ValueError] before any engine is touched.  With no engine
    installed a readable image gives a layout of one page without
    blocks.  Every layout of an image has exactly one page, numbered 1,
    as wide as the image has columns and as high as it has rows. *)
Theorem image_layout_edges (W : World) (path : pystr) (did : option pystr)
    (lang : pystr) (s : State) :
  (cv2_imread W path = None ->
   process_image_to_layout_json W path did lang s = (Raise ValueError, s)) /\
  (forall img,
      cv2_imread W path = Some img ->
      PADDLE_AVAILABLE W = false -> EASYOCR_AVAILABLE W = false ->
      process_image_to_layout_json W path did lang s =
      (Ok {| document_id := doc_id_of W did path;
             filename := path_name W path;
             num_pages := 1;
             pages := [mkPage 1 (img_cols img) (img_rows img) []] |}, s)) /\
  (forall doc s',
      process_image_to_layout_json W path did lang s = (Ok doc, s') ->
      exists img bs,
        cv2_imread W path = Some img /\
        num_pages doc = 1 /\
        filename doc = path_name W path /\
        pages doc = [mkPage 1 (img_cols img) (img_rows img) bs]).
Proof.
  unfold process_image_to_layout_json. split; [|split].
  - intros ->. reflexivity.
  - intros img -> Hp He. unfold bind, image_extract, image_paddle, image_easy.
    rewrite Hp. unfold bind, ret. rewrite He. reflexivity.
  - intros doc s'. destruct (cv2_imread W path) as [img|]; [|discriminate].
    unfold bind.
    destruct (image_extract W img lang s) as [[bs|x] s1]; [|discriminate].
    unfold ret. intros H; pair_inv H. exists img, (sort_blocks bs). repeat split.
Qed.

Lemma image_layout_edges_witness :
  process_image_to_layout_json Demo.hello_world Demo.image_path None Demo.en
    initial_state
  = (Ok (mkDocument (lit "scan") (lit "scan.png") 1 [mkPage 1 3 2 []]),
     initial_state).
Proof.
  exact (proj1 (proj2 (image_layout_edges Demo.hello_world Demo.image_path None
                         Demo.en initial_state))
           Demo.image eq_refl eq_refl eq_refl).
Defined.

(** ** Which engine gives the blocks *)

(** When PaddleOCR finds a line on the image, the blocks are those of
    its lines and EasyOCR is neither built nor run.  When PaddleOCR is
    not installed, the blocks are those of EasyOCR's detections, from
    the reader that exists or, if none does, from one built for
    [ocr_lang].  No other call is made. *)
Theorem engine_selection (W : World) (img : Image) (lang : pystr) (s : State) :
  (forall e d ds rest,
      paddle_ready W s e ->
      e img = Ok (Some (d :: ds) :: rest) ->
      image_extract W img lang s =
      (detection_blocks 0 (d :: ds),
       mkState (Some e) (_easy_ocr s)
         (calls s ++ init_calls (_paddle_ocr s) (PaddleInit (lit "en"))
                  ++ [PaddleRun]))) /\
  (forall r ds,
      PADDLE_AVAILABLE W = false ->
      easy_ready W lang s r ->
      r img = Ok ds ->
      image_extract W img lang s =
      (detection_blocks 0 ds,
       mkState (_paddle_ocr s) (Some r)
         (calls s ++ init_calls (_easy_ocr s) (EasyInit lang) ++ [EasyRun]))).
Proof.
  split.
  - intros e d ds rest [Av Hready] He.
    unfold image_extract, image_paddle. rewrite Av. unfold bind at 1 2.
    unfold _get_paddle_ocr.
    destruct Hready as [Hsome | [Hnone Hctor]].
    + rewrite Hsome. unfold_monad. rewrite He, ?Hsome. cbn [init_calls app].
      destruct (detection_blocks 0 (d :: ds)) as [bs|x] eqn:D; [|reflexivity].
      destruct (detection_blocks_not_nil _ _ _ D) as [b [bs' ->]]. reflexivity.
    + rewrite Hnone, Av. unfold_monad. rewrite Hctor, He.
      cbn [init_calls calls _easy_ocr _paddle_ocr]. rewrite <- app_assoc. cbn [app].
      destruct (detection_blocks 0 (d :: ds)) as [bs|x] eqn:D; [|reflexivity].
      destruct (detection_blocks_not_nil _ _ _ D) as [b [bs' ->]]. reflexivity.
  - intros r ds Hp [Av Hready] Hr.
    unfold image_extract, image_paddle, image_easy. rewrite Hp.
    unfold bind at 1. unfold ret at 1. rewrite Av. unfold bind at 1.
    unfold _get_easy_ocr.
    destruct Hready as [Hsome | [Hnone Hctor]].
    + rewrite Hsome. unfold_monad. rewrite Hr, ?Hsome. cbn [init_calls app].
      destruct (detection_blocks 0 ds); reflexivity.
    + rewrite Hnone, Av. unfold_monad. rewrite Hctor, Hr.
      cbn [init_calls calls _easy_ocr _paddle_ocr]. rewrite <- app_assoc. cbn [app].
      destruct (detection_blocks 0 ds); reflexivity.
Qed.

Lemma engine_selection_witness :
  image_extract Demo.scan_world Demo.image Demo.fr initial_state =
  (detection_blocks 0 [Demo.det_total; Demo.det_invoice],
   mkState (Some (Demo.paddle_reports [Demo.det_total; Demo.det_invoice])) None
     [PaddleInit (lit "en"); PaddleRun]) /\
  image_extract Demo.fallback_world Demo.image Demo.fr initial_state =
  (detection_blocks 0 [mkDetection [(0, 0); (4, 0); (4, 2); (0, 2)]%Q Demo.fr (9 # 10)],
   mkState None (Some (Demo.easy_echo Demo.fr)) [EasyInit Demo.fr; EasyRun]).
Proof.
  split.
  - refine (proj1 (engine_selection Demo.scan_world Demo.image Demo.fr initial_state)
              _ _ _ [] _ eq_refl).
    split; [reflexivity | right; split; reflexivity].
  - refine (proj2 (engine_selection Demo.fallback_world Demo.image Demo.fr
                     initial_state) _ _ eq_refl _ eq_refl).
    split; [reflexivity | right; split; reflexivity].
Defined.

(** ** Pages that cannot be rendered *)

(** When the rendering of a page fails (the pixmap cannot be made, its
    buffer does not have the size of its shape, or the colour
    conversion raises), the page gets no OCR block, and no engine is
    built or run: the only call made is the rendering itself. *)
Theorem unrenderable_page (W : World) (pg : PdfPage) (lang : pystr)
    (s s0 : State) (x : Exn) :
  render_page W pg s = (Raise x, s0) ->
  _ocr_page W pg lang s =
    (Ok [], mkState (_paddle_ocr s) (_easy_ocr s) (calls s ++ [GetPixmap])) /\
  (needs_ocr true pg = true ->
   pdf_page_extract W true lang pg s =
     (Ok [], mkState (_paddle_ocr s) (_easy_ocr s) (calls s ++ [GetPixmap]))).
Proof.
  intros R. pose proof (render_page_state _ _ _ R) as Es0.
  assert (Ho : _ocr_page W pg lang s =
               (Ok [], mkState (_paddle_ocr s) (_easy_ocr s) (calls s ++ [GetPixmap]))).
  { unfold _ocr_page, try_except. unfold bind at 1. rewrite R, Es0. reflexivity. }
  split; [exact Ho|].
  intros Hneed. unfold pdf_page_extract.
  change (true && (List.length (native_blocks 0 (get_text_blocks pg)) =? 0)%nat)
    with (needs_ocr true pg).
  rewrite Hneed. unfold bind. rewrite Ho. unfold needs_ocr in Hneed.
  destruct (native_blocks 0 (get_text_blocks pg)); [reflexivity | discriminate].
Qed.

Lemma unrenderable_page_witness :
  pdf_page_extract Demo.scan_world true Demo.en
    (mkPdfPage 612 792 [] (Ok (mkPixmap [0%Z; 0%Z; 0%Z] 2 2 3))) initial_state
  = (Ok [], mkState None None [GetPixmap]).
Proof.
  refine (proj2 (unrenderable_page Demo.scan_world
                   (mkPdfPage 612 792 [] (Ok (mkPixmap [0%Z; 0%Z; 0%Z] 2 2 3)))
                   Demo.en initial_state (s0 := mkState None None [GetPixmap])
                   (x := ValueError) eq_refl) eq_refl).
Defined.

(** * The callers *)

(** ** File names and identifiers *)

Lemma str_eqb_eq (a b : pystr) : str_eqb a b = true <-> a = b.
Proof.
  revert b. induction a as [|x a IH]; intros [|y b]; cbn; split; try congruence.
  - intros E. apply andb_true_iff in E. destruct E as [Exy Eab].
    apply N.eqb_eq in Exy. apply IH in Eab. congruence.
  - intros E. injection E as -> ->. rewrite N.eqb_refl. apply IH. reflexivity.
Qed.

Lemma str_eqb_refl (a : pystr) : str_eqb a a = true.
Proof. apply str_eqb_eq. reflexivity. Qed.

Lemma str_eqb_neq (a b : pystr) : a <> b -> str_eqb a b = false.
Proof.
  intros Hne. destruct (str_eqb a b) eqn:E; [|reflexivity].
  apply str_eqb_eq in E. contradiction.
Qed.

Lemma hex_digits_length (n : nat) (v : N) (acc : pystr) :
  List.length (hex_digits n v acc) = n + List.length acc.
Proof.
  revert v acc. induction n as [|n IH]; intros v acc; [reflexivity|].
  cbn [hex_digits]. rewrite IH. cbn. lia.
Qed.

Lemma uuid_hex_length (v : N) : List.length (uuid_hex v) = 32.
Proof. unfold uuid_hex. rewrite hex_digits_length. reflexivity. Qed.

(** An identifier is never the empty string, so the processor uses it
    as the document id. *)
Lemma doc_id_of_uuid (W : World) (v : N) (path : pystr) :
  doc_id_of W (Some (uuid_hex v)) path = uuid_hex v.
Proof.
  pose proof (uuid_hex_length v) as L.
  destruct (uuid_hex v); [discriminate | reflexivity].
Qed.

(** ** The batch of the command line tool *)





Section Batch.

Variable W : World.
Variable H : Host.
Variable exists_error : pystr -> option Exn.
Variables (output_dir : pystr) (overwrite verbose : bool).



End Batch.



(** ** Engines built once *)

Lemma newly_set_refl {E} (a : option E) : newly_set a a = 0.
Proof. destruct a; reflexivity. Qed.

Lemma newly_set_trans {E} (a b c : option E) :
  (forall e, a = Some e -> b = Some e) ->
  (forall e, b = Some e -> c = Some e) ->
  newly_set a b + newly_set b c = newly_set a c.
Proof.
  intros Hab Hbc. destruct a as [x|].
  - rewrite (Hab x eq_refl), (Hbc x (Hab x eq_refl)). reflexivity.
  - destruct b as [y|]; [rewrite (Hbc y eq_refl); reflexivity|].
    destruct c; reflexivity.
Qed.

Lemma newly_set_le {E} (a b : option E) : newly_set a b <= 1.
Proof. destruct a, b; cbn; lia. Qed.

Lemma shared_step_refl (W : World) (lang : pystr) (s : State) :
  shared_step W lang s s.
Proof.
  exists []. split; [symmetry; apply app_nil_r|]. split; [split; trivial|].
  split; [constructor|]. rewrite !newly_set_refl. split; reflexivity.
Qed.

Lemma shared_step_trans (W : World) (lang : pystr) (s0 s1 s2 : State) :
  shared_step W lang s0 s1 -> shared_step W lang s1 s2 -> shared_step W lang s0 s2.
Proof.
  intros [n1 [E1 [[Kp1 Ke1] [C1 [P1 Q1]]]]] [n2 [E2 [[Kp2 Ke2] [C2 [P2 Q2]]]]].
  exists (n1 ++ n2). split; [rewrite E2, E1, app_assoc; reflexivity|].
  split; [split; auto|]. split; [apply Forall_app; split; assumption|].
  unfold count_calls in *. rewrite !filter_app, !length_app, P1, P2, Q1, Q2.
  split; apply newly_set_trans; assumption.
Qed.

(** When the constructors return, the engines built are the
    constructor calls: each constructor is called at most once. *)
Lemma shared_step_once (W : World) (lang : pystr) (s s' : State) (new : list Call) :
  shared_step W lang s s' -> calls s' = calls s ++ new ->
  (forall e, PaddleOCR W (lit "en") = Ok e -> count_calls is_paddle_init new <= 1) /\
  (forall r, easyocr_Reader W [lang] = Ok r -> count_calls is_easy_init new <= 1).
Proof.
  intros [new' [E [_ [C [P Q]]]]] E'. rewrite E in E'. apply app_inv_head in E'.
  subst new'. unfold count_calls in *. split.
  - intros e He.
    assert (Hf : filter is_paddle_init new = filter (paddle_built W) new).
    { clear P Q E. induction C as [|c cs Hc _ IH]; [reflexivity|]. cbn [filter].
      rewrite IH. destruct c as [|l| |l|]; try reflexivity.
      change (l = lit "en") in Hc. rewrite Hc.
      cbn [is_paddle_init paddle_built]. rewrite He. reflexivity. }
    rewrite Hf, P. apply newly_set_le.
  - intros r Hr.
    assert (Hf : filter is_easy_init new = filter (easy_built W) new).
    { clear P Q E. induction C as [|c cs Hc _ IH]; [reflexivity|]. cbn [filter].
      rewrite IH. destruct c as [|l| |l|]; try reflexivity.
      change (l = lang) in Hc. rewrite Hc.
      cbn [is_easy_init easy_built]. rewrite Hr. reflexivity. }
    rewrite Hf, Q. apply newly_set_le.
Qed.

Section Shared.

Variable W : World.
Variable lang : pystr.

Lemma shared_ret {A} (a : A) : shared W lang (ret a).
Proof. intros s r s' H. pair_inv H. apply shared_step_refl. Qed.

Lemma shared_raise {A} (e : Exn) : shared W lang (@raise A e).
Proof. intros s r s' H. pair_inv H. apply shared_step_refl. Qed.

Lemma shared_lift {A} (x : Result A) : shared W lang (lift x).
Proof. intros s r s' H. pair_inv H. apply shared_step_refl. Qed.

(** A call that constructs nothing. *)
Lemma shared_call {A} (c : Call) (x : Result A) :
  is_paddle_init c = false -> is_easy_init c = false -> shared W lang (call c x).
Proof.
  intros Hp He s r s' H. unfold call in H. pair_inv H.
  exists [c]. split; [reflexivity|]. split; [split; trivial|].
  cbn [_paddle_ocr _easy_ocr]. rewrite !newly_set_refl.
  destruct c; try discriminate; (split; [repeat constructor|]); split; reflexivity.
Qed.

Lemma shared_bind {A B} (m : M A) (k : A -> M B) :
  shared W lang m -> (forall a, shared W lang (k a)) -> shared W lang (bind m k).
Proof.
  intros Hm Hk s r s'. unfold bind.
  destruct (m s) as [[a|e] s1] eqn:E.
  - intros H. eapply shared_step_trans; [eapply Hm, E | eapply Hk, H].
  - intros H. pair_inv H. eapply Hm, E.
Qed.

Lemma shared_try_except {A} (m : M A) (a : A) :
  shared W lang m -> shared W lang (try_except m a).
Proof.
  intros Hm s r s'. unfold try_except.
  destruct (m s) as [[x|e] s1] eqn:E; intros H; pair_inv H; eapply Hm, E.
Qed.

Lemma shared_get_paddle : shared W lang (_get_paddle_ocr W).
Proof.
  intros s r s'. unfold _get_paddle_ocr. unfold_monad.
  destruct (_paddle_ocr s) as [e|] eqn:Ep;
    [intros H; pair_inv H; apply shared_step_refl|].
  destruct (PADDLE_AVAILABLE W); [|intros H; pair_inv H; apply shared_step_refl].
  destruct (PaddleOCR W (lit "en")) as [e|x] eqn:Ec; intros H; pair_inv H;
    exists [PaddleInit (lit "en")]; (split; [reflexivity|]);
    (split; [split; cbn; [rewrite Ep; discriminate | trivial]|]);
    (split; [repeat constructor|]);
    cbn [_paddle_ocr _easy_ocr]; rewrite Ep, !newly_set_refl;
    unfold count_calls; cbn [filter paddle_built easy_built]; rewrite Ec;
    split; reflexivity.
Qed.

Lemma shared_get_easy : shared W lang (_get_easy_ocr W lang).
Proof.
  intros s r s'. unfold _get_easy_ocr. unfold_monad.
  destruct (_easy_ocr s) as [e|] eqn:Ee;
    [intros H; pair_inv H; apply shared_step_refl|].
  destruct (EASYOCR_AVAILABLE W); [|intros H; pair_inv H; apply shared_step_refl].
  destruct (easyocr_Reader W [lang]) as [e|x] eqn:Ec; intros H; pair_inv H;
    exists [EasyInit lang]; (split; [reflexivity|]);
    (split; [split; cbn; [trivial | rewrite Ee; discriminate]|]);
    (split; [repeat constructor|]);
    cbn [_paddle_ocr _easy_ocr]; rewrite Ee, !newly_set_refl;
    unfold count_calls; cbn [filter paddle_built easy_built]; rewrite Ec;
    split; reflexivity.
Qed.

Lemma shared_render_page (pg : PdfPage) : shared W lang (render_page W pg).
Proof.
  unfold render_page. apply shared_bind; [apply shared_call; reflexivity|].
  intros pix. apply shared_bind; [apply shared_lift|]. intros img.
  destruct (pix_n pix =? 4)%Z; [apply shared_lift|].
  destruct (pix_n pix =? 1)%Z; [apply shared_lift | apply shared_ret].
Qed.

Lemma shared_ocr_page (pg : PdfPage) : shared W lang (_ocr_page W pg lang).
Proof.
  unfold _ocr_page. apply shared_try_except.
  apply shared_bind; [apply shared_render_page|]. intros img.
  apply shared_bind.
  - unfold ocr_page_paddle. destruct (PADDLE_AVAILABLE W); [|apply shared_ret].
    apply shared_bind; [apply shared_get_paddle|].
    intros [engine|]; [|apply shared_ret].
    apply shared_bind; [apply shared_call; reflexivity|].
    intros [|[[|d ds]|] rest]; try apply shared_ret.
    apply shared_bind; [apply shared_lift|]. intros blocks. apply shared_ret.
  - intros [blocks|]; [apply shared_ret|].
    unfold ocr_page_easy. destruct (EASYOCR_AVAILABLE W); [|apply shared_ret].
    apply shared_bind; [apply shared_get_easy|].
    intros [reader|]; [|apply shared_ret].
    apply shared_bind; [apply shared_call; reflexivity|]. intros result.
    apply shared_lift.
Qed.

Lemma shared_pdf_pages (enable_ocr : bool) (pdf_doc : list PdfPage) :
  forall n, shared W lang (pdf_pages W enable_ocr lang n pdf_doc).
Proof.
  induction pdf_doc as [|pg rest IH]; intros n; cbn [pdf_pages]; [apply shared_ret|].
  apply shared_bind.
  - unfold pdf_page. apply shared_bind; [|intros; apply shared_ret].
    unfold pdf_page_extract.
    destruct (enable_ocr && (List.length (native_blocks 0 (get_text_blocks pg)) =? 0)%nat);
      [|apply shared_ret].
    apply shared_bind; [apply shared_ocr_page|]. intros [|b bs]; apply shared_ret.
  - intros p. apply shared_bind; [apply IH|]. intros ps. apply shared_ret.
Qed.

Lemma shared_process_pdf (path : pystr) (did : option pystr) (enable_ocr : bool) :
  shared W lang (process_pdf_to_layout_json W path did enable_ocr lang).
Proof.
  unfold process_pdf_to_layout_json.
  destruct (negb (PYMUPDF_AVAILABLE W)); [apply shared_raise|].
  apply shared_bind; [apply shared_lift|]. intros pdf.
  apply shared_bind; [apply shared_pdf_pages|]. intros ps. apply shared_ret.
Qed.

End Shared.

(** ** What the batch writes and reports *)

Lemma put_file_exists (fs : Files) (p c q : pystr) :
  file_exists fs q = true -> file_exists (put_file fs p c) q = true.
Proof.
  unfold file_exists, put_file. destruct (str_eqb q p); [reflexivity | trivial].
Qed.

Lemma put_file_same (fs : Files) (p c : pystr) :
  file_exists (put_file fs p c) p = true.
Proof. unfold file_exists, put_file. rewrite str_eqb_refl. reflexivity. Qed.

Lemma put_file_other (fs : Files) (p c q : pystr) :
  q <> p -> put_file fs p c q = fs q.
Proof. intros Hne. unfold put_file. rewrite (str_eqb_neq Hne). reflexivity. Qed.

Lemma sound_line_mono (W : World) (H : Host) (output_dir : pystr)
    (st st' : Process) (lines : list Line) :
  (forall q, file_exists (files st) q = true -> file_exists (files st') q = true) ->
  Forall (sound_line W H output_dir st) lines ->
  Forall (sound_line W H output_dir st') lines.
Proof.
  intros Hmono. apply Forall_impl. intros [ | | | |input output doc_id n| ]; trivial.
  intros [Ho [Hex Hrest]]. split; [exact Ho|]. split; [apply Hmono, Hex | exact Hrest].
Qed.

(** The number of pages of a layout is the number of pages of the
    document as opened. *)
Lemma process_pdf_pages (W : World) (path : pystr) (did : option pystr)
    (enable_ocr : bool) (lang : pystr) (s s' : State) (doc : Document) :
  process_pdf_to_layout_json W path did enable_ocr lang s = (Ok doc, s') ->
  exists pdf, fitz_open W path = Ok pdf /\ List.length (pages doc) = List.length pdf.
Proof.
  intros Run.
  destruct (@process_pdf_inv (fun _ => True) W path did enable_ocr lang s s' doc
              (engines_sat_True W s) Run) as [pdf [Ho [_ [_ Hps]]]].
  exists pdf. split; [exact Ho|]. symmetry. eapply Forall2_length, Hps.
Qed.

Section Report.

Variable W : World.
Variable H : Host.
Variable exists_error : pystr -> option Exn.
Variables (output_dir : pystr) (overwrite verbose : bool).

(** One file of the batch: only its output file may change, no file
    disappears, the engines stay shared lazy singletons, and the
    success lines stay true. *)
Lemma process_one_report (n i : nat) (pdf_path : pystr) (st st' : Process)
    (r : Result unit) :
  Cli.process_one W H exists_error output_dir overwrite verbose n i pdf_path st
    = (r, st') ->
  drawn st' = S (drawn st) /\
  report_step W H output_dir
    (fun q => q = Cli.out_file_of W H output_dir pdf_path
                    (uuid_hex (uuid4 H (drawn st))))
    st st'.
Proof.
  unfold report_step, Cli.process_one, Cli.path_exists, draw_uuid.
  set (out_file := Cli.out_file_of W H output_dir pdf_path _).
  cbn [files].
  assert (Hnone : forall st0 : Process,
             files st0 = files st -> ocr st0 = ocr st -> stdout st0 = stdout st ->
             (forall q, ~ q = out_file -> files st0 q = files st q) /\
             (forall q, file_exists (files st) q = true ->
                        file_exists (files st0) q = true) /\
             lazy_step (ocr st) (ocr st0) /\
             shared_step W (lit "en") (ocr st) (ocr st0) /\
             (Forall (sound_line W H output_dir st) (stdout st) ->
              Forall (sound_line W H output_dir st0) (stdout st0))).
  { intros st0 Hf Hc Ho. rewrite Hc, Ho.
    split; [intros q _; rewrite Hf; reflexivity|].
    split; [intros q; rewrite Hf; trivial|].
    split; [apply lazy_step_refl|]. split; [apply shared_step_refl|].
    apply sound_line_mono. intros q; rewrite Hf; trivial. }
  destruct (exists_error out_file) as [e|];
    [intros Hr; pair_inv Hr; split; [reflexivity | apply Hnone; reflexivity]|].
  destruct (file_exists (files st) out_file && negb overwrite).
  - intros Hr; pair_inv Hr. destruct verbose; (split; [reflexivity|]);
      [|apply Hnone; reflexivity].
    cbn [print files ocr stdout].
    split; [reflexivity|]. split; [trivial|].
    split; [apply lazy_step_refl|]. split; [apply shared_step_refl|].
    intros Hs. apply Forall_app. split; [exact Hs | repeat constructor].
  - set (st2 := if verbose then print _ _ else _).
    assert (D2 : drawn st2 = S (drawn st)) by (unfold st2; destruct verbose; reflexivity).
    assert (F2 : files st2 = files st) by (unfold st2; destruct verbose; reflexivity).
    assert (C2 : ocr st2 = ocr st) by (unfold st2; destruct verbose; reflexivity).
    assert (S2 : Forall (sound_line W H output_dir st) (stdout st) ->
                 Forall (sound_line W H output_dir st) (stdout st2)).
    { unfold st2. destruct verbose; [|trivial]. intros Hs. cbn [print stdout].
      apply Forall_app. split; [exact Hs | repeat constructor]. }
    unfold run. rewrite C2.
    destruct (process_pdf_to_layout_json W pdf_path _ true (lit "en") (ocr st))
      as [[doc|e] s'] eqn:Run.
    + pose proof (lazy_process_pdf _ _ _ _ _ _ Run) as Hlazy.
      pose proof (@shared_process_pdf W (lit "en") pdf_path _ true _ _ _ Run) as Hshared.
      unfold write_file. cbn [ocr files drawn stdout stderr]. rewrite F2.
      destruct (write_outcome H out_file (json_dumps H doc)) as [|e|e partial];
        intros Hr; pair_inv Hr; cbn [print print_err files ocr stdout drawn];
        (split; [exact D2|]).
      * split; [intros q Hq; apply put_file_other, Hq|].
        split; [intros q; apply put_file_exists|]. split; [exact Hlazy|].
        split; [exact Hshared|].
        intros Hs. apply Forall_app. split.
        -- eapply sound_line_mono; [|apply S2, Hs].
           cbn [files]. intros q; apply put_file_exists.
        -- constructor; [|constructor]. cbn [sound_line files].
           split; [reflexivity|]. split; [apply put_file_same|].
           split; [apply uuid_hex_length|].
           apply process_pdf_pages in Run. destruct Run as [pdf [Ho Hl]].
           exists pdf. split; assumption.
      * split; [reflexivity|]. split; [trivial|].
        split; [exact Hlazy|]. split; [exact Hshared|].
        intros Hs. apply S2, Hs.
      * split; [intros q Hq; apply put_file_other, Hq|].
        split; [intros q; apply put_file_exists|]. split; [exact Hlazy|].
        split; [exact Hshared|].
        intros Hs. eapply sound_line_mono; [|apply S2, Hs].
        cbn [files]. intros q; apply put_file_exists.
    + pose proof (lazy_process_pdf _ _ _ _ _ _ Run) as Hlazy.
      pose proof (@shared_process_pdf W (lit "en") pdf_path _ true _ _ _ Run) as Hshared.
      intros Hr; pair_inv Hr. cbn [print_err files ocr stdout drawn].
      split; [exact D2|]. rewrite F2.
      split; [reflexivity|]. split; [trivial|]. split; [exact Hlazy|].
      split; [exact Hshared|].
      intros Hs. apply S2, Hs.
Qed.

Lemma process_all_report (n : nat) (pdfs : list pystr) :
  forall i st r st',
    Cli.process_all W H exists_error output_dir overwrite verbose n i pdfs st
      = (r, st') ->
    report_step W H output_dir
      (batch_output W H output_dir pdfs (drawn st) (List.length pdfs)) st st'.
Proof.
  induction pdfs as [|p rest IH]; intros i st r st'.
  - cbn. intros Hr; pair_inv Hr. split; [reflexivity|]. split; [trivial|].
    split; [apply lazy_step_refl|]. split; [apply shared_step_refl | trivial].
  - cbn [Cli.process_all].
    destruct (Cli.process_one W H exists_error output_dir overwrite verbose n i p st)
      as [r1 st1] eqn:E1.
    apply process_one_report in E1. destruct E1 as [D1 [F1 [M1 [L1 [C1 S1]]]]].
    assert (F1' : forall q,
               ~ batch_output W H output_dir (p :: rest) (drawn st)
                   (List.length (p :: rest)) q ->
               files st1 q = files st q).
    { intros q Hq. apply F1. intros ->. apply Hq. exists p, (drawn st).
      split; [left; reflexivity|]. split; [cbn; lia | reflexivity]. }
    destruct r1 as [u|e].
    + intros Hr. apply IH in Hr. destruct Hr as [F2 [M2 [L2 [C2 S2]]]].
      split; [|split; [auto | split; [eapply lazy_step_trans; eassumption|
               split; [eapply shared_step_trans; eassumption | auto]]]].
      intros q Hq. rewrite F2; [apply F1', Hq|].
      intros [p' [j [Hin [Hj E]]]]. apply Hq. exists p', j.
      split; [right; exact Hin|]. split; [cbn; lia | exact E].
    + intros Hr; pair_inv Hr.
      split; [exact F1'|]. split; [exact M1|]. split; [exact L1|].
      split; [exact C1 | exact S1].
Qed.

Lemma process_folder_report (input_dir : pystr) (st st' : Process) (r : Result unit) :
  Cli.process_folder W H exists_error input_dir output_dir overwrite verbose st
    = (r, st') ->
  report_step W H output_dir
    (batch_output W H output_dir (sorted_pdfs H input_dir) (drawn st)
       (List.length (sorted_pdfs H input_dir))) st st'.
Proof.
  unfold Cli.process_folder.
  destruct (mkdir H output_dir) as [u|e].
  - destruct (sorted_pdfs H input_dir) as [|p rest].
    + intros Hr; pair_inv Hr. unfold report_step. cbn [print files ocr stdout].
      split; [reflexivity|]. split; [trivial|].
      split; [apply lazy_step_refl|]. split; [apply shared_step_refl|].
      intros Hs. apply Forall_app. split; [exact Hs | repeat constructor].
    + intros Hr. apply process_all_report in Hr.
      destruct Hr as [F [M [L [C S]]]]. cbn [print files ocr drawn stdout] in *.
      split; [exact F|]. split; [exact M|]. split; [exact L|]. split; [exact C|].
      intros Hs. apply S. apply Forall_app. split; [exact Hs | repeat constructor].
  - intros Hr; pair_inv Hr. split; [reflexivity|]. split; [trivial|].
    split; [apply lazy_step_refl|]. split; [apply shared_step_refl | trivial].
Qed.

End Report.

(** Over a whole batch, however it ends: the only files that can
    differ afterwards are output files
    [output_dir / <stem>_<identifier>.json] of the PDFs found, for the
    identifiers drawn during the batch; no file is removed; and the
    engines are shared by all the PDFs of the batch.  An engine that
    existed is kept and not built again; the engines built during the
    batch are those that fill a singleton that was empty, at most one
    of each kind; and a constructor that returns is called at most
    once in the whole batch.  (A constructor that raises builds
    nothing and is called again for the next scanned page.) *)
Theorem batch_touches_only_outputs (W : World) (H : Host)
    (exists_error : pystr -> option Exn)
    (input_dir output_dir : pystr) (overwrite verbose : bool)
    (st st' : Process) (r : Result unit) :
  Cli.process_folder W H exists_error input_dir output_dir overwrite verbose st
    = (r, st') ->
  (forall q,
      ~ batch_output W H output_dir (sorted_pdfs H input_dir) (drawn st)
          (List.length (sorted_pdfs H input_dir)) q ->
      files st' q = files st q) /\
  (forall q, file_exists (files st) q = true -> file_exists (files st') q = true) /\
  lazy_step (ocr st) (ocr st') /\
  shared_step W (lit "en") (ocr st) (ocr st') /\
  (forall new,
      calls (ocr st') = calls (ocr st) ++ new ->
      (forall e, PaddleOCR W (lit "en") = Ok e ->
                 count_calls is_paddle_init new <= 1) /\
      (forall rd, easyocr_Reader W [lit "en"] = Ok rd ->
                  count_calls is_easy_init new <= 1)).
Proof.
  intros Hrun. apply process_folder_report in Hrun.
  destruct Hrun as [F [M [L [C _]]]].
  split; [exact F|]. split; [exact M|]. split; [exact L|]. split; [exact C|].
  intros new Hnew. eapply shared_step_once; eassumption.
Qed.

Lemma batch_touches_only_outputs_witness :
  exists st',
    Cli.process_folder DemoHost.scans DemoHost.host DemoHost.exists_ok
      (lit "in") (lit "out") true false DemoHost.start = (Ok tt, st') /\
    successes (stdout st') = 2 /\
    calls (ocr st') =
      [GetPixmap; PaddleInit Demo.en; PaddleRun; GetPixmap; PaddleRun;
       GetPixmap; PaddleRun; GetPixmap; PaddleRun] /\
    count_calls is_paddle_init (calls (ocr st')) <= 1 /\
    files st' (lit "in/a.pdf") = files DemoHost.start (lit "in/a.pdf") /\
    file_exists (files st') (lit "out/a_00000000000000000000000000001000.json") = true.
Proof.
  eexists. split; [vm_compute; reflexivity|].
  split; [reflexivity|]. split; [reflexivity|].
  pose proof (@batch_touches_only_outputs DemoHost.scans DemoHost.host
                DemoHost.exists_ok (lit "in") (lit "out") true false
                DemoHost.start _ (Ok tt) ltac:(vm_compute; reflexivity))
    as [F [_ [_ [_ Once]]]].
  split; [|split; [|reflexivity]].
  - refine (proj1 (Once _ eq_refl) _ eq_refl).
  - apply F. intros [p [j [Hin [Hj E]]]].
    assert (Hj' : j = 0 \/ j = 1) by (cbn in Hj; lia).
    destruct Hin as [<- | [<- | []]]; destruct Hj' as [-> | ->];
      vm_compute in E; discriminate.
Defined.

(** Every success line the batch prints is true when the batch ends:
    the output file it names exists and is the output file of its
    input for its identifier, the document id is an identifier of 32
    hexadecimal digits, and the number of pages it reports is the
    number of pages of the PDF as opened. *)
Theorem batch_success_lines_are_sound (W : World) (H : Host)
    (exists_error : pystr -> option Exn)
    (input_dir output_dir : pystr) (overwrite verbose : bool)
    (st st' : Process) (r : Result unit) :
  Cli.process_folder W H exists_error input_dir output_dir overwrite verbose st
    = (r, st') ->
  Forall (sound_line W H output_dir st) (stdout st) ->
  Forall (sound_line W H output_dir st') (stdout st').
Proof.
  intros Hrun. apply process_folder_report in Hrun.
  destruct Hrun as [_ [_ [_ [_ S]]]]. exact S.
Qed.

Lemma batch_success_lines_are_sound_witness :
  exists st',
    Cli.process_folder DemoHost.world DemoHost.host DemoHost.exists_ok
      (lit "in") (lit "out") true false DemoHost.start = (Ok tt, st') /\
    stdout st' =
      [FoundPdfs 2;
       Success (lit "in/a.pdf") (lit "out/a_00000000000000000000000000001000.json")
         (lit "00000000000000000000000000001000") 2] /\
    Forall (sound_line DemoHost.world DemoHost.host (lit "out") st') (stdout st').
Proof.
  eexists. split; [vm_compute; reflexivity|]. split; [reflexivity|].
  refine (@batch_success_lines_are_sound DemoHost.world DemoHost.host
            DemoHost.exists_ok (lit "in") (lit "out") true false DemoHost.start _
            (Ok tt) _ _); [vm_compute; reflexivity | constructor].
Defined.

(** ** The HTTP handlers *)

Lemma remove_file_same (fs : Files) (p : pystr) : remove_file fs p p = None.
Proof. unfold remove_file. rewrite str_eqb_refl. reflexivity. Qed.

Lemma remove_file_other (fs : Files) (p q : pystr) :
  q <> p -> remove_file fs p q = fs q.
Proof. intros Hne. unfold remove_file. rewrite (str_eqb_neq Hne). reflexivity. Qed.

Lemma file_exists_false (fs : Files) (p : pystr) :
  file_exists fs p = false -> fs p = None.
Proof. unfold file_exists. destruct (fs p); [discriminate | reflexivity]. Qed.

(** The exception handler of the handlers leaves no file at the path. *)
Lemma cleanup_and_fail_gone (p : pystr) (st0 st : Process) :
  (forall q, q <> p -> files st q = files st0 q) ->
  fst (Api.cleanup_and_fail p st) = Api.HTTPException 500 /\
  upload_gone p st0 (snd (Api.cleanup_and_fail p st)) /\
  ocr (snd (Api.cleanup_and_fail p st)) = ocr st /\
  drawn (snd (Api.cleanup_and_fail p st)) = drawn st.
Proof.
  intros Hother. unfold Api.cleanup_and_fail, unlink, upload_gone.
  destruct (file_exists (files st) p) eqn:E; cbn [fst snd files ocr drawn].
  - split; [reflexivity|]. split; [|split; reflexivity]. split.
    + apply remove_file_same.
    + intros q Hq. rewrite remove_file_other by exact Hq. apply Hother, Hq.
  - split; [reflexivity|]. split; [|split; reflexivity]. split.
    + apply file_exists_false, E.
    + exact Hother.
Qed.

(** After storing the upload and running [m] on it, the handler
    answers and the upload is gone. *)
Lemma stored_upload_gone (H : Host) (p content : pystr) (m : M Document)
    (st0 st1 : Process) (reply : Api.Reply) (st' : Process) :
  files st1 = files st0 ->
  match write_file H p content st1 with
  | (Raise _, st) => Api.cleanup_and_fail p st
  | (Ok _, st) =>
      match run m st with
      | (Raise _, st) => Api.cleanup_and_fail p st
      | (Ok doc, st) =>
          match unlink p st with
          | (Raise _, st) => Api.cleanup_and_fail p st
          | (Ok _, st) => (Api.JSONResponse (json_dumps H doc), st)
          end
      end
  end = (reply, st') ->
  upload_gone p st0 st' /\
  drawn st' = drawn st1 /\
  (forall doc s',
      write_outcome H p content = Written -> m (ocr st1) = (Ok doc, s') ->
      reply = Api.JSONResponse (json_dumps H doc) /\ ocr st' = s') /\
  (write_outcome H p content <> Written \/ (exists x s', m (ocr st1) = (Raise x, s')) ->
   reply = Api.HTTPException 500).
Proof.
  intros F1. unfold write_file, run.
  assert (Hfail : forall st, (forall q, q <> p -> files st q = files st0 q) ->
            drawn st = drawn st1 ->
            Api.cleanup_and_fail p st = (reply, st') ->
            upload_gone p st0 st' /\ drawn st' = drawn st1 /\
            reply = Api.HTTPException 500).
  { intros st Hother Hd E.
    destruct (@cleanup_and_fail_gone p st0 st Hother) as [Hr [Hg [_ Hdr]]].
    rewrite E in Hr, Hg, Hdr. cbn in Hr, Hg, Hdr.
    split; [exact Hg|]. split; [congruence | exact Hr]. }
  destruct (write_outcome H p content) as [|e|e partial] eqn:Wr;
    cbn [ocr files drawn stdout stderr].
  - destruct (m (ocr st1)) as [[doc|x] s1] eqn:Run; unfold unlink;
      cbn [ocr files drawn stdout stderr].
    + rewrite put_file_same. intros E. pair_inv E. unfold upload_gone.
      cbn [files drawn ocr]. split; [split|].
      * apply remove_file_same.
      * intros q Hq. rewrite remove_file_other, put_file_other by exact Hq.
        rewrite F1. reflexivity.
      * split; [reflexivity|]. split.
        -- intros doc' s' _ E. injection E as <- <-. split; reflexivity.
        -- intros [Hw | [x [s' E]]]; [contradiction | discriminate].
    + intros E. apply Hfail in E; cbn [files drawn]; [| |reflexivity].
      * destruct E as [Hg [Hd Hr]]. split; [exact Hg|]. split; [exact Hd|]. split.
        -- intros doc s' _ E'. discriminate.
        -- intros _. exact Hr.
      * intros q Hq. rewrite put_file_other by exact Hq. rewrite F1. reflexivity.
  - intros E. apply Hfail in E; [| |reflexivity].
    + destruct E as [Hg [Hd Hr]]. split; [exact Hg|]. split; [exact Hd|]. split.
      * intros doc s' E'. discriminate.
      * intros _. exact Hr.
    + intros q _. rewrite F1. reflexivity.
  - intros E. apply Hfail in E; cbn [files drawn]; [| |reflexivity].
    + destruct E as [Hg [Hd Hr]]. split; [exact Hg|]. split; [exact Hd|]. split.
      * intros doc s' E'. discriminate.
      * intros _. exact Hr.
    + intros q Hq. rewrite put_file_other by exact Hq. rewrite F1. reflexivity.
Qed.

(** Whatever happens to a request that passes the extension check
    (the upload cannot be stored, or is stored in part; the processing
    returns or raises), no file is left at the upload path when the
    handler answers, and every other file is as before.  A request that
    fails the check is answered with 400 and changes nothing: no
    identifier is drawn, no file written and the processor not
    called. *)
Theorem upload_never_remains (W : World) (H : Host) (file : Api.UploadFile)
    (enable_ocr : bool) (lang : pystr) (st : Process) :
  (accepts_pdf H file = false ->
   Api.process_pdf W H file enable_ocr lang st = (Api.HTTPException 400, st)) /\
  (accepts_pdf H file = true ->
   upload_gone (pdf_upload_path H st) st
     (snd (Api.process_pdf W H file enable_ocr lang st))) /\
  (accepts_image H file = false ->
   Api.process_image W H file lang st = (Api.HTTPException 400, st)) /\
  (accepts_image H file = true ->
   upload_gone (image_upload_path H file st) st
     (snd (Api.process_image W H file lang st))).
Proof.
  unfold Api.process_pdf, Api.process_image, accepts_pdf, accepts_image,
    draw_uuid, pdf_upload_path, image_upload_path.
  split; [intros ->; reflexivity|]. split; [|split; [intros ->; reflexivity|]].
  - intros ->. cbn [negb].
    match goal with |- upload_gone _ _ (snd ?t) => destruct t as [reply st'] eqn:E end.
    apply stored_upload_gone with (st0 := st) in E; [apply E | reflexivity].
  - intros ->. cbn [negb].
    match goal with |- upload_gone _ _ (snd ?t) => destruct t as [reply st'] eqn:E end.
    apply stored_upload_gone with (st0 := st) in E; [apply E | reflexivity].
Qed.

Lemma upload_never_remains_witness :
  upload_gone (pdf_upload_path DemoHost.failing_disk DemoHost.start) DemoHost.start
    (snd (Api.process_pdf DemoHost.world DemoHost.failing_disk
            (DemoHost.upload "Report.PDF") true Demo.en DemoHost.start)) /\
  fst (Api.process_pdf DemoHost.world DemoHost.failing_disk
         (DemoHost.upload "Report.PDF") true Demo.en DemoHost.start)
  = Api.HTTPException 500.
Proof.
  split; [|reflexivity].
  apply (proj1 (proj2 (upload_never_remains DemoHost.world DemoHost.failing_disk
                         (DemoHost.upload "Report.PDF") true Demo.en DemoHost.start))).
  reflexivity.
Defined.

(** The answer of the handlers follows the processing.  For a request
    that passes the extension check one identifier is drawn; if the
    upload is stored and the processor returns a layout, the answer is
    the JSON response with that layout, whose document id is the
    identifier, and the state of the processor module is the one the
    processor left; if the upload cannot be stored or the processor
    raises, the answer is 500. *)
Theorem reply_follows_processing (W : World) (H : Host) (file : Api.UploadFile)
    (enable_ocr : bool) (lang : pystr) (st st' : Process) (reply : Api.Reply) :
  (accepts_pdf H file = true ->
   Api.process_pdf W H file enable_ocr lang st = (reply, st') ->
   let doc_id := uuid_hex (uuid4 H (drawn st)) in
   let run_pdf :=
     process_pdf_to_layout_json W (pdf_upload_path H st) (Some doc_id)
       enable_ocr lang (ocr st) in
   drawn st' = S (drawn st) /\
   (forall doc s',
       write_outcome H (pdf_upload_path H st) (Api.upload_content file) = Written ->
       run_pdf = (Ok doc, s') ->
       reply = Api.JSONResponse (json_dumps H doc) /\
       document_id doc = doc_id /\ ocr st' = s') /\
   (write_outcome H (pdf_upload_path H st) (Api.upload_content file) <> Written \/
    (exists x s', run_pdf = (Raise x, s')) ->
    reply = Api.HTTPException 500)) /\
  (accepts_image H file = true ->
   Api.process_image W H file lang st = (reply, st') ->
   let doc_id := uuid_hex (uuid4 H (drawn st)) in
   let run_image :=
     process_image_to_layout_json W (image_upload_path H file st) (Some doc_id)
       lang (ocr st) in
   drawn st' = S (drawn st) /\
   (forall doc s',
       write_outcome H (image_upload_path H file st) (Api.upload_content file)
         = Written ->
       run_image = (Ok doc, s') ->
       reply = Api.JSONResponse (json_dumps H doc) /\
       document_id doc = doc_id /\ ocr st' = s') /\
   (write_outcome H (image_upload_path H file st) (Api.upload_content file)
      <> Written \/
    (exists x s', run_image = (Raise x, s')) ->
    reply = Api.HTTPException 500)).
Proof.
  unfold Api.process_pdf, Api.process_image, accepts_pdf, accepts_image,
    draw_uuid, pdf_upload_path, image_upload_path.
  split; intros -> E; cbn [negb] in E; cbv zeta;
    apply stored_upload_gone with (st0 := st) in E; try reflexivity;
    destruct E as [_ [Hd [Hok Hfail]]]; cbn [drawn ocr] in *;
    (split; [exact Hd|]); (split; [|exact Hfail]);
    intros doc s' Hw Hrun; destruct (Hok doc s' Hw Hrun) as [Hr Hs];
    (split; [exact Hr|]); (split; [|exact Hs]).
  - destruct (process_pdf_inv (P := fun _ => True) _ _ _ _
                (engines_sat_True W (ocr st)) Hrun) as [pdf [_ [Hid _]]].
    rewrite Hid. apply doc_id_of_uuid.
  - destruct (process_image_inv (P := fun _ => True) _ _ _
                (engines_sat_True W (ocr st)) Hrun) as [img [bs [_ [_ [_ [Hid _]]]]]].
    rewrite Hid. apply doc_id_of_uuid.
Qed.

Lemma reply_follows_processing_witness :
  exists data st',
    Api.process_pdf DemoHost.world DemoHost.host (DemoHost.upload "Report.PDF")
      true Demo.en DemoHost.start = (Api.JSONResponse data, st') /\
    data = lit "00000000000000000000000000001000:2" /\
    drawn st' = 1.
Proof.
  eexists. eexists. split; [reflexivity|]. split; [reflexivity|].
  exact (proj1 (proj1 (reply_follows_processing DemoHost.world DemoHost.host
                         (DemoHost.upload "Report.PDF") true Demo.en
                         DemoHost.start _ _)
                  eq_refl eq_refl)).
Defined.

(** ** Reading order and extraction order *)

Lemma with_key_perm (k : Z * Z) (l1 l2 : list Block) :
  Permutation l1 l2 -> Permutation (with_key k l1) (with_key k l2).
Proof.
  unfold with_key. induction 1 as [|x l1 l2 _ IH|x y l|l1 l2 l3 _ IH1 _ IH2]; cbn.
  - constructor.
  - destruct (key_eqb k (sort_key x)); [constructor|]; exact IH.
  - destruct (key_eqb k (sort_key x)), (key_eqb k (sort_key y));
      try apply Permutation_refl. apply perm_swap.
  - eapply perm_trans; eassumption.
Qed.

Lemma with_key_short (k : Z * Z) (l : list Block) :
  NoDup (map sort_key l) -> List.length (with_key k l) <= 1.
Proof.
  unfold with_key. induction l as [|b l IH]; cbn; [lia|].
  intros Hnd. inversion Hnd as [|? ? Hnin Hnd']; subst.
  destruct (key_eqb k (sort_key b)) eqn:E; [|apply IH, Hnd'].
  apply key_eqb_eq in E. subst k.
  destruct (filter (fun c => key_eqb (sort_key b) (sort_key c)) l) as [|c rest] eqn:F;
    [cbn; lia|].
  exfalso. apply Hnin.
  assert (Hin : In c (filter (fun c => key_eqb (sort_key b) (sort_key c)) l))
    by (rewrite F; left; reflexivity).
  apply filter_In in Hin. destruct Hin as [Hin Hk].
  apply key_eqb_eq in Hk. rewrite Hk. apply in_map, Hin.
Qed.

(** When no two blocks of a page have the same top and left edge, the
    reading order does not depend on the order of extraction: two
    extractions that give the same blocks give the same page. *)
Theorem reading_order_ignores_extraction_order (l1 l2 : list Block) :
  NoDup (map sort_key l1) -> Permutation l1 l2 ->
  sort_blocks l1 = sort_blocks l2.
Proof.
  intros Hnd Hperm. apply stable_sort_unique; [apply sort_blocks_sorted|].
  intros k. rewrite sort_blocks_stable.
  pose proof (@with_key_perm k l1 l2 Hperm) as Hp.
  pose proof (@with_key_short k l1 Hnd) as Hlen.
  destruct (with_key k l1) as [|a [|a' r1]]; [| |cbn in Hlen; lia].
  - apply Permutation_nil in Hp. symmetry. exact Hp.
  - apply Permutation_length_1_inv in Hp. symmetry. exact Hp.
Qed.

Lemma reading_order_ignores_extraction_order_witness :
  sort_blocks [mkBlock (ocr_id 1) (lit "text") (mkBBox 12 50 80 61) (lit "Total") 1;
               mkBlock (ocr_id 2) (lit "text") (mkBBox 12 10 95 22) (lit "Invoice") 1]
  = sort_blocks
      [mkBlock (ocr_id 2) (lit "text") (mkBBox 12 10 95 22) (lit "Invoice") 1;
       mkBlock (ocr_id 1) (lit "text") (mkBBox 12 50 80 61) (lit "Total") 1].
Proof.
  apply reading_order_ignores_extraction_order.
  - repeat constructor; cbn; intuition discriminate.
  - apply perm_swap.
Defined.
